(** * xtrabackup-scheduler: backup scheduling, retention and restore-chain logic

    A shallow embedding of [index.js] (the scheduler), of the older scheduler
    variant kept in the repository, and of [restore.js] (the restore tool),
    followed by the properties of the naming scheme, the chain resolver, the
    merge pipeline, the scheduler tick and the retention sweep.

    Conventions of the embedding:
    - a JavaScript string is a [string], one character for each UTF-16 code
      unit: the model holds the strings whose code units are below 256 (the
      keys, paths and command lines at stake are ASCII);
    - a [Date] is its time value, milliseconds since the epoch, as a [Z];
      an Invalid Date is [None];
    - asynchronous functions are sequential ([await] on every call), so they
      are functions in a state-and-exception monad over a [World] that holds
      the local files, the archive store and the trace of effects;
    - whatever the process cannot decide (how the external tools end, I/O
      failures, the clock, the time zone of the host) is read from an
      [Env]. *)

From Stdlib Require Import ZArith String Ascii List Bool Lia Permutation Sorted.
From Stdlib Require Import DecimalString.
Import ListNotations.

Local Open Scope string_scope.
Local Open Scope Z_scope.

(* ================================================================== *)
(** * JavaScript primitives used by the sources *)
(* ================================================================== *)

Module Js.

(** ** Strings *)

(** [s.startsWith(p)] *)
Definition startsWith (s p : string) : bool := String.prefix p s.

(** [s.slice(n)] for [0 <= n] *)
Fixpoint sliceFrom (n : nat) (s : string) : string :=
  match n, s with
  | O, _ => s
  | S _, EmptyString => EmptyString
  | S n', String _ s' => sliceFrom n' s'
  end.

(** [s.slice(0, n)] for [0 <= n] *)
Definition sliceTo (n : nat) (s : string) : string := String.substring 0 n s.

(** [s.substr(start, len)] for non-negative arguments *)
Definition substr (start len : nat) (s : string) : string :=
  String.substring start len s.

(** [s.endsWith(suf)] *)
Definition endsWith (s suf : string) : bool :=
  (String.length suf <=? String.length s)%nat
  && String.eqb (sliceFrom (String.length s - String.length suf) s) suf.

(** [s.replace(pat, rep)] with a string pattern: the first occurrence only. *)
Fixpoint replace (pat rep s : string) : string :=
  if String.prefix pat s then rep ++ sliceFrom (String.length pat) s
  else match s with
       | EmptyString => EmptyString
       | String c s' => String c (replace pat rep s')
       end.

(** [s.replace(/[...]/g, "")]: every character of the class is dropped. *)
Fixpoint removeChars (cls : ascii -> bool) (s : string) : string :=
  match s with
  | EmptyString => EmptyString
  | String c s' =>
      if cls c then removeChars cls s' else String c (removeChars cls s')
  end.

(** [args.join(sep)] *)
Fixpoint join (sep : string) (l : list string) : string :=
  match l with
  | [] => EmptyString
  | [x] => x
  | x :: rest => x ++ sep ++ join sep rest
  end.

Definition isDigit (c : ascii) : bool :=
  let n := nat_of_ascii c in ((48 <=? n) && (n <=? 57))%nat.

(** The class [\s] of a regular expression, which is also the white space
    [parseInt] skips, among the code units below 256: tab, line feed,
    vertical tab, form feed, return, space and the no-break space U+00A0.
    (The other members, U+1680, U+2000 to U+200A, U+2028, U+2029, U+202F,
    U+205F, U+3000 and U+FEFF, are code units from 256 on.) *)
Definition isSpace (c : ascii) : bool :=
  let n := nat_of_ascii c in
  ((n =? 32) || ((9 <=? n) && (n <=? 13)) || (n =? 160))%nat.

(** The lower-case form of a code unit below 256: [A] to [Z], and the
    letters U+00C0 to U+00DE but for the sign U+00D7. *)
Definition lowerChar (c : ascii) : ascii :=
  let n := nat_of_ascii c in
  if (((65 <=? n) && (n <=? 90))
      || ((192 <=? n) && (n <=? 222) && negb (n =? 215)))%nat
  then ascii_of_nat (n + 32)
  else c.

(** [s.toLowerCase()] *)
Fixpoint toLowerCase (s : string) : string :=
  match s with
  | EmptyString => EmptyString
  | String c s' => String (lowerChar c) (toLowerCase s')
  end.

(** [path.basename(p)] for a path that does not end in a slash (it is only
    applied to keys that end in [.tar.gz]): the text after the last [/]. *)
Fixpoint basenameFrom (acc s : string) : string :=
  match s with
  | EmptyString => acc
  | String c s' =>
      if Ascii.eqb c "/" then basenameFrom EmptyString s'
      else basenameFrom (acc ++ String c EmptyString) s'
  end.

Definition basename (p : string) : string := basenameFrom EmptyString p.

(** [path.join(dir, name)] for a normalised [dir] without a trailing slash
    and a plain [name]: no [.] or [..] segment is involved in the sources. *)
Definition pathJoin (dir name : string) : string := dir ++ "/" ++ name.

(** [s.replace(/^\/+|\/+$/g, "")]: leading and trailing slashes dropped. *)
Fixpoint dropLeadingSlashes (s : string) : string :=
  match s with
  | String "/" s' => dropLeadingSlashes s'
  | _ => s
  end.

Fixpoint dropTrailingSlashes (s : string) : string :=
  match s with
  | EmptyString => EmptyString
  | String c s' =>
      match dropTrailingSlashes s' with
      | EmptyString => if Ascii.eqb c "/" then EmptyString
                       else String c EmptyString
      | r => String c r
      end
  end.

Definition trimSlashes (s : string) : string :=
  dropTrailingSlashes (dropLeadingSlashes s).

(** ** Decimal digits *)

Definition digit (n : Z) : ascii := ascii_of_nat (48 + Z.to_nat (n mod 10)).

Definition pad2 (n : Z) : string :=
  String (digit (n / 10)) (String (digit n) EmptyString).

Definition pad3 (n : Z) : string := String (digit (n / 100)) (pad2 n).

Definition pad4 (n : Z) : string := String (digit (n / 1000)) (pad3 n).

Definition pad6 (n : Z) : string :=
  String (digit (n / 100000)) (String (digit (n / 10000)) (pad4 n)).

Definition digitVal (c : ascii) : option Z :=
  if isDigit c then Some (Z.of_nat (nat_of_ascii c - 48)) else None.

Fixpoint parseDigitsFrom (acc : Z) (s : string) : option Z :=
  match s with
  | EmptyString => Some acc
  | String c s' =>
      match digitVal c with
      | Some v => parseDigitsFrom (10 * acc + v) s'
      | None => None
      end
  end.

(** A non-empty run of decimal digits, read as a number. *)
Definition parseDigits (s : string) : option Z :=
  match s with
  | EmptyString => None
  | _ => parseDigitsFrom 0 s
  end.

(** ** Dates: the proleptic Gregorian calendar over the time value *)

Definition msPerDay : Z := 86400000.

(** Day number (days since 1970-01-01) of a calendar date. *)
Definition days_from_civil (y m d : Z) : Z :=
  let y' := if m <=? 2 then y - 1 else y in
  let era := y' / 400 in
  let yoe := y' - era * 400 in
  let mp := if 2 <? m then m - 3 else m + 9 in
  let doy := (153 * mp + 2) / 5 + d - 1 in
  let doe := yoe * 365 + yoe / 4 - yoe / 100 + doy in
  era * 146097 + doe - 719468.

(** Calendar date (year, month 1..12, day 1..31) of a day number. *)
Definition civil_from_days (z : Z) : Z * Z * Z :=
  let z' := z + 719468 in
  let era := z' / 146097 in
  let doe := z' - era * 146097 in
  let yoe := (doe - doe / 1460 + doe / 36524 - doe / 146096) / 365 in
  let doy := doe - (365 * yoe + yoe / 4 - yoe / 100) in
  let mp := (5 * doy + 2) / 153 in
  let d := doy - (153 * mp + 2) / 5 + 1 in
  let m := if mp <? 10 then mp + 3 else mp - 9 in
  ((if m <=? 2 then yoe + era * 400 + 1 else yoe + era * 400), m, d).

(** The year of [toISOString]: four digits for 0..9999, otherwise a sign and
    six digits. *)
Definition isoYear (y : Z) : string :=
  if (0 <=? y) && (y <=? 9999) then pad4 y
  else String (if y <? 0 then "-"%char else "+"%char) (pad6 (Z.abs y)).

(** [date.toISOString()] of a valid time value: [YYYY-MM-DDTHH:mm:ss.sssZ]. *)
Definition toISOString (t : Z) : string :=
  let '(y, m, d) := civil_from_days (t / msPerDay) in
  let tod := t mod msPerDay in
  isoYear y ++ "-" ++ pad2 m ++ "-" ++ pad2 d ++ "T"
  ++ pad2 (tod / 3600000) ++ ":" ++ pad2 (tod / 60000 mod 60) ++ ":"
  ++ pad2 (tod / 1000 mod 60) ++ "." ++ pad3 (tod mod 1000) ++ "Z".

Definition charAt (n : nat) (s : string) : option ascii := String.get n s.

Definition isChar (c : ascii) (o : option ascii) : bool :=
  match o with
  | Some c' => Ascii.eqb c c'
  | None => false
  end.

(** [new Date(s)] for the two ISO shapes the restore tool builds:
    [YYYY-MM-DD] is read as UTC midnight, [YYYY-MM-DDTHH:mm:ss] (no zone
    designator) is read as local time. [tz] is the offset of the host's local
    time, in minutes east of UTC. The engine accepts a day of 1..31 in any
    month and carries the overflow into the next month. Any other string
    falls to the engine's legacy parser, which is not modelled: the answer is
    an Invalid Date. *)
Definition parseDate (tz : Z) (s : string) : option Z :=
  match parseDigits (substr 0 4 s), parseDigits (substr 5 2 s),
        parseDigits (substr 8 2 s) with
  | Some y, Some m, Some d =>
      if isChar "-" (charAt 4 s) && isChar "-" (charAt 7 s)
         && (1 <=? m) && (m <=? 12) && (1 <=? d) && (d <=? 31)
      then
        let day := days_from_civil y m 1 + d - 1 in
        if (String.length s =? 10)%nat then Some (day * msPerDay)
        else if (String.length s =? 19)%nat then
          match parseDigits (substr 11 2 s), parseDigits (substr 14 2 s),
                parseDigits (substr 17 2 s) with
          | Some hh, Some mi, Some ss =>
              if isChar "T" (charAt 10 s) && isChar ":" (charAt 13 s)
                 && isChar ":" (charAt 16 s)
                 && ((hh <=? 23) || ((hh =? 24) && (mi =? 0) && (ss =? 0)))
                 && (mi <=? 59) && (ss <=? 59)
              then Some (day * msPerDay + hh * 3600000 + mi * 60000
                         + ss * 1000 - tz * 60000)
              else None
          | _, _, _ => None
          end
        else None
      else None
  | _, _, _ => None
  end.

End Js.


(* ================================================================== *)
(** * Effects: the world the programs act on *)
(* ================================================================== *)

Module Eff.

(** An [Error] object: its class name and its message. *)
Record JsError := mkError { name : string; message : string }.

(** How [console.error] shows an [Error] object (the stack frames that
    follow the first line are left out). *)
Definition inspectError (e : JsError) : string :=
  if String.eqb (message e) "" then name e else name e ++ ": " ++ message e.

(** One entry of a [ListObjects] response. *)
Record S3Object := mkObject
  { Key : string; Size : Z; LastModified : option Z }.

(** The effects a run performs, in the order it performs them. *)
Inductive Event :=
| EvSpawn (command : string) (args : list string)
| EvAccess (path : string)
| EvReaddir (path : string)
| EvMkdir (path : string)
| EvRm (path : string)
| EvUnlink (path : string)
| EvReadFile (path : string)
| EvWriteFile (path : string)
| EvList (prefix : string)
| EvPut (key : string)
| EvGet (key : string)
| EvDelete (key : string)
| EvHttpGet (url : string)
| EvPrompt (question : string)
| EvStdout (line : string)
| EvStderr (line : string)
| EvUncaught (error : JsError) (spawnargs : list string).
    (** the report of an uncaught exception, which Node writes on standard
        error before it ends the process: the error with its properties,
        for an error of [spawn] the arguments as they were passed *)

(** How the run of an external tool ends. *)
Inductive Ending :=
| Exits (code : Z)          (** it runs and exits: [close] with its code *)
| Killed                    (** it runs and a signal ends it: [close] with
                                the code [null] *)
| NoStart (error : JsError) (** it cannot be started (ENOENT, EACCES,
                                EAGAIN, ...): the child emits [error] *)
| Refused (error : JsError). (** [spawn] itself throws (any other error of
                                 the system) *)

(** What the process does not decide. *)
Record Env := mkEnv
  { now : Z;                            (** the clock, read once per run *)
    tzOffset : Z;                       (** local time, minutes east of UTC *)
    fault : Event -> option JsError;    (** the I/O operation that rejects *)
    ending : string -> list string -> Ending;
                                        (** how an external tool ends *)
    toolFiles : string -> list string -> list string -> list string;
                                        (** local files after the tool ran *)
    sizeOf : string -> Z }.             (** size of a local file *)

(** The code a tool exits with, for a tool that runs and exits; 0 for a run
    that ends in another way. *)
Definition exitCode (env : Env) (command : string) (args : list string) : Z :=
  match ending env command args with
  | Exits code => code
  | _ => 0
  end.

(** The local files (every existing file or directory, by its path), the
    archive store (in listing order), the lines the operator will type. *)
Record World := mkWorld
  { files : list string;
    objects : list S3Object;
    answers : list string }.

Inductive Res (A : Type) :=
| Ok (a : A)
| Throw (e : JsError)
| Halt (code : Z).      (** [process.exit(code)] *)

Arguments Ok {A} a.
Arguments Throw {A} e.
Arguments Halt {A} code.

Definition M (A : Type) : Type := World -> Res A * World * list Event.

Definition ret {A} (a : A) : M A := fun w => (Ok a, w, []).

Definition throw {A} (e : JsError) : M A := fun w => (Throw e, w, []).

Definition exit {A} (code : Z) : M A := fun w => (Halt code, w, []).

Definition bind {A B} (m : M A) (f : A -> M B) : M B :=
  fun w =>
    match m w with
    | (Ok a, w1, t1) => let '(r, w2, t2) := f a w1 in (r, w2, (t1 ++ t2)%list)
    | (Throw e, w1, t1) => (Throw e, w1, t1)
    | (Halt c, w1, t1) => (Halt c, w1, t1)
    end.

(** [try { m } catch (error) { handler(error) }] *)
Definition try {A} (m : M A) (handler : JsError -> M A) : M A :=
  fun w =>
    match m w with
    | (Throw e, w1, t1) => let '(r, w2, t2) := handler e w1 in (r, w2, (t1 ++ t2)%list)
    | other => other
    end.

Notation "x <- m ;; k" := (bind m (fun x => k))
  (at level 61, m at next level, right associativity).
Notation "m ;; k" := (bind m (fun _ => k))
  (at level 61, right associativity).

(** [for (const x of l) { await body(x) }] *)
Fixpoint forEach {A} (body : A -> M unit) (l : list A) : M unit :=
  match l with
  | [] => ret tt
  | x :: rest => body x ;; forEach body rest
  end.

Definition outcome {A} (r : Res A * World * list Event) : Res A := fst (fst r).
Definition world {A} (r : Res A * World * list Event) : World := snd (fst r).
Definition events {A} (r : Res A * World * list Event) : list Event := snd r.

Definition exists_ (p : string) (fs : list string) : bool :=
  existsb (String.eqb p) fs.

(** [p] is [d] itself or lies inside the directory [d]. *)
Definition within (d p : string) : bool :=
  String.eqb p d || String.prefix (d ++ "/") p.

Fixpoint hasSlash (s : string) : bool :=
  match s with
  | EmptyString => false
  | String c s' => Ascii.eqb c "/" || hasSlash s'
  end.

(** The names directly inside the directory [d]. *)
Definition children (d : string) (fs : list string) : list string :=
  flat_map (fun p =>
    if String.prefix (d ++ "/") p
    then let n := Js.sliceFrom (String.length d + 1) p in
         if hasSlash n || String.eqb n "" then [] else [n]
    else []) fs.

Definition ENOENT (p : string) : JsError :=
  mkError "Error" ("ENOENT: no such file or directory, " ++ p).

Section Primitives.

Variable env : Env.

(** An I/O operation: it is recorded, then it rejects if the environment
    says so, and acts on the world otherwise. *)
Definition io {A} (ev : Event) (act : World -> Res A * World) : M A :=
  fun w =>
    match fault env ev with
    | Some e => (Throw e, w, [ev])
    | None => let '(r, w') := act w in (r, w', [ev])
    end.

Definition setFiles (fs : list string) (w : World) : World :=
  mkWorld fs (objects w) (answers w).

Definition setObjects (os : list S3Object) (w : World) : World :=
  mkWorld (files w) os (answers w).

(** [fs.access(p)]: it resolves exactly when the process can see [p];
    [files] holds the paths the process can see. *)
Definition access (p : string) : M unit :=
  fun w =>
    if exists_ p (files w) then (Ok tt, w, [EvAccess p])
    else (Throw (ENOENT p), w, [EvAccess p]).

(** [fs.readdir(d)] *)
Definition readdir (d : string) : M (list string) :=
  io (EvReaddir d) (fun w =>
    if exists_ d (files w) then (Ok (children d (files w)), w)
    else (Throw (ENOENT d), w)).

(** [fs.mkdir(p, { recursive: true })]: no error when [p] exists. *)
Definition mkdir (p : string) : M unit :=
  io (EvMkdir p) (fun w =>
    (Ok tt, if exists_ p (files w) then w else setFiles (p :: files w) w)).

(** [fs.rm(p, { recursive: true, force: true })]: [p] and all it holds are
    removed; no error when [p] does not exist. *)
Definition rm (p : string) : M unit :=
  io (EvRm p) (fun w =>
    (Ok tt, setFiles (filter (fun q => negb (within p q)) (files w)) w)).

(** [fs.unlink(p)] *)
Definition unlink (p : string) : M unit :=
  io (EvUnlink p) (fun w =>
    if exists_ p (files w)
    then (Ok tt, setFiles (filter (fun q => negb (String.eqb q p)) (files w)) w)
    else (Throw (ENOENT p), w)).

(** [fs.readFile(p)]: the content itself is not modelled. *)
Definition readFile (p : string) : M unit :=
  io (EvReadFile p) (fun w =>
    if exists_ p (files w) then (Ok tt, w) else (Throw (ENOENT p), w)).

(** [fs.writeFile(p, buffer)] *)
Definition writeFile (p : string) : M unit :=
  io (EvWriteFile p) (fun w =>
    (Ok tt, if exists_ p (files w) then w else setFiles (p :: files w) w)).

(** [spawn(command, args)] inside the promise of [runCommand], awaited until
    the [close] event: the code handed to the listener, a number or [null]
    ([None]). The tool may have changed the local files. When [spawn] throws,
    the promise rejects. When the tool cannot be started the child emits
    [error]; [runCommand] registers a listener for [close] only, so the error
    is thrown out of the event loop: Node reports the uncaught exception and
    the process ends with code 1, whatever [try] surrounds the call. *)
Definition spawn (command : string) (args : list string) : M (option Z) :=
  fun w =>
    match ending env command args with
    | Exits code =>
        (Ok (Some code), setFiles (toolFiles env command args (files w)) w,
         [EvSpawn command args])
    | Killed =>
        (Ok None, setFiles (toolFiles env command args (files w)) w,
         [EvSpawn command args])
    | NoStart error =>
        (Halt 1, w, [EvSpawn command args; EvUncaught error args])
    | Refused error => (Throw error, w, [EvSpawn command args])
    end.

(** [ListObjects] and [ListObjectsV2] without a continuation token: one page
    of at most 1000 entries under the prefix; [Contents] is absent when the
    page is empty. *)
Definition listObjects (prefix : string) : M (option (list S3Object)) :=
  io (EvList prefix) (fun w =>
    match firstn 1000 (filter (fun o => Js.startsWith (Key o) prefix)
                              (objects w)) with
    | [] => (Ok None, w)
    | page => (Ok (Some page), w)
    end).

(** [PutObject]: the key is created or overwritten. *)
Definition putObject (key filePath : string) : M unit :=
  io (EvPut key) (fun w =>
    (Ok tt,
     setObjects (filter (fun o => negb (String.eqb (Key o) key)) (objects w)
                 ++ [mkObject key (sizeOf env filePath) (Some (now env))])%list
                w)).

(** [GetObject] *)
Definition getObject (key : string) : M unit :=
  io (EvGet key) (fun w =>
    if existsb (fun o => String.eqb (Key o) key) (objects w) then (Ok tt, w)
    else (Throw (mkError "NoSuchKey" "The specified key does not exist."), w)).

(** [DeleteObject]: no error when the key does not exist. *)
Definition deleteObject (key : string) : M unit :=
  io (EvDelete key) (fun w =>
    (Ok tt,
     setObjects (filter (fun o => negb (String.eqb (Key o) key)) (objects w)) w)).

(** [axios.get(url, ...)] *)
Definition httpGet (url : string) : M unit :=
  io (EvHttpGet url) (fun w => (Ok tt, w)).

(** [rl.question(question, ...)]: the next line the operator types. When the
    input has ended the prompt never resolves and the process ends. *)
Definition question (q : string) : M string :=
  fun w =>
    match answers w with
    | a :: rest => (Ok a, mkWorld (files w) (objects w) rest, [EvPrompt q])
    | [] => (Halt 0, w, [EvPrompt q])
    end.

Definition stdout (line : string) : M unit := fun w => (Ok tt, w, [EvStdout line]).

Definition stderr (line : string) : M unit := fun w => (Ok tt, w, [EvStderr line]).

(** [new Date().toISOString()] *)
Definition timestamp : string := Js.toISOString (now env).

(** The line [console.log(timestamp, ...args)] and
    [console.error(timestamp, ...args)] print: the arguments, separated by
    blanks. *)
Definition consoleLine (args : list string) : string :=
  Js.join " " (timestamp :: args).

End Primitives.

Definition newline : string := String (ascii_of_nat 10) EmptyString.

(** A number in a template literal. *)
Definition showZ (n : Z) : string := NilZero.string_of_int (Z.to_int n).

(** [code === 0] and [`${code}`] for the code of a [close] event. *)
Definition isZero (code : option Z) : bool :=
  match code with
  | Some n => n =? 0
  | None => false
  end.

Definition showCode (code : option Z) : string :=
  match code with
  | Some n => showZ n
  | None => "null"
  end.

End Eff.

(* ================================================================== *)
(** * index.js: the scheduler *)
(* ================================================================== *)

Module Index.

Import Eff.

(** The [config] object. An unset or empty environment variable is the empty
    string (both are falsy where the code tests them). *)
Record Config := mkConfig
  { dbUser : string;
    dbPassword : string;
    dbHost : string;
    dbPort : string;
    s3Bucket : string;
    s3BackupDir : string;
    healthCheckUrl : string;
    retentionDays : Z;
    backupRoot : string }.

(** An argument of [logError]: a string or an [Error] object. *)
Inductive LogArg :=
| Str (s : string)
| Err (e : JsError).

(** [message.replace(/--password=[^\s]+/g, '--password=***')]. [lit] counts
    the characters of a matched [--password=] still to be dropped, [run] tells
    that the scan is inside the non-blank run that follows it. *)
Fixpoint maskPasswords (lit : nat) (run : bool) (s : string) : string :=
  match s with
  | EmptyString => EmptyString
  | String c s' =>
      match lit with
      | S k => maskPasswords k run s'
      | O =>
          if run && negb (Js.isSpace c) then maskPasswords 0 true s'
          else if String.prefix "--password=" s
                  && match String.get 11 s with
                     | Some c' => negb (Js.isSpace c')
                     | None => false
                     end
               then "--password=***" ++ maskPasswords 10 true s'
               else String c (maskPasswords 0 false s')
      end
  end.

Definition sanitizeError (error : JsError) : string :=
  if String.eqb (message error) "" then inspectError error
  else maskPasswords 0 false (message error).

(** [date.toISOString().slice(0, 10).replace(/-/g, "")] *)
Definition formatDate (date : Z) : string :=
  Js.removeChars (fun c => Ascii.eqb c "-") (Js.sliceTo 10 (Js.toISOString date)).

(** [s.replace(/\.\d{3}Z$/, "")] *)
Definition stripMillis (s : string) : string :=
  let n := String.length s in
  let tail := Js.sliceFrom (n - 5) s in
  match tail with
  | String dot (String a (String b (String c (String z EmptyString)))) =>
      if Ascii.eqb dot "." && Js.isDigit a && Js.isDigit b && Js.isDigit c
         && Ascii.eqb z "Z"
      then Js.sliceTo (n - 5) s else s
  | _ => s
  end.

(** [date.toISOString().slice(0, 19).replace(/[-:T]/g, "")
        .replace(/\.\d{3}Z$/, "")] *)
Definition formatDateTime (date : Z) : string :=
  stripMillis
    (Js.removeChars
       (fun c => Ascii.eqb c "-" || Ascii.eqb c ":" || Ascii.eqb c "T")
       (Js.sliceTo 19 (Js.toISOString date))).

(** The redaction of [runCommand]. *)
Definition maskArg (arg : string) : string :=
  if Js.startsWith arg "--password=" then "--password=***" else arg.

(** A text without a blank. *)
Fixpoint solid (s : string) : bool :=
  match s with
  | EmptyString => true
  | String c s' => negb (Js.isSpace c) && solid s'
  end.

Section Scheduler.

Variable env : Env.
Variable config : Config.

Definition log (text : string) : M unit :=
  stdout (consoleLine env [text]).

Definition logError (args : list LogArg) : M unit :=
  stderr (consoleLine env (map (fun arg => match arg with
                                           | Err e => sanitizeError e
                                           | Str s => s
                                           end) args)).

Definition runCommand (command : string) (args : list string) : M unit :=
  code <- spawn env command args ;;
  if isZero code then ret tt
  else throw (mkError "Error"
                (command ++ " " ++ Js.join " " (map maskArg args)
                 ++ " failed with exit code " ++ showCode code)).

Definition uploadToB2 (filePath key : string) : M unit :=
  log ("Uploading " ++ filePath ++ " to B2 with key: " ++ key) ;;
  readFile env filePath ;;
  let s3Key := if String.eqb (s3BackupDir config) "" then key
               else Js.trimSlashes (s3BackupDir config) ++ "/" ++ key in
  putObject env s3Key filePath ;;
  log ("Upload of " ++ filePath ++ " as " ++ s3Key ++ " completed.").

(** [object.LastModified && object.LastModified < cutoffDate] *)
Definition isOld (cutoffDate : Z) (object : S3Object) : bool :=
  match LastModified object with
  | Some t => t <? cutoffDate
  | None => false
  end.

Definition cleanupOldBackups : M unit :=
  let cutoffDate := now env - retentionDays config * 24 * 60 * 60 * 1000 in
  let prefix := if String.eqb (s3BackupDir config) "" then ""
                else Js.trimSlashes (s3BackupDir config) ++ "/" in
  try
    (response <- listObjects env prefix ;;
     match response with
     | None => ret tt
     | Some contents =>
         forEach (fun object =>
           if isOld cutoffDate object then
             deleteObject env (Key object) ;;
             log ("Deleted old backup: " ++ Key object)
           else ret tt) contents
     end)
    (fun error => logError [Str "Error cleaning up old backups:"; Err error]).

(** The test of the loop of [cleanupOldDirectories]. *)
Definition isOldDirectory (currentDate entry : string) : bool :=
  Js.startsWith entry "full_backup_"
  && negb (String.eqb entry ("full_backup_" ++ currentDate)).

Definition cleanupOldDirectories (currentDate : string) : M unit :=
  entries <- readdir env (backupRoot config) ;;
  forEach (fun entry =>
    if isOldDirectory currentDate entry then
      let dirPath := Js.pathJoin (backupRoot config) entry in
      try
        (rm env dirPath ;;
         log ("Removed old backup directory: " ++ dirPath))
        (fun error =>
           logError [Str ("Error removing directory " ++ dirPath ++ ":");
                     Err error])
    else ret tt) entries.

Definition performFullBackup : M string :=
  let currentDate := formatDate (now env) in
  let backupDir := Js.pathJoin (backupRoot config) ("full_backup_" ++ currentDate) in
  log "Performing full backup..." ;;
  try
    (cleanupOldDirectories currentDate ;;
     mkdir env backupDir ;;
     runCommand "xtrabackup"
       ["--backup";
        "--user=" ++ dbUser config;
        "--password=" ++ dbPassword config;
        "--host=" ++ dbHost config;
        "--port=" ++ dbPort config;
        "--target-dir=" ++ backupDir;
        "--no-lock"] ;;
     log "Backup complete. Now creating tar archive for full backup..." ;;
     let tarFile := Js.pathJoin (backupRoot config)
                      ("full_backup_" ++ currentDate ++ ".tar.gz") in
     runCommand "tar" ["czf"; tarFile; "-C"; backupDir; "."] ;;
     log ("Full backup tar created at " ++ tarFile ++ ". Uploading to B2...") ;;
     uploadToB2 tarFile (Js.basename tarFile) ;;
     unlink env tarFile ;;
     log ("Tar file " ++ tarFile ++ " removed after upload.") ;;
     log "Full backup completed successfully" ;;
     ret backupDir)
    (fun error =>
       logError [Str "Error during full backup:"; Err error] ;;
       throw error).

Definition performIncrementalBackup (baseDir : string) : M unit :=
  let currentDateTime := formatDateTime (now env) in
  log "Performing incremental backup..." ;;
  try
    (let incrementalDir := Js.pathJoin (backupRoot config)
                             ("inc_backup_" ++ currentDateTime) in
     mkdir env incrementalDir ;;
     runCommand "xtrabackup"
       ["--backup";
        "--user=" ++ dbUser config;
        "--password=" ++ dbPassword config;
        "--host=" ++ dbHost config;
        "--port=" ++ dbPort config;
        "--target-dir=" ++ incrementalDir;
        "--incremental-basedir=" ++ baseDir;
        "--no-lock"] ;;
     log "Incremental backup complete. Creating tar archive..." ;;
     let tarFile := Js.pathJoin (backupRoot config)
                      ("inc_backup_" ++ currentDateTime ++ ".tar.gz") in
     runCommand "tar" ["czf"; tarFile; "-C"; incrementalDir; "."] ;;
     log ("Incremental backup tar created at " ++ tarFile
          ++ ". Uploading to B2...") ;;
     uploadToB2 tarFile (Js.basename tarFile) ;;
     unlink env tarFile ;;
     rm env incrementalDir ;;
     log ("Tar file " ++ tarFile
          ++ " and incremental directory removed after upload.") ;;
     log "Incremental backup completed successfully")
    (fun error =>
       logError [Str "Error during incremental backup:"; Err error] ;;
       throw error).

Definition pingHealthcheck : M unit :=
  if String.eqb (healthCheckUrl config) "" then ret tt
  else
    try
      (httpGet env (healthCheckUrl config) ;;
       log "Successfully pinged healthcheck")
      (fun error => logError [Str "Failed to ping healthcheck:"; Err error]).

(** [null] is [None]. *)
Definition getCurrentFullBackupDir : M (option string) :=
  let currentDate := formatDate (now env) in
  let fullBackupDir := Js.pathJoin (backupRoot config)
                         ("full_backup_" ++ currentDate) in
  try
    (access fullBackupDir ;;
     let checkpointFile := Js.pathJoin fullBackupDir "xtrabackup_checkpoints" in
     access checkpointFile ;;
     ret (Some fullBackupDir))
    (fun _ => ret None).

(** One tick of the main loop. *)
Definition runBackup : M unit :=
  try
    (baseDir <- getCurrentFullBackupDir ;;
     match baseDir with
     | None =>
         log "No full backup for today found. Starting a new full backup." ;;
         performFullBackup ;;
         ret tt
     | Some dir =>
         log "Found today's full backup. Performing incremental backup." ;;
         performIncrementalBackup dir
     end ;;
     log "Cleaning up old backups..." ;;
     cleanupOldBackups ;;
     pingHealthcheck)
    (fun error =>
       logError [Str "Backup failed:"; Err error] ;;
       exit 1).

End Scheduler.

End Index.

(* ================================================================== *)
(** * The older scheduler variant (second copy of the backup script) *)
(* ================================================================== *)

(** The repository keeps an earlier copy of the scheduler. Its [formatDate],
    [formatDateTime], [uploadToB2], retention sweep and directory cleanup have
    the text of [index.js]; its [runCommand], [logError] and
    [getCurrentFullBackupDir] differ, and it passes no [--port]. *)
Module Legacy.

Import Eff.

Record Config := mkConfig
  { dbUser : string;
    dbPassword : string;
    dbHost : string;
    s3Bucket : string;
    s3BackupDir : string;
    healthCheckUrl : string;
    retentionDays : Z;
    backupRoot : string }.

Inductive LogArg :=
| Str (s : string)
| Err (e : JsError).

Definition formatDate (date : Z) : string :=
  Js.removeChars (fun c => Ascii.eqb c "-") (Js.sliceTo 10 (Js.toISOString date)).

Definition formatDateTime (date : Z) : string :=
  Index.stripMillis
    (Js.removeChars
       (fun c => Ascii.eqb c "-" || Ascii.eqb c ":" || Ascii.eqb c "T")
       (Js.sliceTo 19 (Js.toISOString date))).

Section Scheduler.

Variable env : Env.
Variable config : Config.

Definition log (text : string) : M unit :=
  stdout (consoleLine env [text]).

(** [console.error(timestamp, ...args)]: an [Error] object is printed as it
    is. *)
Definition logError (args : list LogArg) : M unit :=
  stderr (consoleLine env (map (fun arg => match arg with
                                           | Err e => inspectError e
                                           | Str s => s
                                           end) args)).

Definition runCommand (command : string) (args : list string) : M unit :=
  code <- spawn env command args ;;
  if isZero code then ret tt
  else throw (mkError "Error"
                (command ++ " " ++ Js.join " " args
                 ++ " failed with exit code " ++ showCode code)).

Definition uploadToB2 (filePath key : string) : M unit :=
  log ("Uploading " ++ filePath ++ " to B2 with key: " ++ key) ;;
  readFile env filePath ;;
  let s3Key := if String.eqb (s3BackupDir config) "" then key
               else Js.trimSlashes (s3BackupDir config) ++ "/" ++ key in
  putObject env s3Key filePath ;;
  log ("Upload of " ++ filePath ++ " as " ++ s3Key ++ " completed.").

Definition cleanupOldBackups : M unit :=
  let cutoffDate := now env - retentionDays config * 24 * 60 * 60 * 1000 in
  let prefix := if String.eqb (s3BackupDir config) "" then ""
                else Js.trimSlashes (s3BackupDir config) ++ "/" in
  try
    (response <- listObjects env prefix ;;
     match response with
     | None => ret tt
     | Some contents =>
         forEach (fun object =>
           if Index.isOld cutoffDate object then
             deleteObject env (Key object) ;;
             log ("Deleted old backup: " ++ Key object)
           else ret tt) contents
     end)
    (fun error => logError [Str "Error cleaning up old backups:"; Err error]).

Definition cleanupOldDirectories (currentDate : string) : M unit :=
  entries <- readdir env (backupRoot config) ;;
  forEach (fun entry =>
    if Index.isOldDirectory currentDate entry then
      let dirPath := Js.pathJoin (backupRoot config) entry in
      try
        (rm env dirPath ;;
         log ("Removed old backup directory: " ++ dirPath))
        (fun error =>
           logError [Str ("Error removing directory " ++ dirPath ++ ":");
                     Err error])
    else ret tt) entries.

Definition performFullBackup : M string :=
  let currentDate := formatDate (now env) in
  let backupDir := Js.pathJoin (backupRoot config) ("full_backup_" ++ currentDate) in
  log "Performing full backup..." ;;
  try
    (cleanupOldDirectories currentDate ;;
     mkdir env backupDir ;;
     runCommand "xtrabackup"
       ["--backup";
        "--user=" ++ dbUser config;
        "--password=" ++ dbPassword config;
        "--host=" ++ dbHost config;
        "--target-dir=" ++ backupDir;
        "--no-lock"] ;;
     log "Backup complete. Now creating tar archive for full backup..." ;;
     let tarFile := Js.pathJoin (backupRoot config)
                      ("full_backup_" ++ currentDate ++ ".tar.gz") in
     runCommand "tar" ["czf"; tarFile; "-C"; backupDir; "."] ;;
     log ("Full backup tar created at " ++ tarFile ++ ". Uploading to B2...") ;;
     uploadToB2 tarFile (Js.basename tarFile) ;;
     unlink env tarFile ;;
     log ("Tar file " ++ tarFile ++ " removed after upload.") ;;
     log "Full backup completed successfully" ;;
     ret backupDir)
    (fun error =>
       logError [Str "Error during full backup:"; Err error] ;;
       throw error).

Definition performIncrementalBackup (baseDir : string) : M unit :=
  let currentDateTime := formatDateTime (now env) in
  log "Performing incremental backup..." ;;
  try
    (let incrementalDir := Js.pathJoin (backupRoot config)
                             ("inc_backup_" ++ currentDateTime) in
     mkdir env incrementalDir ;;
     runCommand "xtrabackup"
       ["--backup";
        "--user=" ++ dbUser config;
        "--password=" ++ dbPassword config;
        "--host=" ++ dbHost config;
        "--target-dir=" ++ incrementalDir;
        "--incremental-basedir=" ++ baseDir;
        "--no-lock"] ;;
     log "Incremental backup complete. Creating tar archive..." ;;
     let tarFile := Js.pathJoin (backupRoot config)
                      ("inc_backup_" ++ currentDateTime ++ ".tar.gz") in
     runCommand "tar" ["czf"; tarFile; "-C"; incrementalDir; "."] ;;
     log ("Incremental backup tar created at " ++ tarFile
          ++ ". Uploading to B2...") ;;
     uploadToB2 tarFile (Js.basename tarFile) ;;
     unlink env tarFile ;;
     rm env incrementalDir ;;
     log ("Tar file " ++ tarFile
          ++ " and incremental directory removed after upload.") ;;
     log "Incremental backup completed successfully")
    (fun error =>
       logError [Str "Error during incremental backup:"; Err error] ;;
       throw error).

Definition pingHealthcheck : M unit :=
  if String.eqb (healthCheckUrl config) "" then ret tt
  else
    try
      (httpGet env (healthCheckUrl config) ;;
       log "Successfully pinged healthcheck")
      (fun error => logError [Str "Failed to ping healthcheck:"; Err error]).

Definition getCurrentFullBackupDir : M (option string) :=
  let currentDate := formatDate (now env) in
  let fullBackupDir := Js.pathJoin (backupRoot config)
                         ("full_backup_" ++ currentDate) in
  try
    (access fullBackupDir ;;
     ret (Some fullBackupDir))
    (fun _ => ret None).

Definition runBackup : M unit :=
  try
    (baseDir <- getCurrentFullBackupDir ;;
     match baseDir with
     | None =>
         log "No full backup for today found. Starting a new full backup." ;;
         performFullBackup ;;
         ret tt
     | Some dir =>
         log "Found today's full backup. Performing incremental backup." ;;
         performIncrementalBackup dir
     end ;;
     log "Cleaning up old backups..." ;;
     cleanupOldBackups ;;
     pingHealthcheck)
    (fun error =>
       logError [Str "Backup failed:"; Err error] ;;
       exit 1).

End Scheduler.

End Legacy.

(* ================================================================== *)
(** * restore.js: the restore tool *)
(* ================================================================== *)

(** The lines the tool prints for the operator with [log] and [console.log]
    (the table, the progress messages, the final instructions) are not
    recorded; what [logError] prints is. *)
Module Restore.

Import Eff.

Record Config := mkConfig
  { s3Bucket : string;
    s3BackupDir : string;
    restoreRoot : string }.

(** One entry of the list [listBackups] returns. *)
Record Backup := mkBackup
  { key : string;
    filename : string;
    size : Z;
    date : option Z;
    isIncremental : bool;
    lastModified : option Z }.

(** [a.date >= b.date]: false as soon as one date is invalid. *)
Definition dateGe (a b : option Z) : bool :=
  match a, b with
  | Some x, Some y => y <=? x
  | _, _ => false
  end.

(** [a.date <= b.date] *)
Definition dateLe (a b : option Z) : bool :=
  match a, b with
  | Some x, Some y => x <=? y
  | _, _ => false
  end.

(** [a.date - b.date]: [None] is [NaN]. *)
Definition dateSub (a b : option Z) : option Z :=
  match a, b with
  | Some x, Some y => Some (x - y)
  | _, _ => None
  end.

(** [Array.prototype.sort(comparator)]: a stable sort; a comparator result
    of [NaN] counts as 0. With a comparator that is not a consistent order
    (which takes an invalid date) the engine's result is its own; the model
    answers what the insertion sort below answers. *)
Definition notAfter {A} (comparator : A -> A -> option Z) (x y : A) : bool :=
  match comparator x y with
  | Some v => v <=? 0
  | None => true
  end.

Fixpoint insertBy {A} (comparator : A -> A -> option Z) (x : A) (l : list A)
  : list A :=
  match l with
  | [] => [x]
  | y :: rest =>
      if notAfter comparator x y then x :: y :: rest
      else y :: insertBy comparator x rest
  end.

Definition sortBy {A} (comparator : A -> A -> option Z) (l : list A) : list A :=
  fold_right (insertBy comparator) [] l.

(** The timestamp [listBackups] derives from a file name. *)
Definition decodeDate (tz : Z) (filename : string) (isIncremental : bool)
  : option Z :=
  if isIncremental then
    let dateStr := Js.replace ".tar.gz" "" (Js.replace "inc_backup_" "" filename) in
    Js.parseDate tz
      (Js.substr 0 4 dateStr ++ "-" ++ Js.substr 4 2 dateStr ++ "-"
       ++ Js.substr 6 2 dateStr ++ "T" ++ Js.substr 8 2 dateStr ++ ":"
       ++ Js.substr 10 2 dateStr ++ ":" ++ Js.substr 12 2 dateStr)
  else
    let dateStr := Js.replace ".tar.gz" "" (Js.replace "full_backup_" "" filename) in
    Js.parseDate tz
      (Js.substr 0 4 dateStr ++ "-" ++ Js.substr 4 2 dateStr ++ "-"
       ++ Js.substr 6 2 dateStr).

(** The function mapped over the listing. *)
Definition toBackup (tz : Z) (obj : S3Object) : Backup :=
  let filename := Js.basename (Key obj) in
  let isIncremental := Js.startsWith filename "inc_backup_" in
  mkBackup (Key obj) filename (Size obj)
           (decodeDate tz filename isIncremental) isIncremental
           (LastModified obj).

(** Every entry derived from the listing: the filter and the map of
    [listBackups]. *)
Definition catalog (tz : Z) (contents : list S3Object) : list Backup :=
  map (toBackup tz) (filter (fun obj => Js.endsWith (Key obj) ".tar.gz") contents).

(** [.sort((a, b) => b.date - a.date)] *)
Definition byDateDesc (l : list Backup) : list Backup :=
  sortBy (fun a b => dateSub (date b) (date a)) l.

(** [.sort((a, b) => a.date - b.date)] *)
Definition byDateAsc (l : list Backup) : list Backup :=
  sortBy (fun a b => dateSub (date a) (date b)) l.

(** What [listBackups] returns for a non-empty page. *)
Definition recent (tz : Z) (contents : list S3Object) : list Backup :=
  firstn 20 (byDateDesc (catalog tz contents)).

Definition missingBase (dateStr : string) : JsError :=
  mkError "Error"
    ("Cannot find full backup for date " ++ dateStr
     ++ ". Incremental backups cannot be restored without their base full backup.").

(** [b => !b.isIncremental && b.filename === `full_backup_${dateStr}.tar.gz`] *)
Definition isFullOf (dateStr : string) (b : Backup) : bool :=
  negb (isIncremental b)
  && String.eqb (filename b) ("full_backup_" ++ dateStr ++ ".tar.gz").

(** The filter over the incrementals. *)
Definition isLinkOf (dateStr : string) (fullBackup selectedBackup b : Backup)
  : bool :=
  isIncremental b
  && dateGe (date b) (date fullBackup)
  && dateLe (date b) (date selectedBackup)
  && Js.startsWith (filename b) ("inc_backup_" ++ dateStr).

(** [findRelatedBackups]: a pure function; [inl] is the thrown error. *)
Definition findRelatedBackups (backups : list Backup) (selectedBackup : Backup)
  : JsError + list Backup :=
  if isIncremental selectedBackup then
    match date selectedBackup with
    | None => inl (mkError "RangeError" "Invalid time value")
    | Some incDate =>
        let dateStr :=
          Js.removeChars (fun c => Ascii.eqb c "-")
                         (Js.sliceTo 10 (Js.toISOString incDate)) in
        match find (isFullOf dateStr) backups with
        | None => inl (missingBase dateStr)
        | Some fullBackup =>
            let incrementals :=
              byDateAsc (filter (isLinkOf dateStr fullBackup selectedBackup)
                                backups) in
            inr (fullBackup :: incrementals)
        end
    end
  else inr [selectedBackup].

(** ** [parseInt] *)

Definition hexVal (c : ascii) : option Z :=
  let n := nat_of_ascii c in
  if Js.isDigit c then Some (Z.of_nat (n - 48))
  else if ((97 <=? n) && (n <=? 102))%nat then Some (Z.of_nat (n - 87))
  else if ((65 <=? n) && (n <=? 70))%nat then Some (Z.of_nat (n - 55))
  else None.

Fixpoint readNumber (radix : Z) (acc : option Z) (s : string) : option Z :=
  match s with
  | EmptyString => acc
  | String c s' =>
      match (if radix =? 16 then hexVal c else Js.digitVal c) with
      | Some v =>
          readNumber radix
            (Some (radix * match acc with Some a => a | None => 0 end + v)) s'
      | None => acc
      end
  end.

Fixpoint skipSpaces (s : string) : string :=
  match s with
  | String c s' => if Js.isSpace c then skipSpaces s' else s
  | EmptyString => EmptyString
  end.

(** [parseInt(s)]: blanks, a sign, [0x] for base 16, then the longest run of
    digits; [None] is [NaN]. *)
Definition parseInt (s : string) : option Z :=
  let s1 := skipSpaces s in
  let '(sign, s2) :=
    match s1 with
    | String "-" r => (-1, r)
    | String "+" r => (1, r)
    | _ => (1, s1)
    end in
  let '(radix, s3) :=
    match s2 with
    | String "0" (String "x" r) => (16, r)
    | String "0" (String "X" r) => (16, r)
    | _ => (10, s2)
    end in
  match readNumber radix None s3 with
  | Some v => Some (sign * v)
  | None => None
  end.

(** Some record carries an invalid date. *)
Definition undated (backups : list Backup) : bool :=
  existsb (fun b => match date b with None => true | Some _ => false end) backups.

Section Tool.

Variable env : Env.
Variable config : Config.

Definition logError (args : list Index.LogArg) : M unit :=
  stderr (consoleLine env (map (fun arg => match arg with
                                           | Index.Err e => Index.sanitizeError e
                                           | Index.Str s => s
                                           end) args)).

Definition listBackups : M (list Backup) :=
  let prefix := if String.eqb (s3BackupDir config) "" then ""
                else Js.trimSlashes (s3BackupDir config) ++ "/" in
  try
    (response <- listObjects env prefix ;;
     match response with
     | None => ret []
     | Some contents => ret (recent (tzOffset env) contents)
     end)
    (fun error =>
       logError [Index.Str "Error listing backups:"; Index.Err error] ;;
       throw error).

Definition downloadFromS3 (key localPath : string) : M unit :=
  try
    (getObject env key ;;
     writeFile env localPath)
    (fun error =>
       logError [Index.Str "Error downloading from S3:"; Index.Err error] ;;
       throw error).

Definition runCommand (command : string) (args : list string) : M unit :=
  code <- spawn env command args ;;
  if isZero code then ret tt
  else throw (mkError "Error"
                (command ++ " " ++ Js.join " " (map Index.maskArg args)
                 ++ " failed with exit code " ++ showCode code)).

(** The body of the loop [for (let i = 1; i < backupsToRestore.length; i++)],
    over the elements from index [i] on. *)
Fixpoint applyIncrementals (baseDir : string) (i : nat) (rest : list Backup)
  : M unit :=
  match rest with
  | [] => ret tt
  | incBackup :: rest' =>
      let incBackupPath := Js.pathJoin (restoreRoot config) (filename incBackup) in
      let incDir := Js.pathJoin (restoreRoot config)
                      ("inc_" ++ showZ (Z.of_nat i)) in
      downloadFromS3 (key incBackup) incBackupPath ;;
      mkdir env incDir ;;
      runCommand "tar" ["xzf"; incBackupPath; "-C"; incDir] ;;
      unlink env incBackupPath ;;
      runCommand "xtrabackup"
        ["--prepare"; "--apply-log-only";
         "--target-dir=" ++ baseDir;
         "--incremental-dir=" ++ incDir] ;;
      rm env incDir ;;
      applyIncrementals baseDir (S i) rest'
  end.

Definition restoreBackups (backupsToRestore : list Backup) : M unit :=
  let baseDir := Js.pathJoin (restoreRoot config) "base" in
  mkdir env baseDir ;;
  match backupsToRestore with
  | [] =>
      (* [backupsToRestore[0]] is [undefined] *)
      throw (mkError "TypeError"
               "Cannot read properties of undefined (reading 'filename')")
  | fullBackup :: incrementals =>
      let fullBackupPath := Js.pathJoin (restoreRoot config) (filename fullBackup) in
      downloadFromS3 (key fullBackup) fullBackupPath ;;
      runCommand "tar" ["xzf"; fullBackupPath; "-C"; baseDir] ;;
      unlink env fullBackupPath ;;
      (if (1 <? Z.of_nat (List.length backupsToRestore))
       then runCommand "xtrabackup"
              ["--prepare"; "--apply-log-only"; "--target-dir=" ++ baseDir]
       else ret tt) ;;
      applyIncrementals baseDir 1 incrementals ;;
      runCommand "xtrabackup" ["--prepare"; "--target-dir=" ++ baseDir]
  end.

(** A pure function that may throw, called from an [async] function. *)
Definition lift {A} (r : JsError + A) : M A :=
  match r with
  | inl error => throw error
  | inr a => ret a
  end.

Definition main : M unit :=
  try
    (backups <- listBackups ;;
     if Z.of_nat (List.length backups) =? 0 then ret tt
     else if undated backups then
       (* the table of the backups is printed with [backup.date.toISOString()] *)
       throw (mkError "RangeError" "Invalid time value")
     else
       selection <- question (newline ++ "Enter backup number to restore (or 'q' to quit): ") ;;
       if String.eqb (Js.toLowerCase selection) "q" then ret tt
       else
         match parseInt selection with
         | None => logError [Index.Str "Invalid selection."]
         | Some n =>
             let selectedIndex := n - 1 in
             if (selectedIndex <? 0)
                || (Z.of_nat (List.length backups) <=? selectedIndex)
             then logError [Index.Str "Invalid selection."]
             else
               match nth_error backups (Z.to_nat selectedIndex) with
               | None =>
                   throw (mkError "TypeError"
                     "Cannot read properties of undefined (reading 'filename')")
               | Some selectedBackup =>
                   backupsToRestore <-
                     lift (findRelatedBackups backups selectedBackup) ;;
                   proceed <- question (newline ++ "Proceed with restore? (yes/no): ") ;;
                   if negb (String.eqb (Js.toLowerCase proceed) "yes") then ret tt
                   else
                     mkdir env (restoreRoot config) ;;
                     restoreBackups backupsToRestore
               end
         end)
    (fun error =>
       logError [Index.Str "Restore failed:"; Index.Err error] ;;
       exit 1).

End Tool.

End Restore.

(* ================================================================== *)
(** * Notions the properties are stated with *)
(* ================================================================== *)

(** ** Runs and traces *)

Module Trace.

Import Eff.

(** The result [r] of a continuation, after the events [t1]. *)
Definition after {A} (t1 : list Event) (r : Res A * World * list Event)
  : Res A * World * list Event :=
  (outcome r, world r, (t1 ++ events r)%list).

(** Every event a program can emit satisfies [P]. *)
Definition emits {A} (P : Event -> Prop) (m : M A) : Prop :=
  forall w, Forall P (events (m w)).

(** A program that neither throws nor ends the process. *)
Definition total {A} (m : M A) : Prop :=
  forall w, exists a, outcome (m w) = Ok a.

(** A program that does not end the process. *)
Definition noHalt {A} (m : M A) : Prop :=
  forall w c, outcome (m w) <> Halt c.

(** A program that ends the process only where a tool cannot be started:
    with code 1, and the last thing written is the report of the uncaught
    exception. *)
Definition crashes (env : Env) {A} (m : M A) : Prop :=
  forall w c,
    outcome (m w) = Halt c ->
    c = 1
    /\ exists t0 command args e,
         ending env command args = NoStart e
         /\ events (m w) = (t0 ++ [EvSpawn command args; EvUncaught e args])%list.

Definition isPut (ev : Event) : bool :=
  match ev with EvPut _ => true | _ => false end.

(** The store operations of the Retention Sweep. *)
Definition isSweep (ev : Event) : bool :=
  match ev with EvList _ | EvDelete _ => true | _ => false end.

Definition isPing (ev : Event) : bool :=
  match ev with EvHttpGet _ => true | _ => false end.

(** An event outside the class [cls]. *)
Definition quiet (cls : Event -> bool) (ev : Event) : Prop := cls ev = false.

(** [needle] occurs in [s]. *)
Fixpoint contains (needle s : string) : bool :=
  String.prefix needle s
  || match s with
     | EmptyString => false
     | String _ s' => contains needle s'
     end.

(** The lines written to the log sinks, standard output and standard error. *)
Definition logLines (t : list Event) : list string :=
  flat_map (fun ev => match ev with
                      | EvStdout line | EvStderr line => [line]
                      | _ => []
                      end) t.

End Trace.

(** ** The naming scheme *)

Module Naming.

(** The calendar fields (UTC) of the instant [t]. *)
Definition yearOf (t : Z) : Z := fst (fst (Js.civil_from_days (t / Js.msPerDay))).
Definition monthOf (t : Z) : Z := snd (fst (Js.civil_from_days (t / Js.msPerDay))).
Definition dayOf (t : Z) : Z := snd (Js.civil_from_days (t / Js.msPerDay)).
Definition hourOf (t : Z) : Z := t mod Js.msPerDay / 3600000.
Definition minuteOf (t : Z) : Z := t mod Js.msPerDay / 60000 mod 60.
Definition secondOf (t : Z) : Z := t mod Js.msPerDay / 1000 mod 60.

(** The UTC year of the instant [t] has four digits, 0000..9999. *)
Definition fourDigitYear (t : Z) : Prop := 0 <= yearOf t <= 9999.

(** The key under which [performIncrementalBackup] stores the backup it
    takes at the instant [t]. *)
Definition incKey (t : Z) : string :=
  "inc_backup_" ++ Index.formatDateTime t ++ ".tar.gz".

(** The key under which [performFullBackup] stores the backup it takes at
    the instant [t]. *)
Definition fullKey (t : Z) : string :=
  "full_backup_" ++ Index.formatDate t ++ ".tar.gz".

(** [YYYY-MM-DD] and [YYYY-MM-DDTHH:mm:ss]. *)
Definition isoDate (y m d : Z) : string :=
  Js.pad4 y ++ "-" ++ Js.pad2 m ++ "-" ++ Js.pad2 d.

Definition isoDateTime (y m d hh mi ss : Z) : string :=
  isoDate y m d ++ "T" ++ Js.pad2 hh ++ ":" ++ Js.pad2 mi ++ ":" ++ Js.pad2 ss.

End Naming.

(** ** Chains *)

Module Chain.

Import Restore Naming.

(** A record whose timestamp is the one its file name encodes: an
    Incremental named after its instant, a Full named after its day and
    dated at midnight UTC. *)
Definition canonical (b : Backup) : Prop :=
  exists t, date b = Some t /\ fourDigitYear t
    /\ if isIncremental b then filename b = incKey t
       else filename b = fullKey t /\ t mod Js.msPerDay = 0.

Definition dated (b : Backup) : Prop := exists t, date b = Some t.

(** [canonical], decided. *)
Definition canonicalb (b : Backup) : bool :=
  match date b with
  | Some t =>
      (0 <=? yearOf t) && (yearOf t <=? 9999)
      && if isIncremental b then String.eqb (filename b) (incKey t)
         else String.eqb (filename b) (fullKey t) && (t mod Js.msPerDay =? 0)
  | None => false
  end.

(** The two records fall on the same calendar day (UTC). *)
Definition sameDay (a b : Backup) : bool :=
  match date a, date b with
  | Some x, Some y => String.eqb (Index.formatDate x) (Index.formatDate y)
  | _, _ => false
  end.

(** An Incremental of the target's day, between the Full and the target. *)
Definition inWindow (fullBackup target b : Backup) : bool :=
  isIncremental b && sameDay b target
  && dateGe (date b) (date fullBackup) && dateLe (date b) (date target).

Definition notLater (a b : Backup) : Prop := dateLe (date a) (date b) = true.

End Chain.

(** ** The merge pipeline *)

Module Pipeline.

Import Eff.

(** One invocation of the engine's merge, [xtrabackup --prepare ...]. *)
Record Merge := mkMerge
  { logOnly : bool; targetDir : option string; incrementalDir : option string }.

(** The value of the argument [name=value], if the argument is there. *)
Fixpoint argValue (name : string) (args : list string) : option string :=
  match args with
  | [] => None
  | a :: rest =>
      if Js.startsWith a name then Some (Js.sliceFrom (String.length name) a)
      else argValue name rest
  end.

Definition mergeOf (ev : Event) : option Merge :=
  match ev with
  | EvSpawn command args =>
      if String.eqb command "xtrabackup" && existsb (String.eqb "--prepare") args
      then Some (mkMerge (existsb (String.eqb "--apply-log-only") args)
                         (argValue "--target-dir=" args)
                         (argValue "--incremental-dir=" args))
      else None
  | _ => None
  end.

(** An archive unpacked into a directory, [tar xzf archive -C dir]. *)
Definition extractOf (ev : Event) : option (string * string) :=
  match ev with
  | EvSpawn command [mode; archive; flag; dir] =>
      if String.eqb command "tar" && String.eqb mode "xzf" && String.eqb flag "-C"
      then Some (archive, dir) else None
  | _ => None
  end.

Definition pick {A B} (f : A -> option B) (l : list A) : list B :=
  flat_map (fun a => match f a with Some b => [b] | None => [] end) l.

(** The merges of a run, in order. *)
Definition merges (t : list Event) : list Merge := pick mergeOf t.

(** The extractions of a run, in order. *)
Definition extractions (t : list Event) : list (string * string) :=
  pick extractOf t.

(** The working base directory and the directory of the [i]-th incremental. *)
Definition baseDir (config : Restore.Config) : string :=
  Js.pathJoin (Restore.restoreRoot config) "base".

Definition incDir (config : Restore.Config) (i : nat) : string :=
  Js.pathJoin (Restore.restoreRoot config) ("inc_" ++ showZ (Z.of_nat i)).

(** The prefix [listBackups] lists under, and the page the store answers
    with. *)
Definition listingPrefix (config : Restore.Config) : string :=
  if String.eqb (Restore.s3BackupDir config) "" then ""
  else Js.trimSlashes (Restore.s3BackupDir config) ++ "/".

Definition page (config : Restore.Config) (w : World) : list S3Object :=
  firstn 1000 (filter (fun o => Js.startsWith (Key o) (listingPrefix config))
                      (objects w)).

End Pipeline.

(** ** The scheduler tick *)

Module Tick.

Import Eff Trace.

Section Tick.

Variable env : Env.
Variable config : Index.Config.

(** Today's full-backup directory and the engine's completion marker in it. *)
Definition todayDir : string :=
  Js.pathJoin (Index.backupRoot config)
              ("full_backup_" ++ Index.formatDate (now env)).

Definition checkpointFile : string :=
  Js.pathJoin todayDir "xtrabackup_checkpoints".

(** A valid base for today is on local storage. *)
Definition baseExists (w : World) : bool :=
  exists_ todayDir (files w) && exists_ checkpointFile (files w).

(** The accesses of the probe. *)
Definition probeEvents (w : World) : list Event :=
  if exists_ todayDir (files w) then [EvAccess todayDir; EvAccess checkpointFile]
  else [EvAccess todayDir].

(** The branch of [runBackup] that the probe selects. *)
Definition procedure (baseDir : option string) : M unit :=
  match baseDir with
  | None =>
      Index.log env "No full backup for today found. Starting a new full backup." ;;
      Index.performFullBackup env config ;;
      ret tt
  | Some dir =>
      Index.log env "Found today's full backup. Performing incremental backup." ;;
      Index.performIncrementalBackup env config dir
  end.

(** What [runBackup] does after the backup procedure. *)
Definition afterBackup : M unit :=
  Index.log env "Cleaning up old backups..." ;;
  Index.cleanupOldBackups env config ;;
  Index.pingHealthcheck env config.

(** The line the tick reports a failure with. *)
Definition failedLine (e : JsError) : Event :=
  EvStderr (consoleLine env ["Backup failed:"; Index.sanitizeError e]).

(** A rejected upload ends the program at once: the error is thrown, after
    the rejected [PutObject] come only the events [S] allows, and before it
    nothing was sent to the store for upload. *)
Definition putFails {A} (S : JsError -> list Event -> Prop) (m : M A) : Prop :=
  forall w key e,
    In (EvPut key) (events (m w)) -> fault env (EvPut key) = Some e ->
    outcome (m w) = Throw e
    /\ exists t0 suffix, S e suffix
                         /\ events (m w) = (t0 ++ EvPut key :: suffix)%list
                         /\ Forall (quiet isPut) t0.

(** After a rejected upload the procedure logs the error and rethrows it. *)
Definition procedureLogged (e : JsError) (suffix : list Event) : Prop :=
  exists label,
    suffix = [EvStderr (consoleLine env [label; Index.sanitizeError e])].

(** The cutoff and the prefix of the Retention Sweep. *)
Definition cutoffDate : Z :=
  now env - Index.retentionDays config * 24 * 60 * 60 * 1000.

Definition sweepPrefix : string :=
  if String.eqb (Index.s3BackupDir config) "" then ""
  else Js.trimSlashes (Index.s3BackupDir config) ++ "/".

(** The page of the store listing that the sweep reads. *)
Definition sweepPage (w : World) : list S3Object :=
  firstn 1000 (filter (fun o => Js.startsWith (Key o) sweepPrefix) (objects w)).

(** The key of [o] is the key of an old object of the listing [page]. *)
Definition swept (page : list S3Object) (o : S3Object) : bool :=
  existsb (fun p => Index.isOld cutoffDate p && String.eqb (Key o) (Key p)) page.

(** What the sweep does for the objects of the listing [page]. *)
Definition sweepEvents (page : list S3Object) : list Event :=
  flat_map (fun p => if Index.isOld cutoffDate p
                     then [EvDelete (Key p);
                           EvStdout (consoleLine env ["Deleted old backup: " ++ Key p])]
                     else []) page.

(** ** The cleanup of the local directories *)

Variable today : string.

(** The body of the loop of [cleanupOldDirectories]. *)
Definition sweepEntry (entry : string) : M unit :=
  if Index.isOldDirectory today entry then
    let dirPath := Js.pathJoin (Index.backupRoot config) entry in
    try
      (rm env dirPath ;;
       Index.log env ("Removed old backup directory: " ++ dirPath))
      (fun error =>
         Index.logError env
           [Index.Str ("Error removing directory " ++ dirPath ++ ":");
            Index.Err error])
  else ret tt.

(** The entry is an old full-backup directory and its removal is not
    rejected. *)
Definition removable (entry : string) : bool :=
  Index.isOldDirectory today entry
  && match fault env (EvRm (Js.pathJoin (Index.backupRoot config) entry)) with
     | None => true
     | Some _ => false
     end.

Definition keeps (entry p : string) : bool :=
  negb (removable entry
        && within (Js.pathJoin (Index.backupRoot config) entry) p).

(** An entry of the working root that the cleanup is to remove, in the words
    of the claim as amended: its name starts with "full_backup_" and is not
    the name of today's full-backup directory. Nothing is asked of its kind:
    a directory and a file are removed alike. *)
Definition stale (entry : string) : Prop :=
  (exists rest, entry = "full_backup_" ++ rest)
  /\ entry <> "full_backup_" ++ today.

End Tick.

(** Today's full-backup directory as the older variant names it. *)
Definition olderTodayDir (env : Env) (config : Legacy.Config) : string :=
  Js.pathJoin (Legacy.backupRoot config)
              ("full_backup_" ++ Legacy.formatDate (now env)).

End Tick.

(** ** The catalog *)

Module Catalog.

Import Eff Restore.

(** [a] is not older than [b]. *)
Definition notEarlier (a b : Backup) : Prop := dateGe (date a) (date b) = true.

(** The record [listBackups] makes of an object of the store. *)
Definition recordOf (tz : Z) (contents : list S3Object) (b : Backup) : Prop :=
  exists obj, In obj contents /\ Js.endsWith (Key obj) ".tar.gz" = true
              /\ b = toBackup tz obj.

End Catalog.

(** ** Failures that end a run *)

Module Failure.

Import Eff.

(** Where [bad] names an event that fails and the error it fails with: such
    an event ends the program at once. The error is thrown, and after the
    event come only the events [S] allows. *)
Definition stopsAt {A} (bad : Event -> option JsError)
  (S : JsError -> list Event -> Prop) (m : M A) : Prop :=
  forall w ev e,
    In ev (events (m w)) -> bad ev = Some e ->
    outcome (m w) = Throw e
    /\ exists t0 suffix, S e suffix
                         /\ events (m w) = (t0 ++ ev :: suffix)%list.

(** The error [runCommand] of [index.js] and of [restore.js] rejects with. *)
Definition toolError (command : string) (args : list string) (code : Z)
  : JsError :=
  mkError "Error"
    (command ++ " " ++ Js.join " " (map Index.maskArg args)
     ++ " failed with exit code " ++ showZ code).

(** The run of an external tool that exits with a code other than 0. *)
Definition failedTool (env : Env) (ev : Event) : option JsError :=
  match ev with
  | EvSpawn command args =>
      if exitCode env command args =? 0 then None
      else Some (toolError command args (exitCode env command args))
  | _ => None
  end.

(** Nothing follows. *)
Definition last_ (e : JsError) (suffix : list Event) : Prop := suffix = [].

(** The events that write to the archive store. *)
Definition writesStore (ev : Event) : bool :=
  match ev with EvPut _ | EvDelete _ => true | _ => false end.

(** The events that touch the local files, run a tool or fetch an archive. *)
Definition acts (ev : Event) : bool :=
  match ev with
  | EvSpawn _ _ | EvMkdir _ | EvRm _ | EvUnlink _ | EvWriteFile _ | EvGet _
  | EvPut _ | EvDelete _ => true
  | _ => false
  end.

Definition isSpawn (ev : Event) : bool :=
  match ev with EvSpawn _ _ => true | _ => false end.

(** No upload comes before the run of a tool. *)
Definition toolsFirst (t : list Event) : Prop :=
  forall t0 ev rest,
    t = (t0 ++ ev :: rest)%list -> isSpawn ev = true ->
    Forall (Trace.quiet Trace.isPut) t0.

(** A run of the engine that takes an Incremental. *)
Definition isIncrementalRun (ev : Event) : bool :=
  match ev with
  | EvSpawn command args =>
      String.eqb command "xtrabackup"
      && existsb (fun arg => Js.startsWith arg "--incremental-basedir=") args
  | _ => false
  end.

Definition ordered {A} (m : M A) : Prop :=
  forall w, toolsFirst (events (m w)).

(** A program that leaves the archive store as it is. *)
Definition keepsStore {A} (m : M A) : Prop :=
  forall w, objects (world (m w)) = objects w.

(** A program that leaves the local files as they are. *)
Definition keepsFiles {A} (m : M A) : Prop :=
  forall w, files (world (m w)) = files w.

(** The object an upload of [filePath] under [key] leaves in the store. *)
Definition archive (env : Env) (config : Index.Config) (key filePath : string)
  : S3Object :=
  mkObject (Tick.sweepPrefix config ++ key) (sizeOf env filePath) (Some (now env)).

End Failure.

(** ** What a run shows of the password *)

Module Secrecy.

Import Eff.

(** The configuration with another password. *)
Definition withPassword (config : Index.Config) (pw : string) : Index.Config :=
  Index.mkConfig (Index.dbUser config) pw (Index.dbHost config)
                 (Index.dbPort config) (Index.s3Bucket config)
                 (Index.s3BackupDir config) (Index.healthCheckUrl config)
                 (Index.retentionDays config) (Index.backupRoot config).

(** An event with the password arguments of a command line masked. *)
Definition hideArgs (ev : Event) : Event :=
  match ev with
  | EvSpawn command args => EvSpawn command (map Index.maskArg args)
  | _ => ev
  end.

(** The engine ends the same way and leaves the same files, whatever the
    password arguments are. *)
Definition blind (env : Env) : Prop :=
  forall args,
    ending env "xtrabackup" args
    = ending env "xtrabackup" (map Index.maskArg args)
    /\ toolFiles env "xtrabackup" args
       = toolFiles env "xtrabackup" (map Index.maskArg args).

(** The tool can be started. *)
Definition starts (env : Env) (command : string) : Prop :=
  forall args e, ending env command args <> NoStart e.

(** The command line of the engine for an Incremental. *)
Definition incrementalArgs (env : Env) (config : Index.Config) : list string :=
  ["--backup";
   "--user=" ++ Index.dbUser config;
   "--password=" ++ Index.dbPassword config;
   "--host=" ++ Index.dbHost config;
   "--port=" ++ Index.dbPort config;
   "--target-dir=" ++ Js.pathJoin (Index.backupRoot config)
                        ("inc_backup_" ++ Index.formatDateTime (now env));
   "--incremental-basedir=" ++ Tick.todayDir env config;
   "--no-lock"].

(** Two programs that cannot be told apart but for the password arguments
    they pass to the tools. *)
Definition alike {A} (m m' : M A) : Prop :=
  forall w, outcome (m w) = outcome (m' w)
            /\ world (m w) = world (m' w)
            /\ map hideArgs (events (m w)) = map hideArgs (events (m' w)).

End Secrecy.

(* ================================================================== *)
(** * The start of the programs: environment, proxy, main loop *)
(* ================================================================== *)

Module Startup.

Import Eff.

(** [s.includes(c)] for a one-character [c] *)
Fixpoint includes (c : ascii) (s : string) : bool :=
  match s with
  | EmptyString => false
  | String c' s' => Ascii.eqb c' c || includes c s'
  end.

(** [s.split(c)] for a one-character separator [c] *)
Fixpoint split (c : ascii) (s : string) : list string :=
  match s with
  | EmptyString => [EmptyString]
  | String c' s' =>
      if Ascii.eqb c' c then EmptyString :: split c s'
      else match split c s' with
           | piece :: rest => String c' piece :: rest
           | [] => [String c' EmptyString]
           end
  end.

(** The host and the port read from [DB_HOST]:
    [if (dbHost && dbHost.includes(":")) { parts = dbHost.split(":"); ... }].
    With a colon in it the string splits into two parts at least. *)
Definition parseDbHost (DB_HOST : string) : string * string :=
  if includes ":" DB_HOST then
    match split ":" DB_HOST with
    | host :: port :: _ => (host, port)
    | _ => (DB_HOST, "3306")
    end
  else (DB_HOST, "3306").

(** The text after the first [@]. *)
Fixpoint afterAt (s : string) : option string :=
  match s with
  | EmptyString => None
  | String c s' => if Ascii.eqb c "@" then Some s' else afterAt s'
  end.

(** [proxy.replace(/:\/\/[^@]+@/, '://***@')]: the first [://] that is
    followed by one character at least other than [@] and then by an [@]. *)
Fixpoint redactProxy (s : string) : string :=
  match s with
  | EmptyString => EmptyString
  | String c s' =>
      if String.prefix "://" s then
        match Js.sliceFrom 3 s with
        | String c1 r =>
            if Ascii.eqb c1 "@" then String c (redactProxy s')
            else match afterAt r with
                 | Some rest => "://***@" ++ rest
                 | None => String c (redactProxy s')
                 end
        | EmptyString => String c (redactProxy s')
        end
      else String c (redactProxy s')
  end.

(** The HTTP agents handed to the S3 client and to axios. *)
Inductive Agent :=
| SocksProxyAgent (url : string)
| HttpsProxyAgent (url : string).

Definition requiredEnvVars : list string :=
  ["DB_USER"; "DB_PASSWORD"; "DB_HOST"; "S3_BUCKET"; "S3_ENDPOINT";
   "AWS_ACCESS_KEY_ID"; "AWS_SECRET_ACCESS_KEY"].

Definition restoreEnvVars : list string :=
  ["S3_BUCKET"; "S3_ENDPOINT"; "AWS_ACCESS_KEY_ID"; "AWS_SECRET_ACCESS_KEY"].

Definition notSet (envVar : string) : string :=
  "Error: Required environment variable " ++ envVar ++ " is not set".

Section Startup.

Variable env : Env.

(** [process.env]: an unset variable reads as the empty string, which the
    tests of the sources do not tell from an empty value. *)
Variable getenv : string -> string.

(** The error the constructor of an agent throws for a URL it refuses. *)
Variable agentError : Agent -> option JsError.

(** The loop over [requiredEnvVars] of [index.js] and of the older variant. *)
Definition validateEnv : M unit :=
  forEach (fun envVar =>
             if String.eqb (getenv envVar) "" then
               Index.logError env [Index.Str (notSet envVar)] ;;
               exit 1
             else ret tt) requiredEnvVars.

(** The loop of [restore.js], which writes with [console.error]. *)
Definition validateRestoreEnv : M unit :=
  forEach (fun envVar =>
             if String.eqb (getenv envVar) "" then
               stderr (notSet envVar) ;;
               exit 1
             else ret tt) restoreEnvVars.

Definition construct (agent : Agent) : M Agent :=
  match agentError agent with
  | Some error => throw error
  | None => ret agent
  end.

Definition getProxyAgent (proxyUrl : string) : M (option Agent) :=
  if String.eqb proxyUrl "" then ret None
  else if Js.startsWith proxyUrl "socks" || Js.startsWith proxyUrl "socks5://" then
    agent <- construct (SocksProxyAgent proxyUrl) ;; ret (Some agent)
  else if Js.startsWith proxyUrl "http://" || Js.startsWith proxyUrl "https://" then
    agent <- construct (HttpsProxyAgent proxyUrl) ;; ret (Some agent)
  else
    Index.log env ("Warning: Unknown proxy protocol in " ++ proxyUrl
                   ++ ", using https-proxy-agent") ;;
    agent <- construct (HttpsProxyAgent proxyUrl) ;; ret (Some agent).

(** [if (config.proxy) { ... }] at the top of [index.js] and [restore.js]. *)
Definition useProxy (proxy : string) : M (option Agent) :=
  if String.eqb proxy "" then ret None
  else
    agent <- getProxyAgent proxy ;;
    Index.log env ("Using proxy: " ++ redactProxy proxy) ;;
    ret agent.

End Startup.

(** [main] of [index.js], over the ticks that the loop has gone through:
    [startup] is the environment of the start and [ticks] the ones of the
    ticks, in order (the clock moves on between them). The interval is one
    hour. Nothing after the start can throw into the handler of
    [main().catch]. *)
Definition main (startup : Env) (ticks : list Env) (config : Index.Config)
  : M unit :=
  try
    (mkdir startup (Index.backupRoot config) ;;
     Index.log startup ("Created backup directory: " ++ Index.backupRoot config) ;;
     forEach (fun tick =>
                Index.runBackup tick config ;;
                Index.log tick "Sleeping for 1 hours...") ticks)
    (fun error =>
       Index.logError startup [Index.Str "Fatal error:"; Index.Err error] ;;
       exit 1).

(** The loop of [main], in its own words: the ticks run in the order of
    [ticks], each one from the world that the one before has left; a tick
    that returns is followed by the line of the sleep; a tick that ends the
    process ends the loop, and the ticks behind it do not run. [t] is what
    the loop does from [w], [r] the way it ends and [w'] the world it
    leaves. *)
Inductive loops (config : Index.Config)
  : list Env -> World -> list Event -> Res unit -> World -> Prop :=
| loops_end w : loops config [] w [] (Ok tt) w
| loops_tick tick ticks w w1 t1 t r w' :
    Index.runBackup tick config w = (Ok tt, w1, t1) ->
    loops config ticks w1 t r w' ->
    loops config (tick :: ticks) w
          (t1 ++ EvStdout (consoleLine tick ["Sleeping for 1 hours..."]) :: t)%list
          r w'
| loops_exit tick ticks w w1 t1 code :
    Index.runBackup tick config w = (Halt code, w1, t1) ->
    loops config (tick :: ticks) w t1 (Halt code) w1.

End Startup.

(** ** Concrete inputs *)

Module Scenario.

Import Eff.

(** 2024-01-01T12:00:00Z, 2024-01-01T06:00:00Z and 2024-03-01T00:00:00Z. *)
Definition noon : Z := 1704110400000.
Definition morning : Z := 1704088800000.
Definition march : Z := 1709251200000.

(** [tar czf file -C dir .] leaves [file]; no other tool changes what the
    model tracks. *)
Definition archiver (command : string) (args fs : list string) : list string :=
  match args with
  | mode :: file :: _ =>
      if String.eqb command "tar" && String.eqb mode "czf" then file :: fs else fs
  | _ => fs
  end.

(** Nothing fails, every tool exits with 0, the host is on UTC. *)
Definition calm (clock : Z) : Env :=
  mkEnv clock 0 (fun _ => None) (fun _ _ => Exits 0) archiver (fun _ => 0).

(** The engine exits with 1. *)
Definition engineFails (clock : Z) : Env :=
  mkEnv clock 0 (fun _ => None)
        (fun command _ => if String.eqb command "xtrabackup" then Exits 1
                          else Exits 0)
        archiver (fun _ => 0).

(** The store rejects the listing of the sweep. *)
Definition listingFails (clock : Z) : Env :=
  mkEnv clock 0
        (fun ev => match ev with
                   | EvList _ => Some (mkError "Error" "connect ETIMEDOUT")
                   | _ => None
                   end)
        (fun _ _ => Exits 0) archiver (fun _ => 0).

(** The store rejects every upload. *)
Definition uploadFails (clock : Z) : Env :=
  mkEnv clock 0
        (fun ev => match ev with
                   | EvPut _ => Some (mkError "Error" "connect ETIMEDOUT")
                   | _ => None
                   end)
        (fun _ _ => Exits 0) archiver (fun _ => 0).

(** A host eight hours east of UTC. *)
Definition utcPlus8 : Z := 480.

Definition scheduler : Index.Config :=
  Index.mkConfig "root" "s3cret" "mysql" "3306" "backups" ""
                 "https://hc-ping.com/uuid" 30 "/tmp/mysql-backup-1".

Definition olderScheduler : Legacy.Config :=
  Legacy.mkConfig "root" "s3cret" "mysql" "backups" ""
                  "https://hc-ping.com/uuid" 30 "/tmp/mysql-backup-1".

Definition restorer : Restore.Config :=
  Restore.mkConfig "backups" "" "/restore".

Definition object (key : string) (size : Z) : S3Object :=
  mkObject key size (Some noon).

(** One Full and two Incrementals of 2024-01-01. *)
Definition store3 : list S3Object :=
  [object "full_backup_20240101.tar.gz" 2097152;
   object "inc_backup_20240101060000.tar.gz" 204800;
   object "inc_backup_20240101120000.tar.gz" 153600].

Definition full0101 : Restore.Backup :=
  Restore.mkBackup "full_backup_20240101.tar.gz" "full_backup_20240101.tar.gz"
                   2097152 (Some 1704067200000) false (Some noon).

Definition inc0600 : Restore.Backup :=
  Restore.mkBackup "inc_backup_20240101060000.tar.gz"
                   "inc_backup_20240101060000.tar.gz"
                   204800 (Some morning) true (Some noon).

Definition inc1200 : Restore.Backup :=
  Restore.mkBackup "inc_backup_20240101120000.tar.gz"
                   "inc_backup_20240101120000.tar.gz"
                   153600 (Some noon) true (Some noon).

(** The same Incremental stored twice, once under [archive/]. *)
Definition storeTwice : list S3Object :=
  [object "archive/inc_backup_20240101060000.tar.gz" 204800;
   object "full_backup_20240101.tar.gz" 2097152;
   object "inc_backup_20240101060000.tar.gz" 204800].

Definition archived0600 : Restore.Backup :=
  Restore.mkBackup "archive/inc_backup_20240101060000.tar.gz"
                   "inc_backup_20240101060000.tar.gz"
                   204800 (Some morning) true (Some noon).

(** An Incremental of 2024-01-02 without its Full. *)
Definition storeOrphan : list S3Object :=
  [object "inc_backup_20240102030000.tar.gz" 204800].

Definition orphan : Restore.Backup :=
  Restore.mkBackup "inc_backup_20240102030000.tar.gz"
                   "inc_backup_20240102030000.tar.gz"
                   204800 (Some 1704164400000) true (Some noon).

(** The Full of 2024-01-01 and its hourly Incrementals of 01:00 to 20:00. *)
Definition hours : list string :=
  ["01"; "02"; "03"; "04"; "05"; "06"; "07"; "08"; "09"; "10";
   "11"; "12"; "13"; "14"; "15"; "16"; "17"; "18"; "19"; "20"].

Definition storeDay : list S3Object :=
  object "full_backup_20240101.tar.gz" 2097152
  :: map (fun h => object ("inc_backup_20240101" ++ h ++ "0000.tar.gz") 204800)
         hours.

Definition inc2000 : Restore.Backup :=
  Restore.mkBackup "inc_backup_20240101200000.tar.gz"
                   "inc_backup_20240101200000.tar.gz"
                   204800 (Some 1704139200000) true (Some noon).

(** The 06:00 Incremental as a host on UTC+8 reads it. *)
Definition inc0600plus8 : Restore.Backup :=
  Restore.mkBackup "inc_backup_20240101060000.tar.gz"
                   "inc_backup_20240101060000.tar.gz"
                   204800 (Some 1704060000000) true (Some noon).

(** A store that also holds an object that is no backup, last modified on
    1970-01-01. *)
Definition storeMixed : list S3Object :=
  [mkObject "full_backup_20240101.tar.gz" 2097152 (Some noon);
   mkObject "notes.txt" 12 (Some 0)].

(** The working root with a full-backup directory of today that holds no
    completion marker. *)
Definition unfinished : World :=
  mkWorld ["/tmp/mysql-backup-1"; "/tmp/mysql-backup-1/full_backup_20240101"]
          [] [].

(** The working root with a finished full backup of today. *)
Definition finished : World :=
  mkWorld ["/tmp/mysql-backup-1"; "/tmp/mysql-backup-1/full_backup_20240101";
           "/tmp/mysql-backup-1/full_backup_20240101/xtrabackup_checkpoints"]
          [] [].

(** The working root with the directories of yesterday and of today. *)
Definition twoDays : World :=
  mkWorld ["/tmp/mysql-backup-1";
           "/tmp/mysql-backup-1/full_backup_20231231";
           "/tmp/mysql-backup-1/full_backup_20231231/xtrabackup_checkpoints";
           "/tmp/mysql-backup-1/full_backup_20240101";
           "/tmp/mysql-backup-1/full_backup_20240101/xtrabackup_checkpoints";
           "/tmp/mysql-backup-1/inc_backup_20231231230000";
           "/var/lib/mysql/ibdata1"]
          [] [].

End Scenario.

(** ** More concrete inputs *)

Module Samples.

Import Eff.

(** Every agent can be built. *)
Definition anyAgent (agent : Startup.Agent) : option JsError := None.

(** The store of [Scenario.store3] and an operator who picks entry 3, the
    Full, and agrees. *)
Definition picksFull : World := mkWorld [] Scenario.store3 ["3"; "yes"].

(** An operator who picks entry 1 and then declines. *)
Definition declines : World := mkWorld [] Scenario.store3 ["1"; "no"].

(** An operator who picks an entry that is not there. *)
Definition picksSeven : World := mkWorld [] Scenario.store3 ["7"].

(** The working root with the archive of today's Full in it. *)
Definition tarFile : string := "/tmp/mysql-backup-1/full_backup_20240101.tar.gz".

Definition packed : World := mkWorld ["/tmp/mysql-backup-1"; tarFile] [] [].

(** The working root with the archive of yesterday, which a failed upload
    has left, beside today's full-backup directory. *)
Definition leftover : World :=
  mkWorld ["/tmp/mysql-backup-1";
           "/tmp/mysql-backup-1/full_backup_20231231.tar.gz";
           "/tmp/mysql-backup-1/full_backup_20240101";
           "/tmp/mysql-backup-1/full_backup_20240101/xtrabackup_checkpoints"]
          [] [].

(** [xtrabackup] is not installed. *)
Definition engineMissing (clock : Z) : Env :=
  mkEnv clock 0 (fun _ => None)
        (fun command _ =>
           if String.eqb command "xtrabackup"
           then NoStart (mkError "Error" "spawn xtrabackup ENOENT")
           else Exits 0)
        Scenario.archiver (fun _ => 0).

(** A signal ends [xtrabackup]: its exit code is [null]. *)
Definition engineKilled (clock : Z) : Env :=
  mkEnv clock 0 (fun _ => None)
        (fun command _ =>
           if String.eqb command "xtrabackup" then Killed else Exits 0)
        Scenario.archiver (fun _ => 0).

End Samples.

(* ================================================================== *)
(** * Properties *)
(* ================================================================== *)

(** ** Digits, strings and the calendar *)

Module JsFacts.

Import Js.

(** ** Digits *)

Lemma digit_cases (P : ascii -> Prop) :
  P "0"%char -> P "1"%char -> P "2"%char -> P "3"%char -> P "4"%char ->
  P "5"%char -> P "6"%char -> P "7"%char -> P "8"%char -> P "9"%char ->
  forall n, P (digit n).
Proof.
  intros H0 H1 H2 H3 H4 H5 H6 H7 H8 H9 n. unfold digit.
  assert (Hk : (Z.to_nat (n mod 10) < 10)%nat)
    by (pose proof (Z.mod_pos_bound n 10); lia).
  revert Hk. generalize (Z.to_nat (n mod 10)) as k. intros k Hk.
  do 10 (destruct k as [|k]; [assumption|]). lia.
Qed.

Lemma isDigit_digit n : isDigit (digit n) = true.
Proof. apply digit_cases; reflexivity. Qed.

Lemma digit_eqb_sep n c :
  isDigit c = false -> Ascii.eqb (digit n) c = false.
Proof.
  intros Hc. destruct (Ascii.eqb (digit n) c) eqn:E; [|reflexivity].
  apply Ascii.eqb_eq in E. rewrite <- E, isDigit_digit in Hc. discriminate.
Qed.

Lemma digitVal_digit n : digitVal (digit n) = Some (n mod 10).
Proof.
  unfold digitVal. rewrite isDigit_digit. f_equal. unfold digit.
  rewrite nat_ascii_embedding.
  - pose proof (Z.mod_pos_bound n 10). lia.
  - pose proof (Z.mod_pos_bound n 10). lia.
Qed.

Lemma parseDigits_pad2 n : 0 <= n <= 99 -> parseDigits (pad2 n) = Some n.
Proof.
  intros H. unfold pad2, parseDigits, parseDigitsFrom.
  rewrite !digitVal_digit. f_equal.
  Z.div_mod_to_equations. lia.
Qed.

Lemma parseDigits_pad4 n : 0 <= n <= 9999 -> parseDigits (pad4 n) = Some n.
Proof.
  intros H. unfold pad4, pad3, pad2, parseDigits, parseDigitsFrom.
  rewrite !digitVal_digit. f_equal.
  Z.div_mod_to_equations. lia.
Qed.

(** ** The calendar *)

Lemma civil_from_days_range z :
  let '(y, m, d) := civil_from_days z in 1 <= m <= 12 /\ 1 <= d <= 31.
Proof.
  unfold civil_from_days.
  set (doe := z + 719468 - (z + 719468) / 146097 * 146097).
  assert (Hdoe : 0 <= doe < 146097) by (subst doe; Z.div_mod_to_equations; lia).
  clearbody doe.
  set (yoe := (doe - doe / 1460 + doe / 36524 - doe / 146096) / 365).
  assert (Hyoe : 0 <= yoe <= 399) by (subst yoe; Z.div_mod_to_equations; lia).
  set (doy := doe - (365 * yoe + yoe / 4 - yoe / 100)).
  assert (Hdoy : 0 <= doy <= 365) by (subst doy yoe; Z.div_mod_to_equations; lia).
  clearbody doy.
  set (mp := (5 * doy + 2) / 153).
  assert (Hmp : 0 <= mp <= 11) by (subst mp; Z.div_mod_to_equations; lia).
  split.
  - destruct (mp <? 10) eqn:E; [apply Z.ltb_lt in E | apply Z.ltb_ge in E]; lia.
  - subst mp. Z.div_mod_to_equations. lia.
Qed.

Lemma days_from_civil_of_days z :
  let '(y, m, d) := civil_from_days z in days_from_civil y m d = z.
Proof.
  unfold civil_from_days.
  set (era := (z + 719468) / 146097).
  set (doe := z + 719468 - era * 146097).
  assert (Hdoe : 0 <= doe < 146097) by (subst doe era; Z.div_mod_to_equations; lia).
  assert (Hz : z = era * 146097 + doe - 719468) by (subst doe; lia).
  clearbody doe. clearbody era.
  set (yoe := (doe - doe / 1460 + doe / 36524 - doe / 146096) / 365).
  assert (Hyoe : 0 <= yoe <= 399) by (subst yoe; Z.div_mod_to_equations; lia).
  set (doy := doe - (365 * yoe + yoe / 4 - yoe / 100)).
  assert (Hdoy : 0 <= doy <= 365) by (subst doy yoe; Z.div_mod_to_equations; lia).
  assert (Hdoe' : doe = yoe * 365 + yoe / 4 - yoe / 100 + doy) by (subst doy; lia).
  clearbody doy. clearbody yoe.
  set (mp := (5 * doy + 2) / 153).
  assert (Hmp : 0 <= mp <= 11) by (subst mp; Z.div_mod_to_equations; lia).
  clearbody mp.
  unfold days_from_civil.
  destruct (mp <? 10) eqn:E; [apply Z.ltb_lt in E | apply Z.ltb_ge in E].
  - replace (mp + 3 <=? 2) with false by (symmetry; apply Z.leb_gt; lia).
    replace (2 <? mp + 3) with true by (symmetry; apply Z.ltb_lt; lia).
    replace ((yoe + era * 400) / 400) with era by (Z.div_mod_to_equations; lia).
    replace (mp + 3 - 3) with mp by lia.
    replace (yoe + era * 400 - era * 400) with yoe by lia. lia.
  - replace (mp - 9 <=? 2) with true by (symmetry; apply Z.leb_le; lia).
    replace (2 <? mp - 9) with false by (symmetry; apply Z.ltb_ge; lia).
    replace ((yoe + era * 400 + 1 - 1) / 400) with era by (Z.div_mod_to_equations; lia).
    replace (mp - 9 + 9) with mp by lia.
    replace (yoe + era * 400 + 1 - 1 - era * 400) with yoe by lia. lia.
Qed.

Lemma days_from_civil_day y m d :
  days_from_civil y m 1 + d - 1 = days_from_civil y m d.
Proof. unfold days_from_civil. lia. Qed.

(** ** Strings *)

Lemma prefix_cons a s1 b s2 :
  String.prefix (String a s1) (String b s2)
  = Ascii.eqb a b && String.prefix s1 s2.
Proof.
  simpl. destruct (ascii_dec a b) as [->|Hne].
  - now rewrite Ascii.eqb_refl.
  - apply Ascii.eqb_neq in Hne. now rewrite Hne.
Qed.

Lemma prefix_nil s : String.prefix "" s = true.
Proof. now destruct s. Qed.

Lemma prefix_app_same p a b :
  String.prefix (p ++ a) (p ++ b) = String.prefix a b.
Proof.
  induction p as [|c p IH]; [reflexivity|].
  change (String.prefix (String c (p ++ a)) (String c (p ++ b)) = String.prefix a b).
  now rewrite prefix_cons, Ascii.eqb_refl, IH.
Qed.

Lemma prefix_app p s : String.prefix p (p ++ s) = true.
Proof.
  rewrite <- (prefix_nil s) at 1.
  replace p with (p ++ "") at 1.
  - rewrite prefix_app_same. now rewrite !prefix_nil.
  - induction p; simpl; congruence.
Qed.

Lemma sliceFrom_app p s : sliceFrom (String.length p) (p ++ s) = s.
Proof. induction p; simpl; auto. Qed.

Lemma replace_unfold pat rep s :
  replace pat rep s
  = if String.prefix pat s then rep ++ sliceFrom (String.length pat) s
    else match s with
         | EmptyString => EmptyString
         | String c s' => String c (replace pat rep s')
         end.
Proof. destruct s; reflexivity. Qed.

Lemma replace_prefix pat rep s : replace pat rep (pat ++ s) = rep ++ s.
Proof. now rewrite replace_unfold, prefix_app, sliceFrom_app. Qed.

Lemma app_assoc_s (a b c : string) : (a ++ b) ++ c = a ++ b ++ c.
Proof. induction a; simpl; congruence. Qed.

Lemma app_nil_r_s (a : string) : a ++ "" = a.
Proof. induction a; simpl; congruence. Qed.

(** Over a run of digits a pattern that starts with no digit does not match. *)
Lemma replace_after_digit n c pat rep s :
  isDigit c = false ->
  replace (String c pat) rep (String (digit n) s)
  = String (digit n) (replace (String c pat) rep s).
Proof.
  intros Hc. rewrite replace_unfold, prefix_cons.
  rewrite Ascii.eqb_sym, (digit_eqb_sep n c Hc). reflexivity.
Qed.

Lemma prefix_same_length d x r :
  String.length d = String.length x ->
  String.prefix d (x ++ r) = true <-> d = x.
Proof.
  revert x. induction d as [|a d IH]; intros [|b x] Hlen; try discriminate.
  - simpl. rewrite prefix_nil. tauto.
  - change (String b x ++ r) with (String b (x ++ r)).
    rewrite prefix_cons, andb_true_iff, Ascii.eqb_eq, IH by (simpl in Hlen; lia).
    split; [intros [-> ->]; reflexivity | intros [= -> ->]; auto].
Qed.

Lemma app_inv_head_s (p a b : string) : p ++ a = p ++ b -> a = b.
Proof. induction p; simpl; intros H; [exact H|]. injection H. auto. Qed.

Lemma length_app_s (a b : string) :
  String.length (a ++ b) = (String.length a + String.length b)%nat.
Proof. induction a; simpl; congruence. Qed.

Lemma app_inv_tail_s (a b s : string) : a ++ s = b ++ s -> a = b.
Proof.
  revert b. induction a as [|c a IH]; intros [|c' b] H.
  - reflexivity.
  - apply (f_equal String.length) in H. simpl in H. rewrite length_app_s in H. lia.
  - apply (f_equal String.length) in H. simpl in H. rewrite length_app_s in H. lia.
  - simpl in H. injection H as -> H. f_equal. now apply IH.
Qed.

Lemma prefix_exists a s : String.prefix a s = true -> exists r, s = a ++ r.
Proof.
  revert s. induction a as [|c a IH]; intros s H.
  - now exists s.
  - destruct s as [|c' s]; [discriminate|].
    rewrite prefix_cons in H. apply andb_true_iff in H as [Hc Hp].
    apply Ascii.eqb_eq in Hc. subst c'. destruct (IH s Hp) as [r ->]. now exists r.
Qed.

Lemma hasSlash_app a b : Eff.hasSlash (a ++ String "/" b) = true.
Proof.
  induction a as [|c a IH]; simpl in *; [reflexivity|]. now rewrite IH, orb_true_r.
Qed.

Lemma noSlash_split a b x y :
  Eff.hasSlash a = false -> Eff.hasSlash b = false ->
  a ++ String "/" x = b ++ String "/" y -> a = b.
Proof.
  revert b. induction a as [|c a IH]; intros [|c' b] Ha Hb H; simpl in *.
  - reflexivity.
  - injection H as <- _. discriminate.
  - injection H as -> _. discriminate.
  - injection H as <- H. apply orb_false_iff in Ha as [_ Ha], Hb as [_ Hb].
    f_equal. now apply IH.
Qed.

(** ** The model on values known from a JavaScript console *)

Example toISOString_2024 : Js.toISOString 1704088800123 = "2024-01-01T06:00:00.123Z".
Proof. vm_compute. reflexivity. Qed.

Example toISOString_before_epoch : Js.toISOString (-1) = "1969-12-31T23:59:59.999Z".
Proof. vm_compute. reflexivity. Qed.

Example toISOString_leap_day : Js.toISOString 951782400000 = "2000-02-29T00:00:00.000Z".
Proof. vm_compute. reflexivity. Qed.

Example toISOString_year_10000 :
  Js.toISOString 253402300800000 = "+010000-01-01T00:00:00.000Z".
Proof. vm_compute. reflexivity. Qed.

Example toISOString_year_minus_1 :
  Js.toISOString (-62167219200001) = "-000001-12-31T23:59:59.999Z".
Proof. vm_compute. reflexivity. Qed.

Example parseDate_date_only : Js.parseDate 480 "2024-01-01" = Some 1704067200000.
Proof. vm_compute. reflexivity. Qed.

Example parseDate_date_time_utc :
  Js.parseDate 0 "2024-01-01T06:00:00" = Some 1704088800000.
Proof. vm_compute. reflexivity. Qed.

Example parseDate_date_time_east :
  Js.parseDate 480 "2024-01-01T06:00:00" = Some 1704060000000.
Proof. vm_compute. reflexivity. Qed.

Example replace_first : Js.replace ".tar.gz" "" "20240101.tar.gz" = "20240101".
Proof. vm_compute. reflexivity. Qed.

Example trimSlashes_both : Js.trimSlashes "//a/b//" = "a/b".
Proof. vm_compute. reflexivity. Qed.

Example basename_key : Js.basename "a/b/inc_backup_1.tar.gz" = "inc_backup_1.tar.gz".
Proof. vm_compute. reflexivity. Qed.

Example parseInt_samples :
  (Restore.parseInt "0x1A", Restore.parseInt " 12abc", Restore.parseInt "q",
   Restore.parseInt "-3")
  = (Some 26, Some 12, None, Some (-3)).
Proof. vm_compute. reflexivity. Qed.

Example maskPasswords_sample :
  Index.maskPasswords 0 false "xtrabackup --backup --password=abc --host=x --password="
  = "xtrabackup --backup --password=*** --host=x --password=".
Proof. vm_compute. reflexivity. Qed.

(** The no-break space U+00A0 is a blank: the match of [[^\s]+] ends before
    it, and [parseInt] skips it. U+00C9 has a lower-case form. *)
Example no_break_space_samples :
  let nbsp := String (ascii_of_nat 160) "" in
  Index.maskPasswords 0 false ("--password=abc" ++ nbsp ++ "def")
  = "--password=***" ++ nbsp ++ "def"
  /\ Restore.parseInt (nbsp ++ "2") = Some 2
  /\ Js.toLowerCase (String (ascii_of_nat 201) "") = String (ascii_of_nat 233) "".
Proof. vm_compute. repeat split. Qed.

End JsFacts.

(** ** The naming scheme: encoding and decoding *)

Module NamingFacts.

Import Js JsFacts Naming.

Lemma parseDate_isoDate tz y m d :
  0 <= y <= 9999 -> 1 <= m <= 12 -> 1 <= d <= 31 ->
  parseDate tz (isoDate y m d)
  = Some ((days_from_civil y m 1 + d - 1) * msPerDay).
Proof.
  intros Hy Hm Hd. unfold parseDate.
  change (substr 0 4 (isoDate y m d)) with (pad4 y).
  change (substr 5 2 (isoDate y m d)) with (pad2 m).
  change (substr 8 2 (isoDate y m d)) with (pad2 d).
  rewrite parseDigits_pad4 by lia. rewrite !parseDigits_pad2 by lia.
  change (isChar "-" (charAt 4 (isoDate y m d))) with true.
  change (isChar "-" (charAt 7 (isoDate y m d))) with true.
  change (String.length (isoDate y m d)) with 10%nat.
  replace (1 <=? m) with true by (symmetry; apply Z.leb_le; lia).
  replace (m <=? 12) with true by (symmetry; apply Z.leb_le; lia).
  replace (1 <=? d) with true by (symmetry; apply Z.leb_le; lia).
  replace (d <=? 31) with true by (symmetry; apply Z.leb_le; lia).
  reflexivity.
Qed.

Lemma parseDate_isoDateTime tz y m d hh mi ss :
  0 <= y <= 9999 -> 1 <= m <= 12 -> 1 <= d <= 31 ->
  0 <= hh <= 23 -> 0 <= mi <= 59 -> 0 <= ss <= 59 ->
  parseDate tz (isoDateTime y m d hh mi ss)
  = Some ((days_from_civil y m 1 + d - 1) * msPerDay
          + hh * 3600000 + mi * 60000 + ss * 1000 - tz * 60000).
Proof.
  intros Hy Hm Hd Hh Hmi Hs. unfold parseDate.
  change (substr 0 4 (isoDateTime y m d hh mi ss)) with (pad4 y).
  change (substr 5 2 (isoDateTime y m d hh mi ss)) with (pad2 m).
  change (substr 8 2 (isoDateTime y m d hh mi ss)) with (pad2 d).
  change (substr 11 2 (isoDateTime y m d hh mi ss)) with (pad2 hh).
  change (substr 14 2 (isoDateTime y m d hh mi ss)) with (pad2 mi).
  change (substr 17 2 (isoDateTime y m d hh mi ss)) with (pad2 ss).
  rewrite parseDigits_pad4 by lia. rewrite !parseDigits_pad2 by lia.
  change (isChar "-" (charAt 4 (isoDateTime y m d hh mi ss))) with true.
  change (isChar "-" (charAt 7 (isoDateTime y m d hh mi ss))) with true.
  change (isChar "T" (charAt 10 (isoDateTime y m d hh mi ss))) with true.
  change (isChar ":" (charAt 13 (isoDateTime y m d hh mi ss))) with true.
  change (isChar ":" (charAt 16 (isoDateTime y m d hh mi ss))) with true.
  change (String.length (isoDateTime y m d hh mi ss)) with 19%nat.
  replace (1 <=? m) with true by (symmetry; apply Z.leb_le; lia).
  replace (m <=? 12) with true by (symmetry; apply Z.leb_le; lia).
  replace (1 <=? d) with true by (symmetry; apply Z.leb_le; lia).
  replace (d <=? 31) with true by (symmetry; apply Z.leb_le; lia).
  replace (hh <=? 23) with true by (symmetry; apply Z.leb_le; lia).
  replace (mi <=? 59) with true by (symmetry; apply Z.leb_le; lia).
  replace (ss <=? 59) with true by (symmetry; apply Z.leb_le; lia).
  reflexivity.
Qed.

Lemma removeChars_digit cls n s :
  cls (digit n) = false ->
  removeChars cls (String (digit n) s) = String (digit n) (removeChars cls s).
Proof. intros H. simpl. now rewrite H. Qed.

Lemma removeChars_drop cls c s :
  cls c = true -> removeChars cls (String c s) = removeChars cls s.
Proof. intros H. simpl. now rewrite H. Qed.

Lemma dash_digit n : Ascii.eqb (digit n) "-" = false.
Proof. now apply digit_eqb_sep. Qed.

Lemma sep_digit n :
  Ascii.eqb (digit n) "-" || Ascii.eqb (digit n) ":" || Ascii.eqb (digit n) "T"
  = false.
Proof. now rewrite !digit_eqb_sep. Qed.

Lemma civil_fields t :
  civil_from_days (t / msPerDay) = (yearOf t, monthOf t, dayOf t).
Proof.
  unfold yearOf, monthOf, dayOf.
  now destruct (civil_from_days (t / msPerDay)) as [[? ?] ?].
Qed.

Lemma civil_fields_range t :
  1 <= monthOf t <= 12 /\ 1 <= dayOf t <= 31
  /\ days_from_civil (yearOf t) (monthOf t) (dayOf t) = t / msPerDay.
Proof.
  pose proof (civil_from_days_range (t / msPerDay)) as Hr.
  pose proof (days_from_civil_of_days (t / msPerDay)) as Hd.
  rewrite civil_fields in Hr, Hd. tauto.
Qed.

Lemma time_fields_range t :
  0 <= hourOf t <= 23 /\ 0 <= minuteOf t <= 59 /\ 0 <= secondOf t <= 59
  /\ t / msPerDay * msPerDay + hourOf t * 3600000 + minuteOf t * 60000
     + secondOf t * 1000
     = t - t mod 1000.
Proof.
  unfold hourOf, minuteOf, secondOf, msPerDay. Z.div_mod_to_equations. lia.
Qed.

Section Shape.

Variable t : Z.
Hypothesis Hyear : fourDigitYear t.

(** [toISOString] on a four-digit year. *)
Lemma toISOString_shape :
  toISOString t
  = isoDateTime (yearOf t) (monthOf t) (dayOf t)
                (hourOf t) (minuteOf t) (secondOf t)
    ++ "." ++ pad3 (t mod msPerDay mod 1000) ++ "Z".
Proof.
  unfold toISOString. rewrite civil_fields. red in Hyear. unfold isoYear.
  replace ((0 <=? yearOf t) && (yearOf t <=? 9999)) with true
    by (symmetry; apply andb_true_iff; split; apply Z.leb_le; lia).
  reflexivity.
Qed.

Lemma formatDate_shape :
  Index.formatDate t = pad4 (yearOf t) ++ pad2 (monthOf t) ++ pad2 (dayOf t).
Proof.
  unfold Index.formatDate. rewrite toISOString_shape.
  change (sliceTo 10 _) with (isoDate (yearOf t) (monthOf t) (dayOf t)).
  unfold isoDate, pad4, pad3, pad2.
  cbn [append].
  repeat first [ rewrite removeChars_digit by apply dash_digit
               | rewrite removeChars_drop by reflexivity ].
  reflexivity.
Qed.

Lemma formatDateTime_shape :
  Index.formatDateTime t
  = pad4 (yearOf t) ++ pad2 (monthOf t) ++ pad2 (dayOf t)
    ++ pad2 (hourOf t) ++ pad2 (minuteOf t) ++ pad2 (secondOf t).
Proof.
  unfold Index.formatDateTime. rewrite toISOString_shape.
  change (sliceTo 19 _)
    with (isoDateTime (yearOf t) (monthOf t) (dayOf t)
                      (hourOf t) (minuteOf t) (secondOf t)).
  unfold isoDateTime, isoDate, pad4, pad3, pad2.
  cbn [append].
  repeat first [ rewrite removeChars_digit by apply sep_digit
               | rewrite removeChars_drop by reflexivity ].
  cbn [removeChars].
  unfold Index.stripMillis.
  cbn [String.length sliceFrom Nat.sub].
  rewrite (digit_eqb_sep _ "."%char eq_refl). reflexivity.
Qed.

Lemma formatDate_length : String.length (Index.formatDate t) = 8%nat.
Proof. now rewrite formatDate_shape. Qed.

Lemma formatDateTime_split :
  exists time, Index.formatDateTime t = Index.formatDate t ++ time.
Proof.
  rewrite formatDate_shape, formatDateTime_shape.
  eexists. unfold pad4, pad3, pad2. cbn [append]. reflexivity.
Qed.

End Shape.

(** The day string determines the day. *)
Lemma formatDate_inj x y :
  fourDigitYear x -> fourDigitYear y ->
  Index.formatDate x = Index.formatDate y -> x / msPerDay = y / msPerDay.
Proof.
  intros Hx Hy H. rewrite !formatDate_shape in H by assumption.
  destruct (civil_fields_range x) as (Mx & Dx & Ex).
  destruct (civil_fields_range y) as (My & Dy & Ey).
  red in Hx, Hy.
  assert (H1 : parseDigits (pad4 (yearOf x)) = parseDigits (pad4 (yearOf y)))
    by (apply (f_equal (fun s => parseDigits (substr 0 4 s))) in H; exact H).
  assert (H2 : parseDigits (pad2 (monthOf x)) = parseDigits (pad2 (monthOf y)))
    by (apply (f_equal (fun s => parseDigits (substr 4 2 s))) in H; exact H).
  assert (H3 : parseDigits (pad2 (dayOf x)) = parseDigits (pad2 (dayOf y)))
    by (apply (f_equal (fun s => parseDigits (substr 6 2 s))) in H; exact H).
  rewrite !parseDigits_pad4 in H1 by lia.
  rewrite !parseDigits_pad2 in H2, H3 by lia.
  congruence.
Qed.

(** What the restore tool decodes from the key of an Incremental taken at
    [t]: the instant cut to the second, moved by the offset of the host's
    local time. *)
Theorem decodeDate_incKey tz t :
  fourDigitYear t ->
  Restore.decodeDate tz (incKey t) true = Some (t - t mod 1000 - tz * 60000).
Proof.
  intros Hy. unfold incKey, Restore.decodeDate.
  rewrite (formatDateTime_shape t Hy).
  rewrite replace_prefix.
  unfold pad4, pad3, pad2. cbn [append].
  rewrite !replace_after_digit by reflexivity.
  change (replace ".tar.gz" "" ".tar.gz") with "".
  match goal with
  | |- parseDate tz ?s = _ =>
      change s with (isoDateTime (yearOf t) (monthOf t) (dayOf t)
                                 (hourOf t) (minuteOf t) (secondOf t))
  end.
  destruct (civil_fields_range t) as (Hm & Hd & Hday).
  destruct (time_fields_range t) as (Hh & Hmi & Hs & Hsum).
  rewrite parseDate_isoDateTime by assumption.
  f_equal. rewrite days_from_civil_day, Hday. lia.
Qed.

(** What the restore tool decodes from the key of a Full taken at [t]:
    midnight UTC of the day, whatever the host's time zone. *)
Theorem decodeDate_fullKey tz t :
  fourDigitYear t ->
  Restore.decodeDate tz (fullKey t) false = Some (t / msPerDay * msPerDay).
Proof.
  intros Hy. unfold fullKey, Restore.decodeDate.
  rewrite (formatDate_shape t Hy).
  rewrite replace_prefix.
  unfold pad4, pad3, pad2. cbn [append].
  rewrite !replace_after_digit by reflexivity.
  change (replace ".tar.gz" "" ".tar.gz") with "".
  match goal with
  | |- parseDate tz ?s = _ =>
      change s with (isoDate (yearOf t) (monthOf t) (dayOf t))
  end.
  destruct (civil_fields_range t) as (Hm & Hd & Hday).
  rewrite parseDate_isoDate by assumption.
  f_equal. rewrite days_from_civil_day, Hday. reflexivity.
Qed.

End NamingFacts.

(** ** The chain resolver *)

Module ChainFacts.

Import Js JsFacts Naming NamingFacts Restore Chain.

(** *** The sort *)

Lemma insertBy_perm {A} (cmp : A -> A -> option Z) x l :
  Permutation (insertBy cmp x l) (x :: l).
Proof.
  induction l as [|y l IH]; simpl; [reflexivity|].
  destruct (notAfter cmp x y); [reflexivity|].
  rewrite IH. apply perm_swap.
Qed.

Lemma sortBy_perm {A} (cmp : A -> A -> option Z) l :
  Permutation (sortBy cmp l) l.
Proof.
  induction l as [|x l IH]; simpl; [reflexivity|].
  unfold sortBy in *. simpl. rewrite insertBy_perm. now constructor.
Qed.

Lemma notLater_trans a b c : notLater a b -> notLater b c -> notLater a c.
Proof.
  unfold notLater, dateLe. destruct (date a), (date b), (date c); try discriminate.
  rewrite !Z.leb_le. lia.
Qed.

Lemma notAfter_asc a b :
  dated a -> dated b ->
  notAfter (fun a b => dateSub (date a) (date b)) a b = true <-> notLater a b.
Proof.
  intros [x Hx] [y Hy]. unfold notAfter, notLater, dateSub, dateLe.
  rewrite Hx, Hy. rewrite !Z.leb_le. lia.
Qed.

Lemma notLater_total a b : dated a -> dated b -> notLater a b \/ notLater b a.
Proof.
  intros [x Hx] [y Hy]. unfold notLater, dateLe. rewrite Hx, Hy, !Z.leb_le. lia.
Qed.

Lemma insertBy_sorted x l :
  dated x -> Forall dated l ->
  StronglySorted notLater l ->
  StronglySorted notLater (insertBy (fun a b => dateSub (date a) (date b)) x l).
Proof.
  intros Hx Hl Hs. induction Hs as [|y l Hs IH Hy]; simpl.
  - constructor; constructor.
  - inversion Hl as [|? ? Hdy Hdl]; subst.
    destruct (notAfter _ x y) eqn:E.
    + apply notAfter_asc in E; try assumption.
      constructor; [constructor; assumption|].
      constructor; [assumption|].
      eapply Forall_impl; [|exact Hy]. intros z Hz. eapply notLater_trans; eassumption.
    + constructor; [apply IH; assumption|].
      assert (Hyx : notLater y x).
      { destruct (notLater_total x y Hx Hdy) as [H|H]; [|exact H].
        apply notAfter_asc in H; try assumption. congruence. }
      eapply Permutation_Forall; [symmetry; apply insertBy_perm|].
      constructor; assumption.
Qed.

Lemma byDateAsc_sorted l :
  Forall dated l -> StronglySorted notLater (byDateAsc l).
Proof.
  unfold byDateAsc, sortBy. induction 1 as [|x l Hx Hl IH]; simpl.
  - constructor.
  - apply insertBy_sorted; try assumption.
    eapply Permutation_Forall; [symmetry; apply (sortBy_perm _ l)|assumption].
Qed.

Lemma byDateAsc_perm l : Permutation (byDateAsc l) l.
Proof. apply sortBy_perm. Qed.

Lemma last_In {A} (l : list A) d : l <> [] -> In (last l d) l.
Proof.
  intros H. destruct (exists_last H) as (l0 & a & ->).
  rewrite last_last. apply in_or_app. right. now left.
Qed.

(** In a sorted list every element is not later than the last one. *)
Lemma sorted_last l x dflt :
  StronglySorted notLater l -> In x l ->
  x = last l dflt \/ notLater x (last l dflt).
Proof.
  induction 1 as [|y l Hs IH Hy]; intros Hin; [destruct Hin|].
  destruct l as [|z l'].
  - destruct Hin as [->|[]]. now left.
  - change (last (y :: z :: l') dflt) with (last (z :: l') dflt).
    destruct Hin as [->|Hin].
    + right. rewrite Forall_forall in Hy. apply Hy.
      apply last_In. discriminate.
    + now apply IH.
Qed.

(** ** Canonical records *)

Lemma canonical_dated b : canonical b -> dated b.
Proof. intros (t & Ht & _). now exists t. Qed.

Lemma canonical_full_day b t dateStr :
  canonical b -> date b = Some t -> isIncremental b = false ->
  isFullOf dateStr b = true <-> Index.formatDate t = dateStr.
Proof.
  intros (t' & Ht' & Hy & Hf) Ht Hinc. rewrite Hinc in Hf. destruct Hf as [Hf _].
  assert (t' = t) by congruence. subst t'.
  unfold isFullOf. rewrite Hinc, Hf. cbn [negb andb]. unfold fullKey.
  rewrite String.eqb_eq. split.
  - intros H. apply app_inv_head_s in H. now apply app_inv_tail_s in H.
  - now intros ->.
Qed.

Lemma canonical_inc_day b t dateStr :
  canonical b -> date b = Some t -> isIncremental b = true ->
  String.length dateStr = 8%nat ->
  startsWith (filename b) ("inc_backup_" ++ dateStr) = true
  <-> Index.formatDate t = dateStr.
Proof.
  intros (t' & Ht' & Hy & Hf) Ht Hinc Hlen. rewrite Hinc in Hf.
  assert (t' = t) by congruence. subst t'.
  unfold startsWith. rewrite Hf. unfold incKey.
  destruct (formatDateTime_split t Hy) as [time ->].
  rewrite prefix_app_same, app_assoc_s.
  rewrite prefix_same_length by (now rewrite formatDate_length).
  split; congruence.
Qed.

(** *** The resolved chain *)

Lemma find_exists {A} (p : A -> bool) l x :
  In x l -> p x = true -> exists y, find p l = Some y.
Proof.
  intros Hin Hp. destruct (find p l) eqn:E; [eauto|].
  now rewrite (find_none _ _ E x Hin) in Hp.
Qed.

Lemma sameDay_formatDate a b ta tb :
  date a = Some ta -> date b = Some tb ->
  sameDay a b = true <-> Index.formatDate ta = Index.formatDate tb.
Proof. intros Ha Hb. unfold sameDay. rewrite Ha, Hb. apply String.eqb_eq. Qed.

Lemma isLinkOf_inWindow fullBackup target b tt :
  canonical b -> date target = Some tt -> fourDigitYear tt ->
  isLinkOf (Index.formatDate tt) fullBackup target b = inWindow fullBackup target b.
Proof.
  intros Hb Ht Hy. unfold isLinkOf, inWindow.
  destruct (isIncremental b) eqn:Hinc; [|reflexivity]. cbn [andb].
  destruct (canonical_dated b Hb) as [tb Htb].
  assert (E : startsWith (filename b) ("inc_backup_" ++ Index.formatDate tt)
              = sameDay b target).
  { apply eq_true_iff_eq.
    rewrite (canonical_inc_day b tb _ Hb Htb Hinc (formatDate_length tt Hy)).
    now rewrite (sameDay_formatDate b target tb tt Htb Ht). }
  rewrite E.
  destruct (sameDay b target), (dateGe (date b) (date fullBackup)),
           (dateLe (date b) (date target)); reflexivity.
Qed.

(** C2 (amended). In a catalog whose records carry the timestamps their file
    names encode, the chain resolved for an Incremental target with a same-day
    Full starts with a same-day Full of the catalog, continues with exactly
    the Incrementals of that day between the Full and the target, in
    ascending order of timestamp, and holds the target; its last element
    carries the target's timestamp, and is the target itself when no other
    Incremental of the catalog has that timestamp. *)
Theorem chain_of_incremental backups target :
  Forall canonical backups ->
  In target backups ->
  isIncremental target = true ->
  (exists f, In f backups /\ isIncremental f = false /\ sameDay f target = true) ->
  exists fullBackup incrementals,
    findRelatedBackups backups target = inr (fullBackup :: incrementals)
    /\ (In fullBackup backups /\ isIncremental fullBackup = false
        /\ sameDay fullBackup target = true)
    /\ Permutation incrementals (filter (inWindow fullBackup target) backups)
    /\ StronglySorted notLater incrementals
    /\ In target incrementals
    /\ date (last incrementals target) = date target
    /\ ((forall b, In b backups -> isIncremental b = true ->
                   date b = date target -> b = target) ->
        last incrementals target = target).
Proof.
  intros Hcan Hin Hinc (f & Hf & Hfinc & Hfday).
  rewrite Forall_forall in Hcan.
  destruct (Hcan target Hin) as (tt & Ht & Hy & Hname). rewrite Hinc in Hname.
  assert (Hct : canonical target) by (apply Hcan; exact Hin).
  (* the base *)
  destruct (canonical_dated f (Hcan f Hf)) as [tf Htf].
  assert (Hff : isFullOf (Index.formatDate tt) f = true).
  { apply (canonical_full_day f tf); auto.
    now apply (sameDay_formatDate f target tf tt). }
  destruct (find_exists _ backups f Hf Hff) as [fb Hfind].
  destruct (find_some _ _ Hfind) as [Hfb Hfbfull].
  assert (Hfbinc : isIncremental fb = false).
  { unfold isFullOf in Hfbfull. now destruct (isIncremental fb). }
  destruct (Hcan fb Hfb) as (tb & Htb & Hyb & Hnameb). rewrite Hfbinc in Hnameb.
  destruct Hnameb as [Hnameb Hmid].
  assert (Hday : Index.formatDate tb = Index.formatDate tt)
    by (apply (canonical_full_day fb tb); auto).
  assert (Hfbday : sameDay fb target = true)
    by (now apply (sameDay_formatDate fb target tb tt)).
  (* the incrementals *)
  assert (Hfilter : filter (isLinkOf (Index.formatDate tt) fb target) backups
                    = filter (inWindow fb target) backups).
  { apply filter_ext_in. intros b Hb. apply isLinkOf_inWindow; auto. }
  set (incs := byDateAsc (filter (inWindow fb target) backups)).
  assert (Hperm : Permutation incs (filter (inWindow fb target) backups))
    by apply byDateAsc_perm.
  assert (Hsorted : StronglySorted notLater incs).
  { apply byDateAsc_sorted. rewrite Forall_forall. intros b Hb.
    apply filter_In in Hb as [Hb _]. now apply canonical_dated, Hcan. }
  assert (Hle : tb <= tt).
  { pose proof (formatDate_inj tb tt Hyb Hy Hday) as Hq.
    unfold msPerDay in *. Z.div_mod_to_equations. lia. }
  assert (Htin : In target incs).
  { apply (Permutation_in _ (Permutation_sym Hperm)). apply filter_In. split; [exact Hin|].
    unfold inWindow. rewrite Hinc. cbn [andb].
    rewrite (proj2 (sameDay_formatDate target target tt tt Ht Ht) eq_refl).
    unfold dateGe, dateLe. rewrite Ht, Htb. cbn [andb].
    apply andb_true_iff. split; apply Z.leb_le; lia. }
  assert (Hlast_in : In (last incs target) incs).
  { apply last_In. intros E. rewrite E in Htin. destruct Htin. }
  assert (Hlast_w : inWindow fb target (last incs target) = true).
  { apply (Permutation_in _ Hperm) in Hlast_in. now apply filter_In in Hlast_in. }
  assert (Hlast_date : date (last incs target) = date target).
  { destruct (sorted_last incs target target Hsorted Htin) as [E|Hnl].
    - now rewrite <- E.
    - unfold inWindow in Hlast_w. rewrite !andb_true_iff in Hlast_w.
      destruct Hlast_w as [_ Hl]. unfold notLater in Hnl. unfold dateLe in *.
      rewrite Ht in *. destruct (date (last incs target)) as [tl|]; [|discriminate].
      apply Z.leb_le in Hl, Hnl. f_equal. lia. }
  exists fb, incs. split.
  { unfold findRelatedBackups. rewrite Hinc, Ht.
    change (removeChars _ (sliceTo 10 (toISOString tt))) with (Index.formatDate tt).
    rewrite Hfind, Hfilter. reflexivity. }
  repeat split; auto.
  intros Huniq. apply Huniq; auto.
  - apply (Permutation_in _ Hperm) in Hlast_in. now apply filter_In in Hlast_in.
  - unfold inWindow in Hlast_w. rewrite !andb_true_iff in Hlast_w. tauto.
Qed.

End ChainFacts.

(** ** Runs: how results compose *)

Module EffFacts.

Import Eff Trace.

Lemma bind_ok {A B} (m : M A) (f : A -> M B) w b w' t :
  bind m f w = (Ok b, w', t) ->
  exists a w1 t1 t2,
    m w = (Ok a, w1, t1) /\ f a w1 = (Ok b, w', t2) /\ t = (t1 ++ t2)%list.
Proof.
  unfold bind. destruct (m w) as [[[a|e|c] w1] t1]; try discriminate.
  destruct (f a w1) as [[r w2] t2] eqn:E. intros [= -> -> <-].
  now exists a, w1, t1, t2.
Qed.

Lemma try_ok {A} (m : M A) h w a w' t :
  try m h w = (Ok a, w', t) ->
  m w = (Ok a, w', t)
  \/ exists e w1 t1 t2, m w = (Throw e, w1, t1) /\ h e w1 = (Ok a, w', t2)
                        /\ t = (t1 ++ t2)%list.
Proof.
  unfold try. destruct (m w) as [[[x|e|c] w1] t1]; try discriminate.
  - now left.
  - destruct (h e w1) as [[r w2] t2] eqn:E. intros [= -> -> <-]. right.
    now exists e, w1, t1, t2.
Qed.

Lemma io_ok {A} env ev (act : World -> Res A * World) w a w' t :
  io env ev act w = (Ok a, w', t) -> t = [ev].
Proof.
  unfold io. destruct (fault env ev); [discriminate|].
  destruct (act w). now intros [= _ _ <-].
Qed.

Lemma ret_ok {A} (a b : A) w w' t : ret a w = (Ok b, w', t) -> t = [] /\ a = b /\ w = w'.
Proof. unfold ret. now intros [= -> -> <-]. Qed.

Lemma bind_Ok {A B} (m : M A) (f : A -> M B) w a w1 t1 :
  m w = (Ok a, w1, t1) -> bind m f w = after t1 (f a w1).
Proof. unfold bind, after. intros ->. now destruct (f a w1) as [[? ?] ?]. Qed.

Lemma bind_Throw {A B} (m : M A) (f : A -> M B) w e w1 t1 :
  m w = (Throw e, w1, t1) -> bind m f w = (Throw e, w1, t1).
Proof. unfold bind. now intros ->. Qed.

Lemma bind_Halt {A B} (m : M A) (f : A -> M B) w c w1 t1 :
  m w = (Halt c, w1, t1) -> bind m f w = (Halt c, w1, t1).
Proof. unfold bind. now intros ->. Qed.

Lemma try_Ok {A} (m : M A) h w a w1 t1 :
  m w = (Ok a, w1, t1) -> try m h w = (Ok a, w1, t1).
Proof. unfold try. now intros ->. Qed.

Lemma try_Halt {A} (m : M A) h w c w1 t1 :
  m w = (Halt c, w1, t1) -> try m h w = (Halt c, w1, t1).
Proof. unfold try. now intros ->. Qed.

Lemma try_Throw {A} (m : M A) h w e w1 t1 :
  m w = (Throw e, w1, t1) -> try m h w = after t1 (h e w1).
Proof. unfold try, after. intros ->. now destruct (h e w1) as [[? ?] ?]. Qed.

Lemma after_pair {A} t1 (r : Res A) w t :
  after t1 (r, w, t) = (r, w, (t1 ++ t)%list).
Proof. reflexivity. Qed.

(** What a program emits starts with what its first part emits. *)
Lemma events_bind {A B} (m : M A) (f : A -> M B) w :
  exists rest, events (bind m f w) = (events (m w) ++ rest)%list.
Proof.
  unfold bind. destruct (m w) as [[[a|e|c] w1] t1]; cbn.
  - destruct (f a w1) as [[r w2] t2]. now exists t2.
  - exists []. now rewrite app_nil_r.
  - exists []. now rewrite app_nil_r.
Qed.

Lemma events_try {A} (m : M A) h w :
  exists rest, events (try m h w) = (events (m w) ++ rest)%list.
Proof.
  unfold try. destruct (m w) as [[[a|e|c] w1] t1]; cbn.
  - exists []. now rewrite app_nil_r.
  - destruct (h e w1) as [[r w2] t2]. now exists t2.
  - exists []. now rewrite app_nil_r.
Qed.

Section Emits.

Variable P : Event -> Prop.

Lemma emits_ret {A} (a : A) : emits P (ret a).
Proof. intros w. constructor. Qed.

Lemma emits_throw {A} e : emits P (@throw A e).
Proof. intros w. constructor. Qed.

Lemma emits_exit {A} c : emits P (@exit A c).
Proof. intros w. constructor. Qed.

Lemma emits_bind {A B} (m : M A) (f : A -> M B) :
  emits P m -> (forall a, emits P (f a)) -> emits P (bind m f).
Proof.
  intros Hm Hf w. specialize (Hm w). unfold bind.
  destruct (m w) as [[[a|e|c] w1] t1]; cbn in *; try assumption.
  specialize (Hf a w1). destruct (f a w1) as [[r w2] t2]. cbn in *.
  apply Forall_app. now split.
Qed.

Lemma emits_try {A} (m : M A) h :
  emits P m -> (forall e, emits P (h e)) -> emits P (try m h).
Proof.
  intros Hm Hh w. specialize (Hm w). unfold try.
  destruct (m w) as [[[a|e|c] w1] t1]; cbn in *; try assumption.
  specialize (Hh e w1). destruct (h e w1) as [[r w2] t2]. cbn in *.
  apply Forall_app. now split.
Qed.

Lemma emits_forEach {A} (body : A -> M unit) l :
  (forall x, emits P (body x)) -> emits P (forEach body l).
Proof.
  intros H. induction l as [|x l IH]; simpl.
  - apply emits_ret.
  - apply emits_bind; [apply H | intros _; exact IH].
Qed.

Lemma emits_io {A} env ev (act : World -> Res A * World) :
  P ev -> emits P (io env ev act).
Proof.
  intros H w. unfold io. destruct (fault env ev); [|destruct (act w)];
    cbn; repeat constructor; exact H.
Qed.

Lemma emits_access p : P (EvAccess p) -> emits P (access p).
Proof.
  intros H w. unfold access. destruct (exists_ p (files w));
    cbn; repeat constructor; exact H.
Qed.

Lemma emits_spawn env command args :
  P (EvSpawn command args) -> (forall e, P (EvUncaught e args)) ->
  emits P (spawn env command args).
Proof.
  intros H Hu w. unfold spawn. destruct (ending env command args);
    cbn; repeat constructor; first [exact H | apply Hu].
Qed.

Lemma emits_stdout line : P (EvStdout line) -> emits P (stdout line).
Proof. intros H w. cbn. repeat constructor; exact H. Qed.

Lemma emits_stderr line : P (EvStderr line) -> emits P (stderr line).
Proof. intros H w. cbn. repeat constructor; exact H. Qed.

End Emits.

Lemma total_ret {A} (a : A) : total (ret a).
Proof. intros w. now exists a. Qed.

Lemma total_bind {A B} (m : M A) (f : A -> M B) :
  total m -> (forall a, total (f a)) -> total (bind m f).
Proof.
  intros Hm Hf w. destruct (Hm w) as [a Ha]. unfold bind.
  destruct (m w) as [[r w1] t1]. cbn in Ha. subst r.
  destruct (Hf a w1) as [b Hb]. destruct (f a w1) as [[r w2] t2]. cbn in *.
  now exists b.
Qed.

Lemma total_try {A} (m : M A) h :
  noHalt m -> (forall e, total (h e)) -> total (try m h).
Proof.
  intros Hm Hh w. unfold try. specialize (Hm w).
  destruct (m w) as [[[a|e|c] w1] t1]; cbn in *.
  - now exists a.
  - destruct (Hh e w1) as [b Hb]. destruct (h e w1) as [[r w2] t2]. cbn in *.
    now exists b.
  - now destruct (Hm c).
Qed.

Lemma noHalt_total {A} (m : M A) : total m -> noHalt m.
Proof. intros H w c E. destruct (H w) as [a Ha]. congruence. Qed.

Lemma noHalt_ret {A} (a : A) : noHalt (ret a).
Proof. intros w c. discriminate. Qed.

Lemma noHalt_throw {A} e : noHalt (@throw A e).
Proof. intros w c. discriminate. Qed.

Lemma noHalt_bind {A B} (m : M A) (f : A -> M B) :
  noHalt m -> (forall a, noHalt (f a)) -> noHalt (bind m f).
Proof.
  intros Hm Hf w c. specialize (Hm w). unfold bind.
  destruct (m w) as [[[a|e|c'] w1] t1]; cbn in *; try discriminate.
  - specialize (Hf a w1 c). now destruct (f a w1) as [[r w2] t2].
  - intros E. now apply (Hm c').
Qed.

Lemma noHalt_try {A} (m : M A) h :
  noHalt m -> (forall e, noHalt (h e)) -> noHalt (try m h).
Proof.
  intros Hm Hh w c. specialize (Hm w). unfold try.
  destruct (m w) as [[[a|e|c'] w1] t1]; cbn in *; try discriminate.
  - specialize (Hh e w1 c). now destruct (h e w1) as [[r w2] t2].
  - intros E. now apply (Hm c').
Qed.

Lemma noHalt_forEach {A} (body : A -> M unit) l :
  (forall x, noHalt (body x)) -> noHalt (forEach body l).
Proof.
  intros H. induction l as [|x l IH]; simpl.
  - apply noHalt_ret.
  - apply noHalt_bind; [apply H | intros _; exact IH].
Qed.

Lemma noHalt_io {A} env ev (act : World -> Res A * World) :
  (forall w c, fst (act w) <> Halt c) -> noHalt (io env ev act).
Proof.
  intros H w c. unfold io. destruct (fault env ev); [discriminate|].
  specialize (H w c). now destruct (act w).
Qed.

Section Primitives.

Variable env : Env.

Lemma noHalt_access p : noHalt (access p).
Proof. intros w c. unfold access. destruct (exists_ p (files w)); discriminate. Qed.

Lemma noHalt_readdir d : noHalt (readdir env d).
Proof.
  apply noHalt_io. intros w c. cbv beta.
  destruct (exists_ d (files w)); discriminate.
Qed.

Lemma noHalt_mkdir p : noHalt (mkdir env p).
Proof. apply noHalt_io. intros w c. discriminate. Qed.

Lemma noHalt_rm p : noHalt (rm env p).
Proof. apply noHalt_io. intros w c. discriminate. Qed.

Lemma noHalt_unlink p : noHalt (unlink env p).
Proof.
  apply noHalt_io. intros w c. cbv beta.
  destruct (exists_ p (files w)); discriminate.
Qed.

Lemma noHalt_readFile p : noHalt (readFile env p).
Proof.
  apply noHalt_io. intros w c. cbv beta.
  destruct (exists_ p (files w)); discriminate.
Qed.

Lemma noHalt_writeFile p : noHalt (writeFile env p).
Proof. apply noHalt_io. intros w c. discriminate. Qed.

Lemma noHalt_listObjects prefix : noHalt (listObjects env prefix).
Proof.
  apply noHalt_io. intros w c. cbv beta.
  match goal with |- context [match ?l with [] => _ | _ :: _ => _ end] =>
    destruct l end; discriminate.
Qed.

Lemma noHalt_putObject key filePath : noHalt (putObject env key filePath).
Proof. apply noHalt_io. intros w c. discriminate. Qed.

Lemma noHalt_getObject key : noHalt (getObject env key).
Proof.
  apply noHalt_io. intros w c. cbv beta.
  match goal with |- context [if ?b then _ else _] => destruct b end; discriminate.
Qed.

Lemma noHalt_deleteObject key : noHalt (deleteObject env key).
Proof. apply noHalt_io. intros w c. discriminate. Qed.

Lemma noHalt_httpGet url : noHalt (httpGet env url).
Proof. apply noHalt_io. intros w c. discriminate. Qed.

Lemma noHalt_stdout line : noHalt (stdout line).
Proof. intros w c. discriminate. Qed.

Lemma noHalt_stderr line : noHalt (stderr line).
Proof. intros w c. discriminate. Qed.

(** ** Programs that end the process only with a tool that cannot start *)

Lemma crashes_noHalt {A} (m : M A) : noHalt m -> crashes env m.
Proof. intros H w c E. now destruct (H w c). Qed.

Lemma crashes_spawn command args : crashes env (spawn env command args).
Proof.
  intros w c. unfold spawn.
  destruct (ending env command args) as [code| |e|e] eqn:E; try discriminate.
  intros [= <-]. split; [reflexivity|].
  exists [], command, args, e. now split.
Qed.

Lemma crashes_bind {A B} (m : M A) (f : A -> M B) :
  crashes env m -> (forall a, crashes env (f a)) -> crashes env (bind m f).
Proof.
  intros Hm Hf w c. specialize (Hm w). unfold bind.
  destruct (m w) as [[[a|e|c'] w1] t1]; cbn [outcome events fst snd] in *;
    try discriminate.
  - specialize (Hf a w1 c). destruct (f a w1) as [[r w2] t2].
    cbn [outcome events fst snd] in *. intros E.
    destruct (Hf E) as (-> & t0 & command & args & e & He & ->).
    split; [reflexivity|]. exists (t1 ++ t0)%list, command, args, e.
    split; [exact He|]. now rewrite app_assoc.
  - intros [= <-]. exact (Hm c' eq_refl).
Qed.

Lemma crashes_try {A} (m : M A) h :
  crashes env m -> (forall e, crashes env (h e)) -> crashes env (try m h).
Proof.
  intros Hm Hh w c. specialize (Hm w). unfold try.
  destruct (m w) as [[[a|e|c'] w1] t1]; cbn [outcome events fst snd] in *;
    try discriminate.
  - specialize (Hh e w1 c). destruct (h e w1) as [[r w2] t2].
    cbn [outcome events fst snd] in *. intros E.
    destruct (Hh E) as (-> & t0 & command & args & e' & He & ->).
    split; [reflexivity|]. exists (t1 ++ t0)%list, command, args, e'.
    split; [exact He|]. now rewrite app_assoc.
  - intros [= <-]. exact (Hm c' eq_refl).
Qed.

Lemma crashes_forEach {A} (body : A -> M unit) l :
  (forall x, crashes env (body x)) -> crashes env (forEach body l).
Proof.
  intros H. induction l as [|x l IH]; simpl.
  - apply crashes_noHalt, noHalt_ret.
  - apply crashes_bind; [apply H | intros _; exact IH].
Qed.

End Primitives.

Lemma total_stdout line : total (stdout line).
Proof. intros w. now exists tt. Qed.

Lemma total_stderr line : total (stderr line).
Proof. intros w. now exists tt. Qed.

End EffFacts.

(** ** The merge pipeline of the restore tool *)

Module PipelineFacts.

Import Eff Trace EffFacts JsFacts Pipeline.

Lemma pick_app {A B} (f : A -> option B) l1 l2 :
  pick f (l1 ++ l2) = (pick f l1 ++ pick f l2)%list.
Proof. unfold pick. now rewrite flat_map_app. Qed.

Lemma argValue_hit name v rest : argValue name ((name ++ v) :: rest) = Some v.
Proof. simpl. unfold Js.startsWith. now rewrite prefix_app, sliceFrom_app. Qed.

Section Run.

Variable env : Env.
Variable config : Restore.Config.

Lemma runCommand_ok command args w w' t :
  Restore.runCommand env command args w = (Ok tt, w', t) -> t = [EvSpawn command args].
Proof.
  unfold Restore.runCommand, bind, spawn.
  destruct (ending env command args) as [code| |e|e]; cbn [isZero];
    try discriminate.
  destruct (code =? 0); [|discriminate].
  unfold ret. now intros [= _ <-].
Qed.

Lemma downloadFromS3_ok key path w w' t :
  Restore.downloadFromS3 env key path w = (Ok tt, w', t) ->
  t = [EvGet key; EvWriteFile path].
Proof.
  intros H. apply try_ok in H as [H|(e & w1 & t1 & t2 & _ & H & _)].
  - apply bind_ok in H as (a & w1 & t1 & t2 & H1 & H2 & ->).
    apply io_ok in H1, H2. now subst.
  - apply bind_ok in H as (a & w2 & t3 & t4 & _ & H & _). discriminate.
Qed.

Lemma merge_logOnly_base :
  mergeOf (EvSpawn "xtrabackup" ["--prepare"; "--apply-log-only"; "--target-dir=" ++ (baseDir config)])
  = Some (mkMerge true (Some (baseDir config)) None).
Proof.
  unfold mergeOf. cbn [String.eqb Ascii.eqb Bool.eqb existsb andb orb].
  f_equal. f_equal.
  change (argValue "--target-dir=" ["--prepare"; "--apply-log-only"; "--target-dir=" ++ (baseDir config)])
    with (argValue "--target-dir=" (("--target-dir=" ++ (baseDir config)) :: [])).
  apply argValue_hit.
Qed.

Lemma merge_logOnly_inc dir :
  mergeOf (EvSpawn "xtrabackup"
             ["--prepare"; "--apply-log-only"; "--target-dir=" ++ (baseDir config);
              "--incremental-dir=" ++ dir])
  = Some (mkMerge true (Some (baseDir config)) (Some dir)).
Proof.
  unfold mergeOf. cbn [String.eqb Ascii.eqb Bool.eqb existsb andb orb].
  f_equal. f_equal.
  - change (argValue "--target-dir=" _)
      with (argValue "--target-dir=" (("--target-dir=" ++ (baseDir config))
                                       :: ["--incremental-dir=" ++ dir])).
    apply argValue_hit.
  - change (argValue "--incremental-dir=" _)
      with (argValue "--incremental-dir=" (("--incremental-dir=" ++ dir) :: [])).
    apply argValue_hit.
Qed.

Lemma merge_final :
  mergeOf (EvSpawn "xtrabackup" ["--prepare"; "--target-dir=" ++ (baseDir config)])
  = Some (mkMerge false (Some (baseDir config)) None).
Proof.
  unfold mergeOf. cbn [String.eqb Ascii.eqb Bool.eqb existsb andb orb].
  f_equal. f_equal.
  change (argValue "--target-dir=" _)
    with (argValue "--target-dir=" (("--target-dir=" ++ (baseDir config)) :: [])).
  apply argValue_hit.
Qed.

(** The merges and the extractions of the loop, when every step succeeds. *)
Lemma applyIncrementals_ok incs : forall i w w' t,
  Restore.applyIncrementals env config (baseDir config) i incs w = (Ok tt, w', t) ->
  merges t = map (fun j => mkMerge true (Some (baseDir config)) (Some (incDir config j)))
                 (seq i (List.length incs))
  /\ extractions t
     = map (fun p => (Js.pathJoin (Restore.restoreRoot config) (Restore.filename (snd p)), incDir config (fst p)))
           (combine (seq i (List.length incs)) incs).
Proof.
  induction incs as [|inc incs IH]; intros i w w' t H.
  - apply ret_ok in H as (-> & _). now split.
  - cbn [Restore.applyIncrementals] in H.
    apply bind_ok in H as (a1 & w1 & t1 & r1 & H1 & H & ->).
    apply bind_ok in H as (a2 & w2 & t2 & r2 & H2 & H & ->).
    apply bind_ok in H as (a3 & w3 & t3 & r3 & H3 & H & ->).
    apply bind_ok in H as (a4 & w4 & t4 & r4 & H4 & H & ->).
    apply bind_ok in H as (a5 & w5 & t5 & r5 & H5 & H & ->).
    apply bind_ok in H as (a6 & w6 & t6 & t7 & H6 & H & ->).
    destruct a1, a3, a5.
    apply downloadFromS3_ok in H1. apply io_ok in H2. apply runCommand_ok in H3.
    apply io_ok in H4. apply runCommand_ok in H5. apply io_ok in H6.
    apply IH in H as [Hm He]. subst t1 t2 t3 t4 t5 t6.
    unfold merges, extractions in *. rewrite !pick_app, Hm, He.
    split.
    + unfold pick at 1 2 3 4 5 6. cbn [flat_map app].
      change (Js.pathJoin (Restore.restoreRoot config) "base") with (baseDir config).
      change (Js.pathJoin (Restore.restoreRoot config) ("inc_" ++ showZ (Z.of_nat i))) with (incDir config i).
      rewrite merge_logOnly_inc. reflexivity.
    + reflexivity.
Qed.

Lemma result_eta {A} (r : Res A * World * list Event) :
  r = (outcome r, world r, events r).
Proof. now destruct r as [[? ?] ?]. Qed.

(** C1 (amended). A restore of the chain [full, inc_1..inc_k], k >= 1, that
    runs to its end performs one log-only merge on the (baseDir config) alone, then one
    log-only merge for each of inc_1..inc_k (the last one too), in order,
    each with the directory that incremental was unpacked into, and last one
    finalizing merge on the (baseDir config) with no incremental; nothing else is
    merged. *)
Theorem restore_merges fullBackup incs w :
  incs <> [] ->
  outcome (Restore.restoreBackups env config (fullBackup :: incs) w) = Ok tt ->
  merges (events (Restore.restoreBackups env config (fullBackup :: incs) w))
  = (mkMerge true (Some (baseDir config)) None
     :: map (fun j => mkMerge true (Some (baseDir config)) (Some (incDir config j)))
            (seq 1 (List.length incs))
     ++ [mkMerge false (Some (baseDir config)) None])%list
  /\ extractions (events (Restore.restoreBackups env config (fullBackup :: incs) w))
     = (Js.pathJoin (Restore.restoreRoot config) (Restore.filename fullBackup), (baseDir config))
       :: map (fun p => (Js.pathJoin (Restore.restoreRoot config) (Restore.filename (snd p)), incDir config (fst p)))
              (combine (seq 1 (List.length incs)) incs).
Proof.
  intros Hne Hok.
  pose proof (result_eta (Restore.restoreBackups env config (fullBackup :: incs) w)) as H.
  rewrite Hok in H.
  generalize dependent (events (Restore.restoreBackups env config (fullBackup :: incs) w)).
  generalize (world (Restore.restoreBackups env config (fullBackup :: incs) w)).
  intros w' t H. clear Hok.
  unfold Restore.restoreBackups in H.
  apply bind_ok in H as (a0 & w0 & t0 & r0 & H0 & H & ->).
  apply bind_ok in H as (a1 & w1 & t1 & r1 & H1 & H & ->).
  apply bind_ok in H as (a2 & w2 & t2 & r2 & H2 & H & ->).
  apply bind_ok in H as (a3 & w3 & t3 & r3 & H3 & H & ->).
  apply bind_ok in H as (a4 & w4 & t4 & r4 & H4 & H & ->).
  apply bind_ok in H as (a5 & w5 & t5 & t6 & H5 & H6 & ->).
  destruct a1, a2, a4, a5.
  apply io_ok in H0, H3. apply downloadFromS3_ok in H1.
  apply runCommand_ok in H2, H6.
  replace (1 <? Z.of_nat (List.length (fullBackup :: incs))) with true in H4
    by (symmetry; apply Z.ltb_lt; destruct incs; [contradiction|simpl; lia]).
  apply runCommand_ok in H4.
  apply applyIncrementals_ok in H5 as [Hm He].
  subst t0 t1 t2 t3 t4 t6.
  unfold merges, extractions in *. rewrite !pick_app, Hm, He.
  split.
  - unfold pick. cbn [flat_map app].
    change (Js.pathJoin (Restore.restoreRoot config) "base") with (baseDir config).
    rewrite merge_logOnly_base, merge_final. reflexivity.
  - change (pick extractOf [EvSpawn "xtrabackup" ["--prepare"; "--target-dir=" ++ Js.pathJoin (Restore.restoreRoot config) "base"]])
      with (@nil (string * string)).
    rewrite app_nil_r. reflexivity.
Qed.

End Run.
End PipelineFacts.

(** ** The resolver inside the restore tool *)

Module ToolFacts.

Import Eff Trace EffFacts Restore Pipeline.

Lemma find_all_false {A} (p : A -> bool) l :
  (forall x, In x l -> p x = false) -> find p l = None.
Proof.
  induction l as [|x l IH]; intros H; [reflexivity|]. simpl.
  rewrite (H x (or_introl eq_refl)). apply IH. intros y Hy. apply H. now right.
Qed.

Lemma findRelatedBackups_missing backups target d :
  isIncremental target = true -> date target = Some d ->
  (forall b, In b backups -> isFullOf (Index.formatDate d) b = false) ->
  findRelatedBackups backups target = inl (missingBase (Index.formatDate d)).
Proof.
  intros Hinc Hd Hno. unfold findRelatedBackups. rewrite Hinc, Hd.
  change (Js.removeChars _ (Js.sliceTo 10 (Js.toISOString d)))
    with (Index.formatDate d).
  now rewrite (find_all_false _ _ Hno).
Qed.

(** A selection that [parseInt] reads as a number is not the quit signal. *)
Lemma parseInt_not_quit s n :
  parseInt s = Some n -> String.eqb (Js.toLowerCase s) "q" = false.
Proof.
  intros H. destruct (String.eqb (Js.toLowerCase s) "q") eqn:E; [|reflexivity].
  apply String.eqb_eq in E.
  destruct s as [|c [|c' s']]; try discriminate.
  simpl in E. injection E as E.
  exfalso. revert H E.
  destruct c as [[] [] [] [] [] [] [] []]; vm_compute; discriminate.
Qed.

Section Tool.

Variable env : Env.
Variable config : Config.

Lemma listBackups_ok w :
  fault env (EvList (listingPrefix config)) = None ->
  listBackups env config w
  = (Ok (recent (tzOffset env) (page config w)), w, [EvList (listingPrefix config)]).
Proof.
  intros Hf. unfold listBackups, try, bind, listObjects, io.
  fold (listingPrefix config). rewrite Hf. fold (page config w).
  destruct (page config w) eqn:E; reflexivity.
Qed.

(** C3. When the selected Incremental has no Full of its day in the catalog,
    the resolver, a pure function, fails with the error that names the day,
    and the tool stops: after the listing it prompts, reports the failure and
    exits with code 1 (or, when a record of the catalog carries no valid
    date, reports that before it prompts); nothing is downloaded, unpacked or
    merged, and neither the local files nor the store change. *)
Theorem missing_base_stops_restore w selection rest n target d :
  fault env (EvList (listingPrefix config)) = None ->
  answers w = selection :: rest ->
  parseInt selection = Some n ->
  nth_error (recent (tzOffset env) (page config w)) (Z.to_nat (n - 1)) = Some target ->
  1 <= n ->
  isIncremental target = true ->
  date target = Some d ->
  (forall b, In b (recent (tzOffset env) (page config w)) ->
             isFullOf (Index.formatDate d) b = false) ->
  findRelatedBackups (recent (tzOffset env) (page config w)) target
  = inl (missingBase (Index.formatDate d))
  /\ outcome (main env config w) = Halt 1
  /\ events (main env config w)
     = EvList (listingPrefix config)
       :: (if undated (recent (tzOffset env) (page config w))
           then [EvStderr (consoleLine env ["Restore failed:"; "Invalid time value"])]
           else [EvPrompt (newline
                           ++ "Enter backup number to restore (or 'q' to quit): ");
                 EvStderr (consoleLine env
                             ["Restore failed:";
                              Index.sanitizeError
                                (missingBase (Index.formatDate d))])])
  /\ files (world (main env config w)) = files w
  /\ objects (world (main env config w)) = objects w.
Proof.
  intros Hf Hans Hsel Hnth Hn Hinc Hd Hno.
  pose proof (findRelatedBackups_missing _ _ _ Hinc Hd Hno) as Hres.
  split; [exact Hres|].
  assert (Hlen : (Z.to_nat (n - 1) < List.length (recent (tzOffset env) (page config w)))%nat)
    by (apply nth_error_Some; congruence).
  assert (Hne : (Z.of_nat (List.length (recent (tzOffset env) (page config w))) =? 0)
                = false)
    by (apply Z.eqb_neq; lia).
  destruct (undated (recent (tzOffset env) (page config w))) eqn:Hund.
  - (* the table cannot be printed *)
    assert (Hmain : main env config w
                    = (Halt 1, w,
                       [EvList (listingPrefix config);
                        EvStderr (consoleLine env
                                    ["Restore failed:"; "Invalid time value"])])).
    { unfold main.
      match goal with
      | |- try ?m ?h w = _ =>
          assert (Hbody : m w
                          = (Throw (mkError "RangeError" "Invalid time value"), w,
                             [EvList (listingPrefix config)]))
      end.
      { erewrite bind_Ok by (apply listBackups_ok; exact Hf).
        rewrite Hne, Hund. reflexivity. }
      rewrite (try_Throw _ _ _ _ _ _ Hbody). reflexivity. }
    rewrite Hmain. repeat split; reflexivity.
  - assert (Hmain : main env config w
                    = (Halt 1, mkWorld (files w) (objects w) rest,
                       [EvList (listingPrefix config);
                        EvPrompt (newline ++ "Enter backup number to restore (or 'q' to quit): ");
                        EvStderr (consoleLine env
                                    ["Restore failed:";
                                     Index.sanitizeError (missingBase (Index.formatDate d))])])).
    { unfold main.
      match goal with
      | |- try ?m ?h w = _ =>
          assert (Hbody : m w
                          = (Throw (missingBase (Index.formatDate d)),
                             mkWorld (files w) (objects w) rest,
                             [EvList (listingPrefix config);
                              EvPrompt (newline ++ "Enter backup number to restore (or 'q' to quit): ")]))
      end.
      { erewrite bind_Ok by (apply listBackups_ok; exact Hf).
        rewrite Hne, Hund.
        erewrite bind_Ok by (unfold question; rewrite Hans; reflexivity).
        rewrite (parseInt_not_quit _ _ Hsel), Hsel.
        replace ((n - 1 <? 0)
                 || (Z.of_nat (List.length (recent (tzOffset env) (page config w))) <=? n - 1))
          with false
          by (symmetry; apply orb_false_iff; split;
              [apply Z.ltb_ge | apply Z.leb_gt]; lia).
        rewrite Hnth, Hres.
        erewrite bind_Throw by reflexivity.
        reflexivity. }
      rewrite (try_Throw _ _ _ _ _ _ Hbody). reflexivity. }
    rewrite Hmain. repeat split; reflexivity.
Qed.

End Tool.

End ToolFacts.

(** ** index.js: what its functions emit and how they end *)

Module IndexFacts.

Import Eff Trace EffFacts Tick Index.

Ltac emits_step :=
  first
    [ apply emits_ret | apply emits_throw | apply emits_exit
    | apply emits_bind; [|intros ?]
    | apply emits_try; [|intros ?]
    | apply emits_forEach; intros ?
    | apply emits_io | apply emits_access
    | apply emits_spawn; [|intros ?]
    | apply emits_stdout | apply emits_stderr
    | match goal with
      | |- emits _ (if ?c then _ else _) => destruct c
      | |- emits _ (match ?x with _ => _ end) => destruct x
      end
    | reflexivity ].

Ltac noHalt_step :=
  first
    [ apply noHalt_ret | apply noHalt_throw
    | apply noHalt_access | apply noHalt_readdir
    | apply noHalt_mkdir | apply noHalt_rm | apply noHalt_unlink
    | apply noHalt_readFile | apply noHalt_writeFile | apply noHalt_listObjects
    | apply noHalt_putObject | apply noHalt_getObject | apply noHalt_deleteObject
    | apply noHalt_httpGet | apply noHalt_stdout | apply noHalt_stderr
    | apply noHalt_bind; [|intros ?]
    | apply noHalt_try; [|intros ?]
    | apply noHalt_forEach; intros ?
    | match goal with
      | |- noHalt (if ?c then _ else _) => destruct c
      | |- noHalt (match ?x with _ => _ end) => destruct x
      end ].

Ltac em :=
  repeat first [ progress unfold log, logError | emits_step ].

Section Facts.

Variable env : Env.
Variable config : Config.

Lemma noHalt_log text : noHalt (log env text).
Proof. intros w c. discriminate. Qed.

Lemma noHalt_logError args : noHalt (logError env args).
Proof. intros w c. discriminate. Qed.

Lemma total_log text : total (log env text).
Proof. apply total_stdout. Qed.

Lemma total_logError args : total (logError env args).
Proof. apply total_stderr. Qed.

Lemma crashes_runCommand command args : crashes env (runCommand env command args).
Proof.
  unfold runCommand. apply crashes_bind; [apply crashes_spawn|]. intros code.
  apply crashes_noHalt.
  destruct (isZero code); [apply noHalt_ret | apply noHalt_throw].
Qed.

Ltac nh :=
  repeat first [ apply noHalt_log | apply noHalt_logError | noHalt_step ].

Lemma noHalt_uploadToB2 filePath key : noHalt (uploadToB2 env config filePath key).
Proof. unfold uploadToB2. nh. Qed.

Lemma noHalt_sweepBody :
  noHalt (response <- listObjects env
            (if String.eqb (s3BackupDir config) "" then ""
             else Js.trimSlashes (s3BackupDir config) ++ "/") ;;
          match response with
          | None => ret tt
          | Some contents =>
              forEach (fun object =>
                if isOld (now env - retentionDays config * 24 * 60 * 60 * 1000) object
                then deleteObject env (Key object) ;;
                     log env ("Deleted old backup: " ++ Key object)
                else ret tt) contents
          end).
Proof. nh. Qed.

Lemma total_cleanupOldBackups : total (cleanupOldBackups env config).
Proof.
  unfold cleanupOldBackups. apply total_try.
  - apply noHalt_sweepBody.
  - intros e. apply total_logError.
Qed.

Lemma total_pingHealthcheck : total (pingHealthcheck env config).
Proof.
  unfold pingHealthcheck. destruct (String.eqb (healthCheckUrl config) "").
  - apply total_ret.
  - apply total_try; [nh | intros e; apply total_logError].
Qed.

Lemma noHalt_cleanupOldDirectories d : noHalt (cleanupOldDirectories env config d).
Proof. unfold cleanupOldDirectories. nh. Qed.

Ltac cr :=
  repeat first
    [ apply crashes_runCommand
    | apply crashes_noHalt;
      solve [ repeat first [ apply noHalt_cleanupOldDirectories
                           | apply noHalt_uploadToB2 | nh ] ]
    | apply crashes_bind; [|intros ?]
    | apply crashes_try; [|intros ?] ].

Lemma crashes_performFullBackup : crashes env (performFullBackup env config).
Proof. unfold performFullBackup. cr. Qed.

Lemma crashes_performIncrementalBackup dir :
  crashes env (performIncrementalBackup env config dir).
Proof. unfold performIncrementalBackup. cr. Qed.

(** ** Which events a function can emit *)

Lemma quiet_log cls text :
  cls (EvStdout (consoleLine env [text])) = false -> emits (quiet cls) (log env text).
Proof. intros H. unfold log. now apply emits_stdout. Qed.

Lemma probe_quiet cls :
  (forall p, cls (EvAccess p) = false) ->
  emits (quiet cls) (getCurrentFullBackupDir env config).
Proof. intros H. unfold getCurrentFullBackupDir. em; apply H. Qed.

Lemma runCommand_quiet cls command args :
  cls (EvSpawn command args) = false ->
  (forall e, cls (EvUncaught e args) = false) ->
  emits (quiet cls) (runCommand env command args).
Proof. intros H Hu. unfold runCommand. em; [exact H|apply Hu]. Qed.

Lemma cleanupOldDirectories_quiet cls d :
  (forall ev, cls ev = true -> isPut ev || isSweep ev || isPing ev = true) ->
  emits (quiet cls) (cleanupOldDirectories env config d).
Proof.
  intros H. unfold cleanupOldDirectories, readdir, rm. em;
    match goal with |- quiet _ ?ev =>
      unfold quiet; destruct (cls ev) eqn:E; [apply H in E; discriminate|reflexivity]
    end.
Qed.

Lemma afterBackup_quiet_put : emits (quiet isPut) (afterBackup env config).
Proof.
  unfold afterBackup, cleanupOldBackups, pingHealthcheck, listObjects,
    deleteObject, httpGet. em.
Qed.

Lemma procedure_quiet cls b :
  (forall ev, cls ev = true -> isSweep ev || isPing ev = true) ->
  emits (quiet cls) (procedure env config b).
Proof.
  intros H.
  assert (Hq : forall ev, isSweep ev || isPing ev = false -> quiet cls ev).
  { intros ev Hev. unfold quiet. destruct (cls ev) eqn:E; [|reflexivity].
    apply H in E. congruence. }
  unfold procedure, performFullBackup, performIncrementalBackup,
    cleanupOldDirectories, uploadToB2, runCommand, readdir, rm, mkdir, unlink,
    readFile, putObject.
  destruct b; em; apply Hq; reflexivity.
Qed.

End Facts.
End IndexFacts.

(** ** The scheduler tick *)

Module TickFacts.

Import Eff Trace EffFacts Tick Index IndexFacts.

Section Facts.

Variable env : Env.
Variable config : Config.

Lemma quiet_no_put t key : Forall (quiet isPut) t -> ~ In (EvPut key) t.
Proof.
  intros H Hin. rewrite Forall_forall in H. specialize (H _ Hin). discriminate.
Qed.

Lemma putFails_quiet {A} S (m : M A) : emits (quiet isPut) m -> putFails env S m.
Proof. intros H w key e Hin. now apply (quiet_no_put _ _ (H w)) in Hin. Qed.

(** The upload comes after a part that sends nothing to the store. *)
Lemma putFails_after {A B} S (m : M A) (f : A -> M B) :
  emits (quiet isPut) m -> (forall a, putFails env S (f a)) ->
  putFails env S (bind m f).
Proof.
  intros Hm Hf w key e. specialize (Hm w). unfold bind.
  assert (Hno : ~ In (EvPut key) (events (m w)))
    by (apply (quiet_no_put _ key), Hm).
  destruct (m w) as [[[a|e'|c] w1] t1]; cbn [outcome events fst snd] in *;
    [|intros Hin; contradiction..].
  specialize (Hf a w1 key e). destruct (f a w1) as [[r w2] t2].
  cbn [outcome events fst snd] in *.
  intros Hin Hfault. apply in_app_or in Hin as [Hin|Hin]; [contradiction|].
  destruct (Hf Hin Hfault) as (E & t0 & suf & HS & Et & Hq). split; [exact E|].
  exists (t1 ++ t0)%list, suf. split; [exact HS|]. split.
  - rewrite Et. now rewrite app_assoc.
  - apply Forall_app. now split.
Qed.

(** The upload is followed by a part that sends nothing to the store. *)
Lemma putFails_then {A B} S (m : M A) (f : A -> M B) :
  putFails env S m -> (forall a, emits (quiet isPut) (f a)) ->
  putFails env S (bind m f).
Proof.
  intros Hm Hf w key e. specialize (Hm w key e). unfold bind.
  destruct (m w) as [[[a|e'|c] w1] t1]; cbn [outcome events fst snd] in *.
  - specialize (Hf a w1). destruct (f a w1) as [[r w2] t2].
    cbn [outcome events fst snd] in *.
    intros Hin Hfault. apply in_app_or in Hin as [Hin|Hin].
    + destruct (Hm Hin Hfault) as [E _]. discriminate.
    + exfalso. revert Hin. apply (quiet_no_put _ key), Hf.
  - intros Hin Hfault. destruct (Hm Hin Hfault) as ([= ->] & H). now split.
  - intros Hin Hfault. destruct (Hm Hin Hfault) as [E _]. discriminate.
Qed.

Lemma putFails_putObject key filePath :
  putFails env (fun _ suffix => suffix = []) (putObject env key filePath).
Proof.
  intros w k e Hin Hfault. unfold putObject, io in *.
  destruct (fault env (EvPut key)) eqn:E; cbn in *.
  - destruct Hin as [[= ->]|[]]. rewrite Hfault in E. injection E as <-.
    split; [reflexivity|]. exists [], []. now repeat split.
  - destruct Hin as [[= ->]|[]]. congruence.
Qed.

Lemma putFails_uploadToB2 filePath key :
  putFails env (fun _ suffix => suffix = []) (uploadToB2 env config filePath key).
Proof.
  unfold uploadToB2.
  apply putFails_after; [em|intros _].
  apply putFails_after; [unfold readFile; em|intros _].
  apply putFails_then; [apply putFails_putObject|intros _; em].
Qed.

Lemma rethrow_result {A} label e w :
  (logError env [Str label; Err e] ;; throw e) w
  = (@Throw A e, w, [EvStderr (consoleLine env [label; sanitizeError e])]).
Proof. reflexivity. Qed.

(** [try { body } catch (error) { logError(label, error); throw error }] *)
Lemma putFails_rethrow {A} (body : M A) label :
  putFails env (fun _ suffix => suffix = []) body ->
  putFails env (fun e suffix =>
              suffix = [EvStderr (consoleLine env [label; sanitizeError e])])
           (try body (fun error => logError env [Str label; Err error] ;;
                                   throw error)).
Proof.
  intros Hb w key e. specialize (Hb w key e). unfold try.
  destruct (body w) as [[[a|e'|c] w1] t1]; rewrite ?rethrow_result;
    cbn [outcome world events fst snd] in *.
  - intros Hin Hf. destruct (Hb Hin Hf) as [E _]. discriminate.
  - intros Hin Hf. apply in_app_or in Hin as [Hin|Hin].
    + destruct (Hb Hin Hf) as (E & t0 & suf & -> & Et & Hq).
      injection E as ->.
      split; [reflexivity|]. exists t0. eexists. split; [reflexivity|].
      split; [|exact Hq].
      rewrite Et. rewrite <- app_assoc. reflexivity.
    + destruct Hin as [Hin|[]]. discriminate Hin.
  - intros Hin Hf. destruct (Hb Hin Hf) as [E _]. discriminate.
Qed.

Lemma putFails_weaken {A} (S S' : JsError -> list Event -> Prop) (m : M A) :
  (forall e suffix, S e suffix -> S' e suffix) -> putFails env S m -> putFails env S' m.
Proof.
  intros HS Hm w key e Hin Hf.
  destruct (Hm w key e Hin Hf) as (E & t0 & suf & H1 & H2 & H3).
  split; [exact E|]. exists t0, suf. split; [now apply HS | now split].
Qed.

Lemma putFails_performFullBackup :
  putFails env (procedureLogged env) (performFullBackup env config).
Proof.
  unfold performFullBackup.
  apply putFails_after; [em|intros _].
  eapply putFails_weaken; [|apply putFails_rethrow].
  { intros e suf ->. now eexists. }
  apply putFails_after;
    [apply cleanupOldDirectories_quiet; intros [] E; try discriminate E; reflexivity
    |intros _].
  apply putFails_after; [unfold mkdir; em|intros _].
  apply putFails_after; [apply runCommand_quiet; reflexivity|intros _].
  apply putFails_after; [em|intros _].
  apply putFails_after; [apply runCommand_quiet; reflexivity|intros _].
  apply putFails_after; [em|intros _].
  apply putFails_then; [apply putFails_uploadToB2|intros _].
  unfold unlink. em.
Qed.

Lemma putFails_performIncrementalBackup dir :
  putFails env (procedureLogged env) (performIncrementalBackup env config dir).
Proof.
  unfold performIncrementalBackup.
  apply putFails_after; [em|intros _].
  eapply putFails_weaken; [|apply putFails_rethrow].
  { intros e suf ->. now eexists. }
  apply putFails_after; [unfold mkdir; em|intros _].
  apply putFails_after; [apply runCommand_quiet; reflexivity|intros _].
  apply putFails_after; [em|intros _].
  apply putFails_after; [apply runCommand_quiet; reflexivity|intros _].
  apply putFails_after; [em|intros _].
  apply putFails_then; [apply putFails_uploadToB2|intros _].
  unfold unlink, rm. em.
Qed.

Lemma putFails_procedure b : putFails env (procedureLogged env) (procedure env config b).
Proof.
  destruct b as [dir|]; unfold procedure.
  - apply putFails_after; [em|intros _].
    apply putFails_performIncrementalBackup.
  - apply putFails_after; [em|intros _].
    apply putFails_then; [apply putFails_performFullBackup|intros _; em].
Qed.

(** ** The probe and the shape of a tick *)

Lemma probe_result w :
  getCurrentFullBackupDir env config w
  = (Ok (if baseExists env config w then Some (todayDir env config) else None),
     w, probeEvents env config w).
Proof.
  unfold getCurrentFullBackupDir, baseExists, probeEvents, try, bind, access.
  fold (todayDir env config). fold (checkpointFile env config).
  destruct (exists_ (todayDir env config) (files w)); [|reflexivity].
  destruct (exists_ (checkpointFile env config) (files w)); reflexivity.
Qed.

Lemma runBackup_unfold :
  runBackup env config
  = try (baseDir <- getCurrentFullBackupDir env config ;;
         procedure env config baseDir ;;
         afterBackup env config)
        (fun error => logError env [Str "Backup failed:"; Err error] ;; exit 1).
Proof. reflexivity. Qed.

Lemma total_afterBackup : total (afterBackup env config).
Proof.
  unfold afterBackup.
  apply total_bind; [apply total_log|intros _].
  apply total_bind; [apply total_cleanupOldBackups|intros _].
  apply total_pingHealthcheck.
Qed.

Lemma crashes_procedure b : crashes env (procedure env config b).
Proof.
  destruct b; unfold procedure.
  - apply crashes_bind; [apply crashes_noHalt, noHalt_log|intros _].
    apply crashes_performIncrementalBackup.
  - apply crashes_bind; [apply crashes_noHalt, noHalt_log|intros _].
    apply crashes_bind; [apply crashes_performFullBackup|intros _].
    apply crashes_noHalt, noHalt_ret.
Qed.

(** A tick: the probe, the procedure it selects, and then either the report
    of the failure and the end of the process, or the sweep and the ping, or
    nothing more when a tool that cannot be started has ended the process. *)
Lemma runBackup_cases w :
  let pr := procedure env config
              (if baseExists env config w then Some (todayDir env config) else None) w in
  match outcome pr with
  | Ok _ =>
      runBackup env config w
      = after (probeEvents env config w ++ events pr)
              (afterBackup env config (world pr))
  | Throw e =>
      runBackup env config w
      = (Halt 1, world pr,
         (probeEvents env config w ++ events pr ++ [failedLine env e])%list)
  | Halt c =>
      runBackup env config w
      = (Halt 1, world pr, (probeEvents env config w ++ events pr)%list)
      /\ c = 1
      /\ exists t0 command args e,
           ending env command args = NoStart e
           /\ events pr = (t0 ++ [EvSpawn command args; EvUncaught e args])%list
  end.
Proof.
  cbv zeta. rewrite runBackup_unfold.
  set (b := if baseExists env config w then Some (todayDir env config) else None).
  pose proof (crashes_procedure b w) as Hnh.
  destruct (procedure env config b w) as [[[u|e|c] w1] t1] eqn:Epr; cbn [outcome world events fst snd].
  - destruct (total_afterBackup w1) as [a Ha].
    destruct (afterBackup env config w1) as [[r w2] t2] eqn:Eab. cbn in Ha. subst r.
    erewrite try_Ok; [reflexivity|].
    erewrite bind_Ok by apply probe_result. fold b.
    erewrite bind_Ok by exact Epr. rewrite Eab.
    unfold after. cbn [outcome world events fst snd]. now rewrite app_assoc.
  - erewrite try_Throw.
    2:{ erewrite bind_Ok by apply probe_result. fold b.
        erewrite bind_Throw by exact Epr. reflexivity. }
    unfold after, failedLine. rewrite <- app_assoc. reflexivity.
  - destruct (Hnh c eq_refl) as [-> Hev].
    split; [|split; [reflexivity|exact Hev]].
    erewrite try_Halt; [reflexivity|].
    erewrite bind_Ok by apply probe_result. fold b.
    erewrite bind_Halt by exact Epr. reflexivity.
Qed.

Lemma afterBackup_result w1 :
  exists w2 t2 w3 t3,
    cleanupOldBackups env config w1 = (Ok tt, w2, t2)
    /\ pingHealthcheck env config w2 = (Ok tt, w3, t3)
    /\ afterBackup env config w1
       = (Ok tt, w3,
          EvStdout (consoleLine env ["Cleaning up old backups..."]) :: t2 ++ t3)%list.
Proof.
  destruct (total_cleanupOldBackups env config w1) as [[] H2].
  destruct (cleanupOldBackups env config w1) as [[r2 w2] t2] eqn:E2.
  cbn in H2. subst r2.
  destruct (total_pingHealthcheck env config w2) as [[] H3].
  destruct (pingHealthcheck env config w2) as [[r3 w3] t3] eqn:E3.
  cbn in H3. subst r3.
  exists w2, t2, w3, t3. split; [reflexivity|]. split; [exact E3|].
  unfold afterBackup.
  erewrite bind_Ok by reflexivity.
  erewrite bind_Ok by exact E2. rewrite E3. reflexivity.
Qed.

Lemma ping_attempted w :
  healthCheckUrl config <> "" ->
  In (EvHttpGet (healthCheckUrl config)) (events (pingHealthcheck env config w)).
Proof.
  intros H. unfold pingHealthcheck.
  destruct (String.eqb (healthCheckUrl config) "") eqn:E;
    [apply String.eqb_eq in E; contradiction|].
  unfold try, bind, httpGet, io.
  destruct (fault env (EvHttpGet (healthCheckUrl config))); cbn; now left.
Qed.

Lemma probeEvents_quiet cls w :
  (forall p, cls (EvAccess p) = false) ->
  Forall (quiet cls) (probeEvents env config w).
Proof.
  intros H. unfold probeEvents.
  destruct (exists_ _ _); repeat constructor; apply H.
Qed.

Lemma quiet_not_in cls t ev : Forall (quiet cls) t -> cls ev = true -> ~ In ev t.
Proof.
  intros H Hc Hin. rewrite Forall_forall in H. specialize (H _ Hin).
  unfold quiet in H. congruence.
Qed.

(** The loop of the sweep stops at the deletion that the store rejects. *)
Lemma sweep_loop_fails cutoffDate page : forall w ev e,
  isSweep ev = true -> fault env ev = Some e ->
  In ev (events (forEach (fun object =>
                            if isOld cutoffDate object then
                              deleteObject env (Key object) ;;
                              log env ("Deleted old backup: " ++ Key object)
                            else ret tt) page w)) ->
  outcome (forEach (fun object =>
                      if isOld cutoffDate object then
                        deleteObject env (Key object) ;;
                        log env ("Deleted old backup: " ++ Key object)
                      else ret tt) page w) = Throw e
  /\ exists t0,
       events (forEach (fun object =>
                          if isOld cutoffDate object then
                            deleteObject env (Key object) ;;
                            log env ("Deleted old backup: " ++ Key object)
                          else ret tt) page w) = (t0 ++ [ev])%list.
Proof.
  induction page as [|p page IH]; intros w ev e Hs Hf Hin; [destruct Hin|].
  cbn [forEach] in Hin |- *. destruct (isOld cutoffDate p).
  - destruct (fault env (EvDelete (Key p))) as [e0|] eqn:Hd.
    + assert (Hbody : (deleteObject env (Key p) ;;
                       log env ("Deleted old backup: " ++ Key p)) w
                      = (Throw e0, w, [EvDelete (Key p)]))
        by (unfold bind, deleteObject, io; rewrite Hd; reflexivity).
      rewrite (bind_Throw _ _ _ _ _ _ Hbody) in Hin |- *.
      cbn [outcome events fst snd] in Hin |- *.
      destruct Hin as [<-|[]]. rewrite Hd in Hf. injection Hf as ->.
      split; [reflexivity|]. now exists [].
    + assert (Hbody : (deleteObject env (Key p) ;;
                       log env ("Deleted old backup: " ++ Key p)) w
                      = (Ok tt,
                         setObjects (filter (fun o => negb (String.eqb (Key o) (Key p)))
                                            (objects w)) w,
                         [EvDelete (Key p);
                          EvStdout (consoleLine env ["Deleted old backup: " ++ Key p])]))
        by (unfold bind, deleteObject, io; rewrite Hd; reflexivity).
      rewrite (bind_Ok _ _ _ _ _ _ Hbody) in Hin |- *. unfold after in Hin |- *.
      cbn [outcome events fst snd] in Hin |- *.
      apply in_app_or in Hin as [Hin|Hin].
      * destruct Hin as [<-|[<-|[]]]; [congruence|discriminate Hs].
      * destruct (IH _ ev e Hs Hf Hin) as (E & t0 & Et). split; [exact E|].
        exists (EvDelete (Key p)
                :: EvStdout (consoleLine env ["Deleted old backup: " ++ Key p])
                :: t0).
        rewrite Et. now rewrite app_assoc.
  - rewrite (bind_Ok _ _ w tt w [] eq_refl) in Hin |- *. unfold after in Hin |- *.
    cbn [outcome events fst snd app] in Hin |- *.
    exact (IH w ev e Hs Hf Hin).
Qed.

(** A rejected operation of the sweep ends the sweep: the error is logged,
    and the sweep asks nothing more of the store. *)
Lemma sweep_failure_logged w ev e :
  isSweep ev = true -> fault env ev = Some e ->
  In ev (events (cleanupOldBackups env config w)) ->
  exists t0,
    events (cleanupOldBackups env config w)
    = (t0 ++ [ev; EvStderr (consoleLine env ["Error cleaning up old backups:";
                                             sanitizeError e])])%list.
Proof.
  intros Hs Hf Hin. unfold cleanupOldBackups in Hin |- *.
  set (cutoffDate := now env - retentionDays config * 24 * 60 * 60 * 1000) in *.
  set (prefix := if String.eqb (s3BackupDir config) "" then ""
                 else Js.trimSlashes (s3BackupDir config) ++ "/") in *.
  cbv zeta in Hin |- *.
  destruct (fault env (EvList prefix)) as [e0|] eqn:Hl.
  - match type of Hin with
    | In _ (events (try ?m ?h w)) =>
        assert (Hbody : m w = (Throw e0, w, [EvList prefix]))
          by (apply bind_Throw; unfold listObjects, io; now rewrite Hl)
    end.
    rewrite (try_Throw _ _ _ _ _ _ Hbody) in Hin |- *.
    cbn [after logError stderr outcome world events fst snd app map] in Hin |- *.
    destruct Hin as [<-|[<-|[]]]; [|discriminate Hs].
    rewrite Hl in Hf. injection Hf as ->. now exists [].
  - assert (Hlist : exists response,
               listObjects env prefix w = (Ok response, w, [EvList prefix])).
    { unfold listObjects, io. rewrite Hl.
      destruct (firstn 1000 _); eexists; reflexivity. }
    destruct Hlist as [response Hlist].
    destruct response as [contents|].
    + pose proof (sweep_loop_fails cutoffDate contents w ev e Hs Hf) as Hloop.
      match type of Hin with
      | In _ (events (try ?m ?h w)) => set (body := m) in *
      end.
      assert (Hbody : body w
                      = after [EvList prefix]
                          (forEach (fun object =>
                                      if isOld cutoffDate object then
                                        deleteObject env (Key object) ;;
                                        log env ("Deleted old backup: " ++ Key object)
                                      else ret tt) contents w))
        by (unfold body; now rewrite (bind_Ok _ _ _ _ _ _ Hlist)).
      destruct (forEach _ contents w) as [[[u|e1|c] w1] t1];
        cbn [outcome events fst snd] in Hloop; unfold after in Hbody;
        cbn [outcome world events fst snd] in Hbody.
      * exfalso. rewrite (try_Ok _ _ _ _ _ _ Hbody) in Hin.
        cbn [events snd app] in Hin. destruct Hin as [<-|Hin]; [congruence|].
        destruct (Hloop Hin) as [E _]. discriminate.
      * rewrite (try_Throw _ _ _ _ _ _ Hbody) in Hin |- *.
        cbn [after logError stderr outcome world events fst snd map] in Hin |- *.
        assert (Hin1 : In ev t1).
        { apply in_app_or in Hin as [Hin|Hin].
          - destruct Hin as [<-|Hin]; [congruence|exact Hin].
          - destruct Hin as [<-|[]]. discriminate Hs. }
        destruct (Hloop Hin1) as ([= ->] & t0 & ->).
        exists (EvList prefix :: t0). cbn [app]. rewrite <- app_assoc. reflexivity.
      * exfalso. rewrite (try_Halt _ _ _ _ _ _ Hbody) in Hin.
        cbn [events snd app] in Hin. destruct Hin as [<-|Hin]; [congruence|].
        destruct (Hloop Hin) as [E _]. discriminate.
    + exfalso.
      match type of Hin with
      | In _ (events (try ?m ?h w)) =>
          assert (Hbody : m w = (Ok tt, w, [EvList prefix]))
            by (now rewrite (bind_Ok _ _ _ _ _ _ Hlist))
      end.
      rewrite (try_Ok _ _ _ _ _ _ Hbody) in Hin. cbn [events snd] in Hin.
      destruct Hin as [<-|[]]. congruence.
Qed.

Lemma ping_quiet_sweep : emits (quiet isSweep) (pingHealthcheck env config).
Proof. unfold pingHealthcheck, httpGet. em. Qed.

(** C9 (amended). A rejected upload is fatal to the tick: it is the only
    upload the tick sends (no retry), the error is thrown and logged by the
    procedure, the tick reports "Backup failed:", the process exits with
    code 1, and nothing follows (no sweep, no ping). A tick that reaches the
    Retention Sweep ends normally whatever the store answers to the sweep:
    a rejected operation of the sweep is logged ("Error cleaning up old
    backups:"), the sweep asks nothing more of the store, and the tick goes
    on to the liveness ping. *)
Theorem tick_store_failures w :
  (forall key e,
      In (EvPut key) (events (runBackup env config w)) ->
      fault env (EvPut key) = Some e ->
      outcome (runBackup env config w) = Halt 1
      /\ exists t0 label,
           events (runBackup env config w)
           = (t0 ++ [EvPut key;
                     EvStderr (consoleLine env [label; sanitizeError e]);
                     failedLine env e])%list
           /\ Forall (quiet isPut) t0)
  /\ (forall ev,
        isSweep ev = true -> In ev (events (runBackup env config w)) ->
        outcome (runBackup env config w) = Ok tt
        /\ (healthCheckUrl config <> "" ->
            In (EvHttpGet (healthCheckUrl config))
               (events (runBackup env config w)))
        /\ (forall e,
              fault env ev = Some e ->
              exists t0 t1,
                events (runBackup env config w)
                = (t0 ++ ev
                      :: EvStderr (consoleLine env
                                     ["Error cleaning up old backups:";
                                      sanitizeError e])
                      :: t1)%list
                /\ Forall (quiet isSweep) t1
                /\ (healthCheckUrl config <> "" ->
                    In (EvHttpGet (healthCheckUrl config)) t1))).
Proof.
  pose proof (runBackup_cases w) as Hc. cbv zeta in Hc.
  set (b := if baseExists env config w then Some (todayDir env config) else None) in *.
  pose proof (putFails_procedure b w) as Hput.
  pose proof (procedure_quiet env config isSweep b
                (fun ev H => eq_trans (f_equal (fun x => x || isPing ev) H) eq_refl) w)
    as Hquiet.
  assert (Hprobe : forall cls, (forall p, cls (EvAccess p) = false) ->
                               Forall (quiet cls) (probeEvents env config w))
    by (intros cls H; now apply probeEvents_quiet).
  destruct (procedure env config b w) as [[[u|e'|c] w1] t1] eqn:Epr;
    cbn [outcome world events fst snd] in *.
  - (* the procedure succeeded *)
    destruct (afterBackup_result w1) as (w2 & t2 & w3 & t3 & E2 & E3 & Eab).
    rewrite Eab in Hc. unfold after in Hc. cbn [outcome world events fst snd] in Hc.
    rewrite Hc. cbn [outcome world events fst snd]. split.
    + intros key e Hin Hf. exfalso.
      apply in_app_or in Hin as [Hin|Hin].
      * apply in_app_or in Hin as [Hin|Hin].
        -- revert Hin. apply (quiet_not_in isPut); [|reflexivity].
           apply Hprobe. reflexivity.
        -- destruct (Hput key e Hin Hf) as [E _]. discriminate.
      * pose proof (afterBackup_quiet_put env config w1) as Hq. rewrite Eab in Hq.
        revert Hin. apply (quiet_not_in isPut); [exact Hq|reflexivity].
    + intros ev Hev Hin.
      assert (Hping : healthCheckUrl config <> "" ->
                      In (EvHttpGet (healthCheckUrl config)) t3).
      { intros Hurl. pose proof (ping_attempted w2 Hurl) as Hp.
        now rewrite E3 in Hp. }
      split; [reflexivity|]. split.
      * intros Hurl. apply in_or_app. right. right. apply in_or_app. right.
        now apply Hping.
      * intros e Hf.
        assert (Hin2 : In ev t2).
        { apply in_app_or in Hin as [Hin|Hin].
          - exfalso. apply in_app_or in Hin as [Hin|Hin].
            + revert Hin. apply (quiet_not_in isSweep); [|exact Hev].
              apply Hprobe. reflexivity.
            + revert Hin. apply (quiet_not_in isSweep); [exact Hquiet|exact Hev].
          - destruct Hin as [<-|Hin]; [discriminate Hev|].
            apply in_app_or in Hin as [Hin|Hin]; [exact Hin|].
            exfalso. pose proof (ping_quiet_sweep w2) as Hq. rewrite E3 in Hq.
            revert Hin. apply (quiet_not_in isSweep); [exact Hq|exact Hev]. }
        pose proof (sweep_failure_logged w1 ev e Hev Hf) as Hlog.
        rewrite E2 in Hlog. cbn [events snd] in Hlog.
        destruct (Hlog Hin2) as [t0 Et]. rewrite Et.
        exists ((probeEvents env config w ++ t1)
                ++ EvStdout (consoleLine env ["Cleaning up old backups..."]) :: t0)%list,
               t3.
        split; [|split; [|exact Hping]].
        -- rewrite <- !app_assoc. cbn [app]. rewrite <- ?app_assoc. reflexivity.
        -- pose proof (ping_quiet_sweep w2) as Hq. now rewrite E3 in Hq.
  - (* the procedure threw *)
    rewrite Hc. cbn [outcome world events fst snd]. split.
    + intros key e Hin Hf. split; [reflexivity|].
      apply in_app_or in Hin as [Hin|Hin].
      * exfalso. revert Hin. apply (quiet_not_in isPut); [|reflexivity].
        apply Hprobe. reflexivity.
      * apply in_app_or in Hin as [Hin|Hin].
        -- destruct (Hput key e Hin Hf) as (E & t0 & suf & [label ->] & Et & Hq).
           injection E as ->. exists (probeEvents env config w ++ t0)%list, label.
           split.
           ++ rewrite Et, <- !app_assoc. reflexivity.
           ++ apply Forall_app. split; [apply Hprobe; reflexivity|exact Hq].
        -- destruct Hin as [Hin|[]]. discriminate Hin.
    + intros ev Hev Hin. exfalso.
      apply in_app_or in Hin as [Hin|Hin].
      * revert Hin. apply (quiet_not_in isSweep); [|exact Hev].
        apply Hprobe. reflexivity.
      * apply in_app_or in Hin as [Hin|Hin].
        -- revert Hin. apply (quiet_not_in isSweep); [exact Hquiet|exact Hev].
        -- destruct Hin as [<-|[]]. discriminate Hev.
  - (* a tool could not be started *)
    destruct Hc as (Hc & _ & _). rewrite Hc. cbn [outcome world events fst snd].
    split.
    + intros key e Hin Hf. exfalso.
      apply in_app_or in Hin as [Hin|Hin].
      * revert Hin. apply (quiet_not_in isPut); [|reflexivity].
        apply Hprobe. reflexivity.
      * destruct (Hput key e Hin Hf) as [E _]. discriminate.
    + intros ev Hev Hin. exfalso.
      apply in_app_or in Hin as [Hin|Hin].
      * revert Hin. apply (quiet_not_in isSweep); [|exact Hev].
        apply Hprobe. reflexivity.
      * revert Hin. apply (quiet_not_in isSweep); [exact Hquiet|exact Hev].
Qed.

End Facts.

End TickFacts.

(** ** The cleanup of the local directories *)

Module CleanupFacts.

Import Eff Trace EffFacts JsFacts Tick Index IndexFacts.

Lemma app_inv_head_p (p a b : string) : p ++ a = p ++ b -> a = b.
Proof. induction p; simpl; intros H; [exact H|]. injection H. auto. Qed.

(** The paths a directory entry holds: the entry itself and what lies in it. *)
Lemma within_cases d p :
  within d p = true <-> p = d \/ exists r, p = d ++ "/" ++ r.
Proof.
  unfold within. rewrite orb_true_iff, String.eqb_eq. split.
  - intros [H|H]; [now left|]. right. apply prefix_exists in H as [r ->].
    exists r. now rewrite app_assoc_s.
  - intros [H|[r ->]]; [now left|]. right.
    rewrite <- app_assoc_s. apply prefix_app.
Qed.

(** Two entries of one directory hold no path in common. *)
Lemma within_unique root e e' p :
  hasSlash e = false -> hasSlash e' = false ->
  within (Js.pathJoin root e) p = true ->
  within (Js.pathJoin root e') p = true -> e = e'.
Proof.
  intros He He' H H'. apply within_cases in H, H'. unfold Js.pathJoin in *.
  destruct H as [->|[r ->]], H' as [H'|[r' H']].
  - now apply app_inv_head_p, app_inv_head_p in H'.
  - rewrite app_assoc_s in H'. apply app_inv_head_p in H'. cbn [append] in H'.
    injection H' as H'. cbn [append] in H'. rewrite H' in He.
    now rewrite hasSlash_app in He.
  - rewrite app_assoc_s in H'. apply app_inv_head_p in H'. cbn [append] in H'.
    injection H' as H'. cbn [append] in H'. rewrite <- H' in He'.
    now rewrite hasSlash_app in He'.
  - rewrite !app_assoc_s in H'. apply app_inv_head_p in H'. cbn [append] in H'.
    injection H' as H'. cbn [append] in H'. eapply noSlash_split; eassumption.
Qed.

Lemma within_in_root root e p :
  within (Js.pathJoin root e) p = true -> String.prefix (root ++ "/") p = true.
Proof.
  intros H. apply within_cases in H. unfold Js.pathJoin in H.
  destruct H as [->|[r ->]]; rewrite ?app_assoc_s.
  - rewrite prefix_app_same. cbn [append]. now rewrite prefix_cons, prefix_nil.
  - rewrite prefix_app_same. cbn [append]. now rewrite prefix_cons, prefix_nil.
Qed.

Lemma children_spec d fs e :
  In e (children d fs)
  <-> e <> "" /\ hasSlash e = false /\ In (Js.pathJoin d e) fs.
Proof.
  unfold children. rewrite in_flat_map. split.
  - intros (p & Hp & Hin). destruct (String.prefix (d ++ "/") p) eqn:E; [|destruct Hin].
    apply prefix_exists in E as [r ->].
    replace (String.length d + 1)%nat with (String.length (d ++ "/")) in Hin
      by (clear; induction d; simpl; congruence).
    rewrite sliceFrom_app in Hin.
    destruct (hasSlash r) eqn:Hs; [destruct Hin|].
    destruct (String.eqb r "") eqn:Hr; [destruct Hin|]. cbn in Hin.
    destruct Hin as [<-|[]]. apply String.eqb_neq in Hr.
    repeat split; auto. unfold Js.pathJoin. now rewrite <- app_assoc_s.
  - intros (Hne & Hs & Hin). exists (Js.pathJoin d e). split; [exact Hin|].
    unfold Js.pathJoin. rewrite <- app_assoc_s, prefix_app.
    replace (String.length d + 1)%nat with (String.length (d ++ "/"))
      by (clear; induction d; simpl; congruence).
    rewrite sliceFrom_app, Hs. apply String.eqb_neq in Hne. rewrite Hne. now left.
Qed.

Section Facts.

Variable env : Env.
Variable config : Config.
Variable today : string.

Lemma filter_all {A} (f : A -> bool) l :
  (forall x, f x = true) -> filter f l = l.
Proof.
  intros H. induction l as [|x l IH]; simpl; [reflexivity|]. now rewrite H, IH.
Qed.

Lemma filter_both {A} (f g : A -> bool) l :
  filter g (filter f l) = filter (fun x => f x && g x) l.
Proof.
  induction l as [|x l IH]; [reflexivity|]. cbn [filter].
  destruct (f x); cbn [andb filter]; [|exact IH]. now rewrite IH.
Qed.

Lemma sweepEntry_world entry w :
  outcome ((sweepEntry env config today) entry w) = Ok tt
  /\ files (world ((sweepEntry env config today) entry w)) = filter (keeps env config today entry) (files w)
  /\ objects (world ((sweepEntry env config today) entry w)) = objects w.
Proof.
  unfold sweepEntry, keeps, removable.
  destruct (isOldDirectory today entry); cbn [andb].
  - unfold try, bind, rm, io.
    destruct (fault env (EvRm (Js.pathJoin (backupRoot config) entry))).
    + cbn [outcome world fst snd files objects andb negb].
      split; [reflexivity|]. split; [|reflexivity].
      symmetry. now apply filter_all.
    + cbn [outcome world fst snd files objects setFiles andb negb].
      split; [reflexivity|]. split; reflexivity.
  - cbn [outcome world fst snd files objects andb negb ret].
    split; [reflexivity|]. split; [|reflexivity].
    symmetry. now apply filter_all.
Qed.

Lemma forEach_world entries : forall w,
  outcome (forEach (sweepEntry env config today) entries w) = Ok tt
  /\ files (world (forEach (sweepEntry env config today) entries w))
     = filter (fun p => forallb (fun entry => keeps env config today entry p) entries) (files w)
  /\ objects (world (forEach (sweepEntry env config today) entries w)) = objects w.
Proof.
  induction entries as [|entry entries IH]; intros w.
  - cbn [forEach ret outcome world fst snd forallb].
    split; [reflexivity|]. split; [|reflexivity].
    symmetry. now apply filter_all.
  - cbn [forEach]. destruct (sweepEntry_world entry w) as (Ho & Hf & Hob).
    unfold bind. destruct ((sweepEntry env config today) entry w) as [[r w1] t1].
    cbn [outcome world fst snd] in Ho, Hf, Hob.
    subst r. specialize (IH w1). destruct (forEach (sweepEntry env config today) entries w1) as [[r w2] t2].
    cbn [outcome world fst snd] in *. destruct IH as (Hr & Hf2 & Ho2). subst r.
    split; [reflexivity|]. split; [|now rewrite Ho2].
    rewrite Hf2, Hf. apply filter_both.
Qed.

Lemma cleanupOldDirectories_unfold :
  cleanupOldDirectories env config today
  = (entries <- readdir env (backupRoot config) ;; forEach (sweepEntry env config today) entries).
Proof. reflexivity. Qed.

(** The local files after the cleanup. *)
Lemma cleanup_files w :
  objects (world (cleanupOldDirectories env config today w)) = objects w
  /\ (files (world (cleanupOldDirectories env config today w)) = files w
      \/ (fault env (EvReaddir (backupRoot config)) = None /\ exists_ (backupRoot config) (files w) = true
          /\ files (world (cleanupOldDirectories env config today w))
             = filter (fun p => forallb (fun entry => keeps env config today entry p)
                                        (children (backupRoot config) (files w)))
                      (files w))).
Proof.
  rewrite cleanupOldDirectories_unfold. unfold bind, readdir, io.
  destruct (fault env (EvReaddir (backupRoot config))); [cbn [world fst snd]; auto|].
  destruct (exists_ (backupRoot config) (files w)); [|cbn [world fst snd]; auto].
  destruct (forEach_world (children (backupRoot config) (files w)) w) as (_ & Hf & Ho).
  destruct (forEach (sweepEntry env config today) (children (backupRoot config) (files w)) w) as [[r w2] t2].
  cbn [world fst snd] in *. split; [exact Ho|]. right. auto.
Qed.

Lemma today_is_kept : isOldDirectory today ("full_backup_" ++ today) = false.
Proof. unfold isOldDirectory. now rewrite String.eqb_refl, andb_false_r. Qed.

Lemma incremental_is_kept entry :
  Js.startsWith entry "inc_backup_" = true -> isOldDirectory today entry = false.
Proof.
  unfold isOldDirectory, Js.startsWith. intros H.
  destruct entry as [|c entry]; [discriminate|].
  rewrite prefix_cons in H. apply andb_true_iff in H as [Hc _].
  apply Ascii.eqb_eq in Hc. subst c. rewrite prefix_cons. reflexivity.
Qed.

(** The Full Backup Procedure announces itself and then cleans the local
    directories up, with the key of the current day. *)
Lemma full_backup_starts_with_cleanup w :
  exists rest,
    events (performFullBackup env config w)
    = EvStdout (consoleLine env ["Performing full backup..."])
      :: (events (cleanupOldDirectories env config (formatDate (now env)) w)
          ++ rest)%list.
Proof.
  unfold performFullBackup. erewrite bind_Ok by reflexivity.
  unfold after. cbn [events snd app].
  match goal with
  | |- context [try ?m ?h w] => destruct (events_try m h w) as [r1 ->]
  end.
  match goal with
  | |- context [bind ?m ?k w] => destruct (events_bind m k w) as [r2 ->]
  end.
  exists (r2 ++ r1)%list. now rewrite app_assoc.
Qed.

(** The test of the loop says what the claim says. *)
Lemma isOldDirectory_stale entry :
  isOldDirectory today entry = true <-> stale today entry.
Proof.
  unfold isOldDirectory, stale, Js.startsWith.
  rewrite andb_true_iff, negb_true_iff, String.eqb_neq. split.
  - intros [Hp Hne]. split; [now apply prefix_exists|exact Hne].
  - intros [[rest ->] Hne]. split; [apply prefix_app|exact Hne].
Qed.

Lemma not_stale entry :
  ~ stale today entry -> isOldDirectory today entry = false.
Proof.
  intros H. destruct (isOldDirectory today entry) eqn:E; [|reflexivity].
  now apply isOldDirectory_stale in E.
Qed.

(** C10 (amended). The Full Backup Procedure starts with the cleanup of the
    local directories, and the cleanup removes an entry of the working root,
    directory or file, exactly when its name starts with "full_backup_" and
    is not the name of today's full-backup directory (provided the listing
    and the removal are not rejected): nothing is created; every entry whose
    name does not start with "full_backup_" or is today's directory name
    keeps all it holds (today's full-backup directory and every entry named
    "inc_backup_..." among them); the paths outside the working root and the
    store are untouched; and, when no operation rejects, every entry named
    "full_backup_" followed by anything but today's date is gone with all it
    holds, the archive "full_backup_<date>.tar.gz" that a failed upload has
    left among them, today's too. *)
Theorem cleanup_removes_old_directories w :
  let w' := world (cleanupOldDirectories env config today w) in
  (exists rest,
      events (performFullBackup env config w)
      = EvStdout (consoleLine env ["Performing full backup..."])
        :: (events (cleanupOldDirectories env config (formatDate (now env)) w)
            ++ rest)%list)
  /\ (forall p, In p (files w') -> In p (files w))
  /\ (forall entry p,
        hasSlash entry = false -> ~ stale today entry ->
        within (Js.pathJoin (backupRoot config) entry) p = true ->
        In p (files w) -> In p (files w'))
  /\ (forall p, String.prefix ((backupRoot config) ++ "/") p = false ->
                In p (files w) -> In p (files w'))
  /\ objects w' = objects w
  /\ ~ stale today ("full_backup_" ++ today)
  /\ (forall entry, Js.startsWith entry "inc_backup_" = true ->
                    ~ stale today entry)
  /\ (forall entry, Js.startsWith entry "full_backup_" = false ->
                    ~ stale today entry)
  /\ (forall rest, rest <> today -> stale today ("full_backup_" ++ rest))
  /\ (exists_ (backupRoot config) (files w) = true ->
      fault env (EvReaddir (backupRoot config)) = None ->
      (forall entry, fault env (EvRm (Js.pathJoin (backupRoot config) entry)) = None) ->
      forall entry p,
        In (Js.pathJoin (backupRoot config) entry) (files w) ->
        entry <> "" -> hasSlash entry = false ->
        stale today entry ->
        within (Js.pathJoin (backupRoot config) entry) p = true ->
        ~ In p (files w')).
Proof.
  cbv zeta. destruct (cleanup_files w) as [Hobj Hfiles].
  assert (Hkeep : forall p,
             In p (files w) ->
             (forall entry, In entry (children (backupRoot config) (files w)) ->
                            isOldDirectory today entry = true ->
                            within (Js.pathJoin (backupRoot config) entry) p = false) ->
             In p (files (world (cleanupOldDirectories env config today w)))).
  { intros p Hp Hno. destruct Hfiles as [->|(_ & _ & ->)]; [exact Hp|].
    apply filter_In. split; [exact Hp|]. apply forallb_forall. intros entry He.
    unfold keeps, removable.
    destruct (isOldDirectory today entry) eqn:Hold; [|reflexivity].
    rewrite (Hno entry He Hold). now rewrite andb_false_r. }
  split; [apply full_backup_starts_with_cleanup|].
  split; [|split; [|split; [|split; [|split; [|split; [|split; [|split]]]]]]].
  - intros p Hp. destruct Hfiles as [E|(_ & _ & E)]; rewrite E in Hp; [exact Hp|].
    now apply filter_In in Hp.
  - intros entry p Hs Hold Hw Hp. apply not_stale in Hold.
    apply Hkeep; [exact Hp|].
    intros entry' He' Hold'. apply children_spec in He' as (_ & Hs' & _).
    destruct (within (Js.pathJoin (backupRoot config) entry') p) eqn:Hw'; [|reflexivity].
    rewrite (within_unique (backupRoot config) entry entry' p Hs Hs' Hw Hw') in Hold. congruence.
  - intros p Hout Hp. apply Hkeep; [exact Hp|].
    intros entry' _ _.
    destruct (within (Js.pathJoin (backupRoot config) entry') p) eqn:Hw'; [|reflexivity].
    apply within_in_root in Hw'. congruence.
  - exact Hobj.
  - intros [_ H]. now apply H.
  - intros entry Hinc Hst. apply isOldDirectory_stale in Hst.
    rewrite (incremental_is_kept entry Hinc) in Hst. discriminate.
  - intros entry Hno [[rest ->] _]. unfold Js.startsWith in Hno.
    rewrite prefix_app in Hno. discriminate.
  - intros rest Hne. split; [now exists rest|].
    intros E. apply app_inv_head_p in E. contradiction.
  - intros Hroot Hrd Hrm entry p Hin Hne Hs Hold Hw Hp.
    apply isOldDirectory_stale in Hold.
    destruct Hfiles as [E|(_ & _ & E)].
    + clear E. rewrite cleanupOldDirectories_unfold in Hp.
      unfold bind, readdir, io in Hp. rewrite Hrd, Hroot in Hp.
      destruct (forEach_world (children (backupRoot config) (files w)) w) as (_ & Hf & _).
      destruct (forEach (sweepEntry env config today) (children (backupRoot config) (files w)) w) as [[r w2] t2].
      cbn [world fst snd] in *. rewrite Hf in Hp.
      apply filter_In in Hp as [_ Hp]. rewrite forallb_forall in Hp.
      specialize (Hp entry (proj2 (children_spec (backupRoot config) (files w) entry)
                                  (conj Hne (conj Hs Hin)))).
      unfold keeps, removable in Hp. rewrite Hold, Hrm, Hw in Hp. discriminate.
    + rewrite E in Hp. apply filter_In in Hp as [_ Hp]. rewrite forallb_forall in Hp.
      specialize (Hp entry (proj2 (children_spec (backupRoot config) (files w) entry)
                                  (conj Hne (conj Hs Hin)))).
      unfold keeps, removable in Hp. rewrite Hold, Hrm, Hw in Hp. discriminate.
Qed.

End Facts.

End CleanupFacts.

(** ** The Retention Sweep *)

Module SweepFacts.
Import Eff Trace Index Tick EffFacts.

Section Facts.
Variable env : Env.
Variable config : Config.

Hypothesis deletes : forall key, fault env (EvDelete key) = None.

Lemma sweep_loop page : forall w,
  forEach (fun object =>
             if isOld (cutoffDate env config) object then
               deleteObject env (Key object) ;;
               log env ("Deleted old backup: " ++ Key object)
             else ret tt) page w
  = (Ok tt,
     setObjects (filter (fun o => negb (swept env config page o)) (objects w)) w,
     sweepEvents env config page).
Proof.
  induction page as [|p page IH]; intros w.
  - cbn [forEach]. unfold ret, swept, sweepEvents. cbn [existsb negb flat_map].
    rewrite CleanupFacts.filter_all by reflexivity. now destruct w.
  - cbn [forEach]. unfold sweepEvents. cbn [flat_map].
    fold (sweepEvents env config page).
    destruct (isOld (cutoffDate env config) p) eqn:Hold.
    + assert (Hbody : (deleteObject env (Key p) ;;
                       log env ("Deleted old backup: " ++ Key p)) w
                      = (Ok tt,
                         setObjects (filter (fun o => negb (String.eqb (Key o) (Key p)))
                                            (objects w)) w,
                         [EvDelete (Key p);
                          EvStdout (consoleLine env ["Deleted old backup: " ++ Key p])])).
      { unfold bind, deleteObject, io. rewrite deletes. reflexivity. }
      rewrite (bind_Ok _ _ _ _ _ _ Hbody), IH, after_pair.
      unfold setObjects. cbn [objects files answers].
      rewrite CleanupFacts.filter_both. f_equal. f_equal. f_equal.
      apply filter_ext. intros o. unfold swept. cbn [existsb]. rewrite Hold.
      cbn [andb]. now rewrite negb_orb.
    + rewrite (bind_Ok _ _ w tt w [] eq_refl), IH, after_pair.
      cbn [app]. f_equal. f_equal. f_equal.
      apply filter_ext. intros o. unfold swept. cbn [existsb]. now rewrite Hold.
Qed.

(** X17. The Retention Sweep with a store that answers: it lists one page under
    the prefix and deletes every object of the page that was last modified
    before the cutoff, whatever its key; the other objects stay. *)
Theorem sweep_deletes_old_listed w :
  fault env (EvList (sweepPrefix config)) = None ->
  cleanupOldBackups env config w
  = (Ok tt,
     setObjects (filter (fun o => negb (swept env config (sweepPage config w) o))
                        (objects w)) w,
     EvList (sweepPrefix config) :: sweepEvents env config (sweepPage config w)).
Proof.
  intros Hl. unfold cleanupOldBackups.
  fold (cutoffDate env config). fold (sweepPrefix config).
  apply try_Ok.
  assert (Hlist : listObjects env (sweepPrefix config) w
                  = (Ok (match sweepPage config w with
                         | [] => None
                         | page => Some page
                         end), w, [EvList (sweepPrefix config)])).
  { unfold listObjects, io. rewrite Hl. fold (sweepPage config w).
    now destruct (sweepPage config w). }
  rewrite (bind_Ok _ _ _ _ _ _ Hlist).
  destruct (sweepPage config w) as [|p page] eqn:Ep.
  - unfold ret, after, swept, sweepEvents. cbn.
    rewrite CleanupFacts.filter_all by reflexivity. now destruct w.
  - rewrite sweep_loop. reflexivity.
Qed.

End Facts.
End SweepFacts.

(** ** The older variant, the redaction and the choice of the procedure *)

Module LegacyFacts.
Import Eff Trace Tick EffFacts.

Section Facts.
Variable env : Env.
Variable config : Legacy.Config.

(** The probe of the older variant looks at the directory alone. *)
Lemma older_probe_result w :
  Legacy.getCurrentFullBackupDir env config w
  = (Ok (if exists_ (olderTodayDir env config) (files w)
         then Some (olderTodayDir env config) else None),
     w, [EvAccess (olderTodayDir env config)]).
Proof.
  unfold Legacy.getCurrentFullBackupDir, try, bind, access.
  fold (olderTodayDir env config).
  destruct (exists_ (olderTodayDir env config) (files w)); reflexivity.
Qed.

(** A failed invocation throws an error whose message spells every argument
    out. *)
Lemma older_runCommand_failure command args w :
  exitCode env command args <> 0 ->
  outcome (Legacy.runCommand env command args w)
  = Throw (mkError "Error"
             (command ++ " " ++ Js.join " " args
              ++ " failed with exit code " ++ showZ (exitCode env command args))).
Proof.
  intros H. unfold Legacy.runCommand, bind, spawn.
  unfold exitCode in *.
  destruct (ending env command args) as [code| |e|e]; try (now elim H).
  cbn. destruct (code =? 0) eqn:E; [lia|reflexivity].
Qed.

End Facts.
End LegacyFacts.

Module MaskFacts.
Import Eff Trace Index.

Lemma maskArg_password pw : maskArg ("--password=" ++ pw) = "--password=***".
Proof. unfold maskArg, Js.startsWith. now rewrite JsFacts.prefix_app. Qed.

(** The redacted arguments do not depend on the password. *)
Lemma maskArg_independent pre post pw pw' :
  map maskArg (pre ++ ("--password=" ++ pw) :: post)
  = map maskArg (pre ++ ("--password=" ++ pw') :: post).
Proof. rewrite !map_app. cbn [map]. now rewrite !maskArg_password. Qed.

(** A failed invocation throws an error whose message carries the redacted
    arguments. *)
Lemma runCommand_failure env command args w :
  exitCode env command args <> 0 ->
  outcome (runCommand env command args w)
  = Throw (mkError "Error"
             (command ++ " " ++ Js.join " " (map maskArg args)
              ++ " failed with exit code " ++ showZ (exitCode env command args))).
Proof.
  intros H. unfold runCommand, bind, spawn.
  unfold exitCode in *.
  destruct (ending env command args) as [code| |e|e]; try (now elim H).
  cbn. destruct (code =? 0) eqn:E; [lia|reflexivity].
Qed.

Lemma restore_runCommand_failure env command args w :
  exitCode env command args <> 0 ->
  outcome (Restore.runCommand env command args w)
  = Throw (mkError "Error"
             (command ++ " " ++ Js.join " " (map maskArg args)
              ++ " failed with exit code " ++ showZ (exitCode env command args))).
Proof.
  intros H. unfold Restore.runCommand, bind, spawn.
  unfold exitCode in *.
  destruct (ending env command args) as [code| |e|e]; try (now elim H).
  cbn. destruct (code =? 0) eqn:E; [lia|reflexivity].
Qed.

End MaskFacts.

Module ProcedureFacts.
Import Eff Trace Index Tick EffFacts TickFacts.

Section Facts.
Variable env : Env.
Variable config : Config.

(** The Incremental Backup Procedure hands the directory it is given to the
    engine as the base. *)
Lemma incremental_relative_to baseDir w :
  let incrementalDir := Js.pathJoin (backupRoot config)
                          ("inc_backup_" ++ formatDateTime (now env)) in
  fault env (EvMkdir incrementalDir) = None ->
  exists rest,
    events (performIncrementalBackup env config baseDir w)
    = EvStdout (consoleLine env ["Performing incremental backup..."])
      :: EvMkdir incrementalDir
      :: EvSpawn "xtrabackup"
           ["--backup";
            "--user=" ++ dbUser config;
            "--password=" ++ dbPassword config;
            "--host=" ++ dbHost config;
            "--port=" ++ dbPort config;
            "--target-dir=" ++ incrementalDir;
            "--incremental-basedir=" ++ baseDir;
            "--no-lock"]
      :: rest.
Proof.
  intros incrementalDir Hf. unfold performIncrementalBackup.
  erewrite bind_Ok by reflexivity. unfold after. cbn [events snd].
  match goal with
  | |- context [try ?m ?h w] => destruct (events_try m h w) as [r1 ->]
  end.
  fold incrementalDir.
  match goal with
  | |- context [bind (mkdir env incrementalDir) ?k w] =>
      assert (Hm : exists w1, mkdir env incrementalDir w
                              = (Ok tt, w1, [EvMkdir incrementalDir]))
        by (unfold mkdir, io; rewrite Hf; eexists; reflexivity);
      destruct Hm as [w1 Hm]; rewrite (bind_Ok _ k w tt w1 _ Hm)
  end.
  unfold after. cbn [events snd].
  match goal with
  | |- context [bind ?m ?k w1] => destruct (events_bind m k w1) as [r2 ->]
  end.
  unfold runCommand at 1.
  match goal with
  | |- context [bind ?m ?k w1] => destruct (events_bind m k w1) as [r3 ->]
  end.
  unfold spawn. destruct (ending env _ _); cbn [events snd app];
    eexists; reflexivity.
Qed.

(** A tick probes, then runs the procedure the probe selects: the Full
    Backup Procedure unless today's directory and its completion marker are
    both there, the Incremental Backup Procedure against today's directory
    otherwise. *)
Theorem tick_runs_selected_procedure w :
  exists rest,
    events (runBackup env config w)
    = (probeEvents env config w
       ++ events (procedure env config
                    (if baseExists env config w then Some (todayDir env config)
                     else None) w)
       ++ rest)%list.
Proof.
  pose proof (runBackup_cases env config w) as Hc. cbv zeta in Hc.
  destruct (procedure env config _ w) as [[[u|e|c] w1] t1];
    cbn [outcome world events fst snd] in *.
  - rewrite Hc. unfold after. cbn [events snd].
    exists (events (afterBackup env config w1)). now rewrite app_assoc.
  - rewrite Hc. cbn [events snd]. now exists [failedLine env e].
  - destruct Hc as [-> _]. cbn [events snd]. exists []. now rewrite app_nil_r.
Qed.

End Facts.
End ProcedureFacts.

(** ** What else the code shows *)

(** *** The redaction of messages *)

Module SanitizeFacts.
Import Eff Index JsFacts.

Lemma prefix_space lit c s :
  Js.isSpace c = true -> solid lit = true -> lit <> "" ->
  String.prefix lit (String c s) = false.
Proof.
  intros Hc Hl Hne. destruct lit as [|a lit]; [congruence|].
  rewrite prefix_cons. cbn in Hl. apply andb_true_iff in Hl as [Ha _].
  destruct (Ascii.eqb a c) eqn:E; [|reflexivity].
  apply Ascii.eqb_eq in E. subst. rewrite Hc in Ha. discriminate.
Qed.

(** A blank is copied, and ends a masked run. *)
Lemma mask_blank run c s :
  Js.isSpace c = true ->
  maskPasswords 0 run (String c s) = String c (maskPasswords 0 false s).
Proof.
  intros Hc. cbn [maskPasswords]. rewrite Hc. cbn [negb andb].
  rewrite andb_false_r.
  rewrite (prefix_space "--password=" c s Hc) by (reflexivity || discriminate).
  reflexivity.
Qed.

Lemma mask_end run : maskPasswords 0 run "" = "".
Proof. reflexivity. Qed.

(** Inside a masked run the characters up to the next blank are dropped. *)
Lemma mask_run pw rest :
  solid pw = true ->
  (rest = "" \/ exists c r, rest = String c r /\ Js.isSpace c = true) ->
  maskPasswords 0 true (pw ++ rest) = maskPasswords 0 false rest.
Proof.
  intros Hpw Hrest. induction pw as [|c pw IH].
  - cbn [append]. destruct Hrest as [->|(c & r & -> & Hc)]; [reflexivity|].
    now rewrite !mask_blank.
  - cbn in Hpw. apply andb_true_iff in Hpw as [Hc Hpw].
    cbn [append maskPasswords]. rewrite Hc. cbn [andb]. now apply IH.
Qed.

Lemma mask_step run c s :
  maskPasswords 0 run (String c s)
  = if run && negb (Js.isSpace c) then maskPasswords 0 true s
    else if String.prefix "--password=" (String c s)
            && match String.get 11 (String c s) with
               | Some c' => negb (Js.isSpace c')
               | None => false
               end
         then "--password=***" ++ maskPasswords 10 true s
         else String c (maskPasswords 0 false s).
Proof. reflexivity. Qed.

Lemma mask_match pw rest :
  pw <> "" -> solid pw = true ->
  (rest = "" \/ exists c r, rest = String c r /\ Js.isSpace c = true) ->
  maskPasswords 0 false ("--password=" ++ pw ++ rest)
  = "--password=***" ++ maskPasswords 0 false rest.
Proof.
  intros Hne Hpw Hrest. destruct pw as [|c pw]; [congruence|].
  pose proof Hpw as Hpw'. cbn in Hpw'. apply andb_true_iff in Hpw' as [Hc _].
  change ("--password=" ++ String c pw ++ rest)
    with (String "-" ("-password=" ++ String c pw ++ rest)).
  rewrite mask_step. cbn [andb].
  change (String "-" ("-password=" ++ String c pw ++ rest))
    with ("--password=" ++ String c pw ++ rest).
  rewrite (prefix_app "--password=" (String c pw ++ rest)).
  cbn [append String.get andb]. rewrite Hc. cbn [andb].
  f_equal. cbn [maskPasswords]. rewrite Hc. cbn [andb].
  cbn in Hpw. apply andb_true_iff in Hpw as [_ Hpw].
  now rewrite (mask_run pw rest Hpw Hrest).
Qed.

Lemma prefix_before_blank lit pre c s :
  Js.isSpace c = true -> solid lit = true ->
  String.prefix lit (pre ++ String c s) = String.prefix lit pre.
Proof.
  intros Hc. revert pre. induction lit as [|a lit IH]; intros pre Hl.
  - now rewrite !prefix_nil.
  - destruct pre as [|b pre].
    + cbn [append]. rewrite (prefix_space (String a lit) c s Hc Hl) by discriminate.
      reflexivity.
    + cbn [append]. rewrite !prefix_cons. cbn in Hl.
      apply andb_true_iff in Hl as [_ Hl]. now rewrite IH.
Qed.

(** Masking works blank-delimited word by word. *)
Lemma mask_app_blank pre : forall lit run c s,
  Js.isSpace c = true -> (lit <= String.length pre)%nat ->
  maskPasswords lit run (pre ++ String c s)
  = maskPasswords lit run pre ++ String c (maskPasswords 0 false s).
Proof.
  induction pre as [|b pre IH]; intros lit run c s Hc Hlit.
  - cbn in Hlit. assert (lit = 0%nat) by lia. subst lit.
    cbn [append]. now rewrite mask_blank.
  - destruct lit as [|k].
    + change (String b pre ++ String c s) with (String b (pre ++ String c s)).
      rewrite !mask_step.
      destruct (run && negb (Js.isSpace b)) eqn:Hrun.
      { apply IH; [exact Hc|lia]. }
      change (String b (pre ++ String c s)) with (String b pre ++ String c s).
      rewrite (prefix_before_blank "--password=" (String b pre) c s Hc eq_refl).
      destruct (String.prefix "--password=" (String b pre)) eqn:Hp.
      * apply prefix_exists in Hp as [q Hq].
        assert (G1 : String.get 11 (String b pre ++ String c s)
                     = match q with EmptyString => Some c | String d _ => Some d end)
          by (rewrite Hq; destruct q; reflexivity).
        assert (G2 : String.get 11 (String b pre)
                     = match q with EmptyString => None | String d _ => Some d end)
          by (rewrite Hq; destruct q; reflexivity).
        assert (Hlen : String.length (String b pre)
                       = (11 + String.length q)%nat)
          by (rewrite Hq, length_app_s; reflexivity).
        rewrite G1, G2. cbn [andb]. destruct q as [|d q].
        -- rewrite Hc. cbn [negb append]. f_equal.
           apply (IH 0%nat false c s Hc). lia.
        -- destruct (negb (Js.isSpace d)).
           ++ rewrite app_assoc_s. f_equal.
              apply IH; [exact Hc|]. cbn in Hlen. lia.
           ++ cbn [append]. f_equal. apply (IH 0%nat false c s Hc). lia.
      * cbn [andb append]. f_equal. apply IH; [exact Hc|lia].
    + cbn [append maskPasswords]. apply IH; [exact Hc|]. cbn in Hlit. lia.
Qed.

Lemma mask_plain s :
  Trace.contains "--password=" s = false -> maskPasswords 0 false s = s.
Proof.
  induction s as [|c s IH]; intros H; [reflexivity|].
  cbn [Trace.contains] in H. apply orb_false_iff in H as [Hp Hs].
  rewrite mask_step. cbn [andb]. rewrite Hp. cbn [andb]. now rewrite (IH Hs).
Qed.

(** X1. What [sanitizeError] prints for an error whose message holds the
    word [--password=<pw>], at the start or after a blank, and followed by a
    blank or by the end, a blank being a character of the class [\s] (the
    no-break space is one): the word is replaced by [--password=***] and the
    text on either side is masked on its own; a message that does not
    mention [--password=] is printed as it is. *)
Theorem sanitizeError_masks_word kind lead pw rest :
  (lead = "" \/ exists u b, lead = u ++ String b "" /\ Js.isSpace b = true) ->
  pw <> "" -> solid pw = true ->
  (rest = "" \/ exists c r, rest = String c r /\ Js.isSpace c = true) ->
  sanitizeError (mkError kind (lead ++ "--password=" ++ pw ++ rest))
  = maskPasswords 0 false lead ++ "--password=***" ++ maskPasswords 0 false rest
  /\ (forall text, text <> "" -> Trace.contains "--password=" text = false ->
                   sanitizeError (mkError kind text) = text).
Proof.
  intros Hlead Hne Hpw Hrest. split.
  - unfold sanitizeError. cbn [message].
    replace (String.eqb (lead ++ "--password=" ++ pw ++ rest) "") with false
      by (destruct lead; reflexivity).
    destruct Hlead as [->|(u & b & -> & Hb)].
    + cbn [append]. apply (mask_match pw rest Hne Hpw Hrest).
    + rewrite app_assoc_s.
      change (String b "" ++ "--password=" ++ pw ++ rest)
        with (String b ("--password=" ++ pw ++ rest)).
      rewrite (mask_app_blank u 0 false b _ Hb) by lia.
      rewrite (mask_app_blank u 0 false b "" Hb) by lia.
      rewrite (mask_match pw rest Hne Hpw Hrest).
      rewrite app_assoc_s. reflexivity.
  - intros text Ht Hno. unfold sanitizeError. cbn [message].
    destruct text as [|c text]; [congruence|]. cbn [String.eqb].
    now apply mask_plain.
Qed.

End SanitizeFacts.

(** *** [DB_HOST] and the proxy URL *)

Module StartupFacts.
Import Eff Startup JsFacts.

Lemma split_plain c s :
  includes c s = false -> split c s = [s].
Proof.
  induction s as [|c' s IH]; [reflexivity|]. cbn [includes split].
  intros H. apply orb_false_iff in H as [Hc Hs]. rewrite Hc, (IH Hs). reflexivity.
Qed.

Lemma split_app c a b :
  includes c a = false ->
  split c (a ++ String c b) = a :: split c b.
Proof.
  induction a as [|c' a IH]; intros H.
  - cbn [append split]. now rewrite Ascii.eqb_refl.
  - cbn [includes] in H. apply orb_false_iff in H as [Hc Ha].
    cbn [append split]. rewrite Hc, (IH Ha). reflexivity.
Qed.

Lemma includes_app c a b : includes c (a ++ b) = includes c a || includes c b.
Proof.
  induction a as [|c' a IH]; [reflexivity|]. cbn [append includes].
  now rewrite IH, orb_assoc.
Qed.

(** X3. [DB_HOST] without a colon is the host, with the default port; with
    colons, the host is the text before the first and the port the text
    between the first and the second: what follows a second colon is
    dropped, and a colon at the end gives the empty port. *)
Theorem parseDbHost_cases host port rest :
  includes ":" host = false -> includes ":" port = false ->
  parseDbHost host = (host, "3306")
  /\ parseDbHost (host ++ ":" ++ port) = (host, port)
  /\ parseDbHost (host ++ ":" ++ port ++ ":" ++ rest) = (host, port).
Proof.
  intros Hh Hp. unfold parseDbHost. repeat split.
  - now rewrite Hh.
  - rewrite includes_app. cbn [append includes]. rewrite Ascii.eqb_refl, orb_true_r.
    rewrite (split_app ":" host port Hh), (split_plain ":" port Hp). reflexivity.
  - rewrite includes_app. cbn [append includes]. rewrite Ascii.eqb_refl, orb_true_r.
    rewrite (split_app ":" host (port ++ String ":" rest) Hh).
    rewrite (split_app ":" port rest Hp). reflexivity.
Qed.

Lemma parseDbHost_cases_witness :
  includes ":" "db.internal" = false /\ includes ":" "3307" = false
  /\ parseDbHost "db.internal" = ("db.internal", "3306")
  /\ parseDbHost ("db.internal" ++ ":" ++ "3307") = ("db.internal", "3307")
  /\ parseDbHost ("db.internal" ++ ":" ++ "3307" ++ ":" ++ "x") = ("db.internal", "3307").
Proof.
  split; [reflexivity|]. split; [reflexivity|].
  apply (parseDbHost_cases "db.internal" "3307" "x"); reflexivity.
Defined.

Lemma afterAt_app cred rest :
  includes "@" cred = false -> afterAt (cred ++ String "@" rest) = Some rest.
Proof.
  induction cred as [|c cred IH]; intros H; [reflexivity|].
  cbn [includes] in H. apply orb_false_iff in H as [Hc Hcred].
  cbn [append afterAt]. rewrite Hc. now apply IH.
Qed.

Lemma afterAt_none s : includes "@" s = false -> afterAt s = None.
Proof.
  induction s as [|c s IH]; intros H; [reflexivity|].
  cbn [includes] in H. apply orb_false_iff in H as [Hc Hs].
  cbn [afterAt]. rewrite Hc. now apply IH.
Qed.

Lemma redactProxy_step c s :
  redactProxy (String c s)
  = if String.prefix "://" (String c s) then
      match Js.sliceFrom 3 (String c s) with
      | String c1 r =>
          if Ascii.eqb c1 "@" then String c (redactProxy s)
          else match afterAt r with
               | Some rest => "://***@" ++ rest
               | None => String c (redactProxy s)
               end
      | EmptyString => String c (redactProxy s)
      end
    else String c (redactProxy s).
Proof. reflexivity. Qed.

Lemma sliceFrom_tail n s : includes "@" s = false ->
  includes "@" (Js.sliceFrom n s) = false.
Proof.
  revert s. induction n as [|n IH]; intros s H; [exact H|].
  destruct s as [|c s]; [reflexivity|]. cbn [Js.sliceFrom].
  cbn [includes] in H. apply orb_false_iff in H as [_ H]. now apply IH.
Qed.

Lemma redactProxy_plain s : includes "@" s = false -> redactProxy s = s.
Proof.
  induction s as [|c s IH]; intros H; [reflexivity|].
  pose proof H as H'. cbn [includes] in H'. apply orb_false_iff in H' as [_ Hs].
  rewrite redactProxy_step, (IH Hs).
  destruct (String.prefix "://" (String c s)); [|reflexivity].
  pose proof (sliceFrom_tail 3 (String c s) H) as Ht.
  destruct (Js.sliceFrom 3 (String c s)) as [|c1 r]; [reflexivity|].
  cbn [includes] in Ht. apply orb_false_iff in Ht as [Hc1 Hr].
  rewrite Hc1, (afterAt_none r Hr). reflexivity.
Qed.

(** The line that announces the proxy hides the credentials: in a URL
    [scheme://credentials@rest] the credentials are replaced by [***]; a URL
    without an [@] is shown as it is. *)
Theorem redactProxy_credentials scheme credentials rest :
  includes ":" scheme = false ->
  credentials <> "" -> includes "@" credentials = false ->
  redactProxy (scheme ++ "://" ++ credentials ++ "@" ++ rest)
  = scheme ++ "://***@" ++ rest.
Proof.
  intros Hs Hne Hat. induction scheme as [|c scheme IH].
  - destruct credentials as [|c1 cred]; [congruence|].
    cbn [includes] in Hat. apply orb_false_iff in Hat as [Hc1 Hcred].
    cbn [append]. rewrite redactProxy_step.
    change (String.prefix "://" (String ":" (String "/" (String "/" (String c1 (cred ++ String "@" rest))))))
      with (String.prefix "://" ("://" ++ String c1 (cred ++ String "@" rest))).
    rewrite prefix_app. cbn [Js.sliceFrom]. rewrite Hc1.
    now rewrite (afterAt_app cred rest Hcred).
  - cbn [includes] in Hs. apply orb_false_iff in Hs as [Hc Hs].
    cbn [append]. rewrite redactProxy_step, prefix_cons.
    rewrite Ascii.eqb_sym, Hc. cbn [andb]. f_equal. now apply IH.
Qed.

Lemma redactProxy_credentials_witness :
  includes ":" "http" = false /\ "user:pw" <> "" /\ includes "@" "user:pw" = false
  /\ redactProxy ("http" ++ "://" ++ "user:pw" ++ "@" ++ "proxy:8080")
     = "http" ++ "://***@" ++ "proxy:8080".
Proof.
  split; [reflexivity|]. split; [discriminate|]. split; [reflexivity|].
  apply (redactProxy_credentials "http" "user:pw" "proxy:8080");
    [reflexivity | discriminate | reflexivity].
Defined.

End StartupFacts.

(** *** The checks at the start *)

Module StartupRuns.
Import Eff Trace Startup EffFacts Tick TickFacts.

Section Facts.
Variable env : Env.
Variable getenv : string -> string.
Variable agentError : Agent -> option JsError.

Section Check.
Variable report : string -> M unit.
Variable line : string -> string.
Hypothesis report_line : forall v w, report v w = (Ok tt, w, [EvStderr (line v)]).

Lemma check_all vars w :
  (forall v, In v vars -> getenv v <> "") ->
  forEach (fun envVar => if String.eqb (getenv envVar) "" then report envVar ;; exit 1
                         else ret tt) vars w
  = (Ok tt, w, []).
Proof.
  revert w. induction vars as [|v vars IH]; intros w H; [reflexivity|].
  cbn [forEach].
  assert (Hv : String.eqb (getenv v) "" = false)
    by (apply String.eqb_neq, H; now left).
  rewrite Hv. rewrite (bind_Ok _ _ w tt w [] eq_refl), IH; [reflexivity|].
  intros u Hu. apply H. now right.
Qed.

Lemma check_first pre v post w :
  (forall u, In u pre -> getenv u <> "") -> getenv v = "" ->
  forEach (fun envVar => if String.eqb (getenv envVar) "" then report envVar ;; exit 1
                         else ret tt) (pre ++ v :: post) w
  = (Halt 1, w, [EvStderr (line v)]).
Proof.
  revert w. induction pre as [|u pre IH]; intros w H Hv.
  - cbn [app forEach]. rewrite Hv. cbn [String.eqb].
    apply bind_Halt.
    rewrite (bind_Ok _ _ w tt w _ (report_line v w)). reflexivity.
  - cbn [app forEach].
    assert (Hu : String.eqb (getenv u) "" = false)
      by (apply String.eqb_neq, H; now left).
    rewrite Hu. rewrite (bind_Ok _ _ w tt w [] eq_refl), IH; [reflexivity| |exact Hv].
    intros x Hx. apply H. now right.
Qed.

End Check.

(** X2. The check of the environment at the start: when every required
    variable is set and not empty nothing is printed and the start goes on;
    otherwise the first one of the list that is missing is reported, alone,
    and the process exits with code 1. The scheduler reports through
    [logError], the restore tool with a bare [console.error]. *)
Theorem validateEnv_first_missing w :
  ((forall v, In v requiredEnvVars -> getenv v <> "") ->
   validateEnv env getenv w = (Ok tt, w, []))
  /\ (forall pre v post,
        requiredEnvVars = (pre ++ v :: post)%list ->
        (forall u, In u pre -> getenv u <> "") -> getenv v = "" ->
        validateEnv env getenv w
        = (Halt 1, w, [EvStderr (consoleLine env [notSet v])]))
  /\ ((forall v, In v restoreEnvVars -> getenv v <> "") ->
      validateRestoreEnv getenv w = (Ok tt, w, []))
  /\ (forall pre v post,
        restoreEnvVars = (pre ++ v :: post)%list ->
        (forall u, In u pre -> getenv u <> "") -> getenv v = "" ->
        validateRestoreEnv getenv w = (Halt 1, w, [EvStderr (notSet v)])).
Proof.
  unfold validateEnv, validateRestoreEnv. repeat split.
  - intros H.
    apply check_all. exact H.
  - intros pre v post -> Hpre Hv.
    apply check_first with (line := fun v => consoleLine env [notSet v]);
      [reflexivity | exact Hpre | exact Hv].
  - intros H. apply check_all. exact H.
  - intros pre v post -> Hpre Hv.
    apply check_first with (line := notSet); [reflexivity | exact Hpre | exact Hv].
Qed.

Lemma prefix_before_sep lit pre c s :
  includes c lit = false ->
  String.prefix lit (pre ++ String c s) = String.prefix lit pre.
Proof.
  revert pre. induction lit as [|a lit IH]; intros pre Hl.
  - now rewrite !JsFacts.prefix_nil.
  - cbn [includes] in Hl. apply orb_false_iff in Hl as [Ha Hl].
    destruct pre as [|b pre].
    + cbn [append]. rewrite JsFacts.prefix_cons, Ha. reflexivity.
    + cbn [append]. rewrite !JsFacts.prefix_cons. now rewrite IH.
Qed.

Lemma prefix_scheme a : forall scheme p t,
  includes ":" a = false -> includes ":" scheme = false ->
  String.prefix (a ++ String ":" p) (scheme ++ String ":" t)
  = String.eqb scheme a && String.prefix p t.
Proof.
  induction a as [|x a IH]; intros scheme p t Ha Hs.
  - destruct scheme as [|c scheme].
    + cbn [append]. now rewrite JsFacts.prefix_cons, Ascii.eqb_refl.
    + cbn [includes] in Hs. apply orb_false_iff in Hs as [Hc _].
      cbn [append]. rewrite JsFacts.prefix_cons, Ascii.eqb_sym, Hc. reflexivity.
  - cbn [includes] in Ha. apply orb_false_iff in Ha as [Hx Ha].
    destruct scheme as [|c scheme].
    + cbn [append]. rewrite JsFacts.prefix_cons, Hx. reflexivity.
    + cbn [includes] in Hs. apply orb_false_iff in Hs as [_ Hs].
      cbn [append String.eqb]. rewrite JsFacts.prefix_cons, (IH scheme p t Ha Hs).
      now rewrite Ascii.eqb_sym, andb_assoc.
Qed.

(** X4. The proxy at the start: for a URL [scheme://credentials@rest] of a
    scheme the code knows (http, https, or one that starts with "socks") the
    only line logged is "Using proxy:" with the credentials replaced by
    [***]; for any other scheme a warning comes first that prints the URL as
    it is, credentials included. *)
Theorem useProxy_lines scheme credentials rest w :
  includes ":" scheme = false ->
  credentials <> "" -> includes "@" credentials = false ->
  (forall agent, agentError agent = None) ->
  logLines (events (useProxy env agentError
                      (scheme ++ "://" ++ credentials ++ "@" ++ rest) w))
  = List.app
      (if Js.startsWith scheme "socks" || String.eqb scheme "http"
          || String.eqb scheme "https"
       then []
       else [consoleLine env
               ["Warning: Unknown proxy protocol in "
                ++ (scheme ++ "://" ++ credentials ++ "@" ++ rest)
                ++ ", using https-proxy-agent"]])
      [consoleLine env ["Using proxy: " ++ scheme ++ "://***@" ++ rest]].
Proof.
  intros Hs Hne Hat Hok.
  set (proxy := scheme ++ "://" ++ credentials ++ "@" ++ rest).
  assert (Hred : redactProxy proxy = scheme ++ "://***@" ++ rest)
    by (apply StartupFacts.redactProxy_credentials; assumption).
  assert (Hsocks : Js.startsWith proxy "socks" = Js.startsWith scheme "socks").
  { unfold Js.startsWith, proxy.
    change ("://" ++ credentials ++ "@" ++ rest)
      with (String ":" ("//" ++ credentials ++ "@" ++ rest)).
    now apply prefix_before_sep. }
  assert (Hslashes : String.prefix "//" ("//" ++ credentials ++ "@" ++ rest) = true)
    by apply JsFacts.prefix_app.
  assert (Hhttp : Js.startsWith proxy "http://" = String.eqb scheme "http").
  { unfold Js.startsWith, proxy.
    change "http://" with ("http" ++ String ":" "//").
    change ("://" ++ credentials ++ "@" ++ rest)
      with (String ":" ("//" ++ credentials ++ "@" ++ rest)).
    rewrite prefix_scheme by (reflexivity || exact Hs).
    now rewrite Hslashes, andb_true_r. }
  assert (Hhttps : Js.startsWith proxy "https://" = String.eqb scheme "https").
  { unfold Js.startsWith, proxy.
    change "https://" with ("https" ++ String ":" "//").
    change ("://" ++ credentials ++ "@" ++ rest)
      with (String ":" ("//" ++ credentials ++ "@" ++ rest)).
    rewrite prefix_scheme by (reflexivity || exact Hs).
    now rewrite Hslashes, andb_true_r. }
  assert (H5 : Js.startsWith proxy "socks5://" = true ->
               Js.startsWith proxy "socks" = true).
  { unfold Js.startsWith. intros H. apply JsFacts.prefix_exists in H as [q ->].
    apply (JsFacts.prefix_app "socks" ("5://" ++ q)). }
  assert (Hproxy : String.eqb proxy "" = false)
    by (unfold proxy; destruct scheme; reflexivity).
  unfold useProxy, getProxyAgent, construct. rewrite Hproxy, Hred, Hhttp, Hhttps.
  rewrite <- Hsocks.
  destruct (Js.startsWith proxy "socks") eqn:E1; cbn [orb].
  - rewrite Hok. reflexivity.
  - destruct (Js.startsWith proxy "socks5://") eqn:E5;
      [specialize (H5 eq_refl); discriminate|].
    destruct (String.eqb scheme "http" || String.eqb scheme "https") eqn:E2.
    + rewrite Hok. reflexivity.
    + rewrite Hok. reflexivity.
Qed.

End Facts.
End StartupRuns.

(** *** The main loop *)

Module LoopFacts.
Import Eff Trace Startup EffFacts Tick TickFacts Index.

Section Facts.
Variable config : Config.

(** How a tick ends: it returns, or it reports its failure and exits with
    code 1, or a tool that cannot be started ends the process with code 1 and
    the last thing written is the report of the uncaught exception. *)
Lemma runBackup_ends tick w :
  (exists w1 t1, runBackup tick config w = (Ok tt, w1, t1))
  \/ (exists w1 t0 e, runBackup tick config w
                      = (Halt 1, w1, (t0 ++ [failedLine tick e])%list))
  \/ (exists w1 t0 command args e,
        ending tick command args = NoStart e
        /\ runBackup tick config w
           = (Halt 1, w1, (t0 ++ [EvSpawn command args; EvUncaught e args])%list)).
Proof.
  pose proof (runBackup_cases tick config w) as Hc. cbv zeta in Hc.
  destruct (procedure tick config _ w) as [[[u|e|c] w1] t1];
    cbn [outcome world events fst snd] in Hc.
  - left. destruct (afterBackup_result tick config w1)
      as (w2 & t2 & w3 & t3 & _ & _ & Eab).
    rewrite Hc, Eab. unfold after. cbn [outcome world events fst snd].
    eexists. eexists. reflexivity.
  - right. left. rewrite Hc. exists w1, (probeEvents tick config w ++ t1)%list, e.
    now rewrite app_assoc.
  - right. right. destruct Hc as (Hc & _ & t0 & command & args & e & He & ->).
    exists w1, (probeEvents tick config w ++ t0)%list, command, args, e.
    split; [exact He|]. rewrite Hc. now rewrite app_assoc.
Qed.

Lemma loop_runs ticks : forall w,
  exists t r w',
    loops config ticks w t r w'
    /\ forEach (fun tick => runBackup tick config ;;
                            log tick "Sleeping for 1 hours...") ticks w
       = (r, w', t).
Proof.
  induction ticks as [|tick ticks IH]; intros w.
  - exists [], (Ok tt), w. split; [constructor|reflexivity].
  - cbn [forEach].
    destruct (runBackup_ends tick w)
      as [(w1 & t1 & E)|[(w1 & t0 & e & E)|(w1 & t0 & c & a & e & _ & E)]].
    + destruct (IH w1) as (t & r & w' & Hl & El).
      exists (t1 ++ EvStdout (consoleLine tick ["Sleeping for 1 hours..."]) :: t)%list,
             r, w'.
      split; [now apply loops_tick with (w1 := w1)|].
      assert (Hbody : (runBackup tick config ;; log tick "Sleeping for 1 hours...") w
                      = (Ok tt, w1,
                         (t1 ++ [EvStdout (consoleLine tick ["Sleeping for 1 hours..."])])%list))
        by (rewrite (bind_Ok _ _ _ _ _ _ E); reflexivity).
      rewrite (bind_Ok _ _ _ _ _ _ Hbody), El. unfold after.
      cbn [outcome world events fst snd]. now rewrite <- app_assoc.
    + exists (t0 ++ [failedLine tick e])%list, (Halt 1), w1.
      split; [apply loops_exit; exact E|].
      apply bind_Halt. now apply bind_Halt.
    + exists (t0 ++ [EvSpawn c a; EvUncaught e a])%list, (Halt 1), w1.
      split; [apply loops_exit; exact E|].
      apply bind_Halt. now apply bind_Halt.
Qed.

(** X5. The main loop of the scheduler. When the working root cannot be
    created the process reports "Fatal error:" and exits with code 1 before
    any tick. Otherwise the start is logged and the loop runs the ticks in
    order, each from the world the one before has left and each one that
    returns followed by the line "Sleeping for 1 hours..."; the loop ends
    with the first tick that ends the process. A tick ends in one of three
    ways: it returns; or it fails, and its "Backup failed:" line is the last
    thing the process writes before it exits with code 1; or a tool cannot be
    started, and the process ends with code 1 on the report of the uncaught
    exception, with no "Backup failed:" line. *)
Theorem main_ends startup ticks w :
  (forall e,
      fault startup (EvMkdir (backupRoot config)) = Some e ->
      main startup ticks config w
      = (Halt 1, w,
         [EvMkdir (backupRoot config);
          EvStderr (consoleLine startup ["Fatal error:"; sanitizeError e])]))
  /\ (fault startup (EvMkdir (backupRoot config)) = None ->
      exists t r w',
        loops config ticks (world (mkdir startup (backupRoot config) w)) t r w'
        /\ main startup ticks config w
           = (r, w',
              EvMkdir (backupRoot config)
              :: EvStdout (consoleLine startup
                             ["Created backup directory: " ++ backupRoot config])
              :: t))
  /\ (forall tick w0,
        outcome (runBackup tick config w0) = Ok tt
        \/ (outcome (runBackup tick config w0) = Halt 1
            /\ exists t0 e,
                 events (runBackup tick config w0)
                 = (t0 ++ [failedLine tick e])%list)
        \/ (outcome (runBackup tick config w0) = Halt 1
            /\ exists t0 command args e,
                 ending tick command args = NoStart e
                 /\ events (runBackup tick config w0)
                    = (t0 ++ [EvSpawn command args; EvUncaught e args])%list)).
Proof.
  split; [|split].
  - intros e He. unfold main.
    match goal with
    | |- try ?m ?h w = _ =>
        assert (Hbody : m w = (Throw e, w, [EvMkdir (backupRoot config)]))
    end.
    { apply bind_Throw. unfold mkdir, io. now rewrite He. }
    rewrite (try_Throw _ _ _ _ _ _ Hbody). reflexivity.
  - intros Hok. unfold main.
    assert (Hm : mkdir startup (backupRoot config) w
                 = (Ok tt, world (mkdir startup (backupRoot config) w),
                    [EvMkdir (backupRoot config)]))
      by (unfold mkdir, io; rewrite Hok; reflexivity).
    destruct (loop_runs ticks (world (mkdir startup (backupRoot config) w)))
      as (t & r & w' & Hl & El).
    exists t, r, w'. split; [exact Hl|].
    match goal with
    | |- try ?m ?h w = _ =>
        assert (Hbody : m w
                        = (r, w',
                           EvMkdir (backupRoot config)
                           :: EvStdout (consoleLine startup
                                  ["Created backup directory: " ++ backupRoot config])
                           :: t))
    end.
    { rewrite (bind_Ok _ _ _ _ _ _ Hm).
      rewrite (bind_Ok _ _ _ tt _ _ eq_refl), El. reflexivity. }
    assert (Hr : forall e, r <> Throw e).
    { clear Hbody El Hm. induction Hl; intros e0; try discriminate. apply IHHl. }
    destruct r as [[]|e|c].
    + now apply try_Ok.
    + now destruct (Hr e).
    + now apply try_Halt.
  - intros tick w0.
    destruct (runBackup_ends tick w0)
      as [(w1 & t1 & E)|[(w1 & t0 & e & E)|(w1 & t0 & c & a & e & He & E)]];
      rewrite E; cbn [outcome events fst snd].
    + now left.
    + right. left. split; [reflexivity|]. now exists t0, e.
    + right. right. split; [reflexivity|]. now exists t0, c, a, e.
Qed.

End Facts.
End LoopFacts.

(** *** The listing of the restore tool *)

Module CatalogFacts.
Import Eff Restore Naming Chain Catalog Pipeline ChainFacts.

Lemma notEarlier_trans a b c : notEarlier a b -> notEarlier b c -> notEarlier a c.
Proof.
  unfold notEarlier, dateGe. destruct (date a), (date b), (date c); try discriminate.
  rewrite !Z.leb_le. lia.
Qed.

Lemma notAfter_desc a b :
  dated a -> dated b ->
  notAfter (fun a b => dateSub (date b) (date a)) a b = true <-> notEarlier a b.
Proof.
  intros [x Hx] [y Hy]. unfold notAfter, notEarlier, dateSub, dateGe.
  rewrite Hx, Hy. rewrite !Z.leb_le. lia.
Qed.

Lemma notEarlier_total a b : dated a -> dated b -> notEarlier a b \/ notEarlier b a.
Proof.
  intros [x Hx] [y Hy]. unfold notEarlier, dateGe. rewrite Hx, Hy, !Z.leb_le. lia.
Qed.

Lemma insertBy_desc x l :
  dated x -> Forall dated l ->
  StronglySorted notEarlier l ->
  StronglySorted notEarlier (insertBy (fun a b => dateSub (date b) (date a)) x l).
Proof.
  intros Hx Hl Hs. induction Hs as [|y l Hs IH Hy]; simpl.
  - constructor; constructor.
  - inversion Hl as [|? ? Hdy Hdl]; subst.
    destruct (notAfter _ x y) eqn:E.
    + apply notAfter_desc in E; try assumption.
      constructor; [constructor; assumption|].
      constructor; [assumption|].
      eapply Forall_impl; [|exact Hy]. intros z Hz. eapply notEarlier_trans; eassumption.
    + constructor; [apply IH; assumption|].
      assert (Hyx : notEarlier y x).
      { destruct (notEarlier_total x y Hx Hdy) as [H|H]; [|exact H].
        apply notAfter_desc in H; try assumption. congruence. }
      eapply Permutation_Forall; [symmetry; apply insertBy_perm|].
      constructor; assumption.
Qed.

Lemma byDateDesc_sorted l :
  Forall dated l -> StronglySorted notEarlier (byDateDesc l).
Proof.
  unfold byDateDesc, sortBy. induction 1 as [|x l Hx Hl IH]; simpl.
  - constructor.
  - apply insertBy_desc; try assumption.
    eapply Permutation_Forall; [symmetry; apply (sortBy_perm _ l)|assumption].
Qed.

Lemma sorted_firstn {A} (R : A -> A -> Prop) n l :
  StronglySorted R l -> StronglySorted R (firstn n l).
Proof.
  revert l. induction n as [|n IH]; intros l H; [constructor|].
  destruct l as [|x l]; [constructor|]. inversion H as [|? ? Hs Hx]; subst.
  cbn [firstn]. constructor; [now apply IH|].
  apply Forall_forall. intros y Hy. rewrite Forall_forall in Hx. apply Hx.
  revert Hy. clear. revert l. induction n as [|n IH]; intros l Hy; [contradiction|].
  destruct l as [|z l]; [contradiction|]. destruct Hy as [->|Hy]; [now left|].
  right. now apply IH.
Qed.

Lemma sorted_split {A} (R : A -> A -> Prop) n l a b :
  StronglySorted R l -> In a (firstn n l) -> In b (skipn n l) -> R a b.
Proof.
  revert l. induction n as [|n IH]; intros l H Ha Hb; [contradiction|].
  destruct l as [|x l]; [contradiction|]. inversion H as [|? ? Hs Hx]; subst.
  cbn [firstn skipn] in Ha, Hb. destruct Ha as [->|Ha].
  - rewrite Forall_forall in Hx. apply Hx.
    rewrite <- (firstn_skipn n l). apply in_or_app. now right.
  - now apply (IH l).
Qed.

Section Listing.
Variable env : Env.
Variable config : Config.

(** X6. What [listBackups] answers when the store answers the listing: at
    most 20 records, each one made of an object of the page whose key ends in
    [.tar.gz], and every such object has its record when the page holds no
    more than 20 of them. When every record carries a valid date they come
    newest first, and the ones the cap leaves out are not newer than any that
    is kept. *)
Theorem listBackups_result w :
  fault env (EvList (listingPrefix config)) = None ->
  exists backups,
    listBackups env config w = (Ok backups, w, [EvList (listingPrefix config)])
    /\ (List.length backups <= 20)%nat
    /\ (forall b, In b backups -> recordOf (tzOffset env) (page config w) b)
    /\ ((List.length (page config w) <= 20)%nat ->
        forall b, recordOf (tzOffset env) (page config w) b -> In b backups)
    /\ (Forall dated (catalog (tzOffset env) (page config w)) ->
        StronglySorted notEarlier backups
        /\ forall a b, In a backups ->
                       recordOf (tzOffset env) (page config w) b ->
                       ~ In b backups -> notEarlier a b).
Proof.
  intros Hf. exists (recent (tzOffset env) (page config w)).
  split; [now apply ToolFacts.listBackups_ok|].
  set (contents := page config w). set (tz := tzOffset env).
  assert (Hrec : forall b, In b (catalog tz contents) <-> recordOf tz contents b).
  { intros b. unfold catalog, recordOf. rewrite in_map_iff. split.
    - intros (obj & <- & Hin). apply filter_In in Hin as [Hin He]. now exists obj.
    - intros (obj & Hin & He & ->). exists obj. split; [reflexivity|].
      apply filter_In. now split. }
  assert (Hperm : Permutation (byDateDesc (catalog tz contents)) (catalog tz contents))
    by apply sortBy_perm.
  unfold recent. split; [apply firstn_le_length|]. split; [|split].
  - intros b Hb. apply Hrec. apply (Permutation_in _ Hperm).
    rewrite <- (firstn_skipn 20). apply in_or_app. now left.
  - intros Hlen b Hb. apply Hrec in Hb.
    rewrite firstn_all2.
    + apply (Permutation_in _ (Permutation_sym Hperm)). exact Hb.
    + rewrite (Permutation_length Hperm). unfold catalog. rewrite length_map.
      etransitivity; [apply filter_length_le|exact Hlen].
  - intros Hd.
    assert (Hs : StronglySorted notEarlier (byDateDesc (catalog tz contents)))
      by (now apply byDateDesc_sorted).
    split; [now apply sorted_firstn|].
    intros a b Ha Hb Hnot. apply (sorted_split notEarlier 20 _ a b Hs Ha).
    apply Hrec in Hb. apply (Permutation_in _ (Permutation_sym Hperm)) in Hb.
    rewrite <- (firstn_skipn 20) in Hb. apply in_app_or in Hb as [Hb|Hb];
      [contradiction|exact Hb].
Qed.

End Listing.
End CatalogFacts.

(** *** Keys, written and read back *)

Module KeyFacts.
Import Eff Restore Naming Chain Catalog Js JsFacts NamingFacts.

Lemma same_day_fields t1 t2 :
  t1 / msPerDay = t2 / msPerDay ->
  yearOf t1 = yearOf t2 /\ monthOf t1 = monthOf t2 /\ dayOf t1 = dayOf t2.
Proof. unfold yearOf, monthOf, dayOf. now intros ->. Qed.

Lemma same_second_fields t1 t2 :
  t1 / 1000 = t2 / 1000 ->
  t1 / msPerDay = t2 / msPerDay
  /\ hourOf t1 = hourOf t2 /\ minuteOf t1 = minuteOf t2
  /\ secondOf t1 = secondOf t2.
Proof.
  unfold hourOf, minuteOf, secondOf, msPerDay. intros H.
  Z.div_mod_to_equations. lia.
Qed.

Lemma formatDate_day t1 t2 :
  fourDigitYear t1 -> t1 / msPerDay = t2 / msPerDay ->
  fourDigitYear t2 /\ Index.formatDate t1 = Index.formatDate t2.
Proof.
  intros Hy Hd. destruct (same_day_fields t1 t2 Hd) as (Ey & Em & Ed).
  assert (Hy2 : fourDigitYear t2) by (unfold fourDigitYear in *; now rewrite <- Ey).
  split; [exact Hy2|].
  rewrite (formatDate_shape t1 Hy), (formatDate_shape t2 Hy2). now rewrite Ey, Em, Ed.
Qed.

Lemma formatDateTime_second t1 t2 :
  fourDigitYear t1 -> t1 / 1000 = t2 / 1000 ->
  fourDigitYear t2 /\ Index.formatDateTime t1 = Index.formatDateTime t2.
Proof.
  intros Hy Hs. destruct (same_second_fields t1 t2 Hs) as (Hd & Eh & Emi & Es).
  destruct (same_day_fields t1 t2 Hd) as (Ey & Em & Ed).
  assert (Hy2 : fourDigitYear t2) by (unfold fourDigitYear in *; now rewrite <- Ey).
  split; [exact Hy2|].
  rewrite (formatDateTime_shape t1 Hy), (formatDateTime_shape t2 Hy2).
  now rewrite Ey, Em, Ed, Eh, Emi, Es.
Qed.

(** X7. Which instants share a key. Two Incrementals get the same key
    exactly when they start within the same second, two Fulls exactly when
    they start on the same UTC day (for years of four digits). *)
Theorem keys_identify t1 t2 :
  fourDigitYear t1 -> fourDigitYear t2 ->
  (incKey t1 = incKey t2 <-> t1 / 1000 = t2 / 1000)
  /\ (fullKey t1 = fullKey t2 <-> t1 / msPerDay = t2 / msPerDay).
Proof.
  intros H1 H2. split; split.
  - intros E.
    pose proof (decodeDate_incKey 0 t1 H1) as D1.
    pose proof (decodeDate_incKey 0 t2 H2) as D2.
    rewrite E, D2 in D1. injection D1 as D1.
    Z.div_mod_to_equations. lia.
  - intros E. unfold incKey. now rewrite (proj2 (formatDateTime_second t1 t2 H1 E)).
  - intros E. unfold fullKey in E.
    apply app_inv_head_s in E. apply app_inv_tail_s in E.
    now apply formatDate_inj.
  - intros E. unfold fullKey. now rewrite (proj2 (formatDate_day t1 t2 H1 E)).
Qed.

Lemma hasSlash_cat a b : hasSlash (a ++ b) = hasSlash a || hasSlash b.
Proof.
  induction a as [|c a IH]; [reflexivity|]. cbn [append hasSlash].
  now rewrite IH, orb_assoc.
Qed.

Lemma digit_noSlash n : Ascii.eqb (digit n) "/" = false.
Proof. now apply digit_eqb_sep. Qed.

Lemma pad2_noSlash n : hasSlash (pad2 n) = false.
Proof. unfold pad2. cbn [hasSlash]. now rewrite !digit_noSlash. Qed.

Lemma pad4_noSlash n : hasSlash (pad4 n) = false.
Proof. unfold pad4, pad3, pad2. cbn [hasSlash]. now rewrite !digit_noSlash. Qed.

Lemma incKey_noSlash t : fourDigitYear t -> hasSlash (incKey t) = false.
Proof.
  intros Hy. unfold incKey. rewrite (formatDateTime_shape t Hy).
  rewrite !hasSlash_cat, pad4_noSlash, !pad2_noSlash. reflexivity.
Qed.

Lemma fullKey_noSlash t : fourDigitYear t -> hasSlash (fullKey t) = false.
Proof.
  intros Hy. unfold fullKey. rewrite (formatDate_shape t Hy).
  rewrite !hasSlash_cat, pad4_noSlash, !pad2_noSlash. reflexivity.
Qed.

Lemma basenameFrom_plain s : forall acc,
  hasSlash s = false -> basenameFrom acc s = acc ++ s.
Proof.
  induction s as [|c s IH]; intros acc H.
  - cbn. now rewrite app_nil_r_s.
  - cbn [hasSlash] in H. apply orb_false_iff in H as [Hc Hs].
    cbn [basenameFrom]. rewrite Hc, (IH _ Hs), app_assoc_s. reflexivity.
Qed.

Lemma basenameFrom_dir p : forall acc s,
  basenameFrom acc (p ++ String "/" s) = basenameFrom "" s.
Proof.
  induction p as [|c p IH]; intros acc s; [reflexivity|].
  cbn [append basenameFrom]. destruct (Ascii.eqb c "/"); apply IH.
Qed.

(** The folder of a key: nothing, or a path that ends in a slash. *)
Lemma basename_in_folder folder name :
  (folder = "" \/ exists d, folder = d ++ "/") -> hasSlash name = false ->
  basename (folder ++ name) = name.
Proof.
  intros [->|[d ->]] Hn; unfold basename.
  - cbn [append]. now rewrite (basenameFrom_plain name "" Hn).
  - rewrite app_assoc_s. change ("/" ++ name) with (String "/" name).
    now rewrite basenameFrom_dir, (basenameFrom_plain name "" Hn).
Qed.

Lemma endsWith_app a suf : endsWith (a ++ suf) suf = true.
Proof.
  unfold endsWith. rewrite length_app_s.
  replace (String.length a + String.length suf - String.length suf)%nat
    with (String.length a) by lia.
  rewrite sliceFrom_app, String.eqb_refl, andb_true_r.
  apply Nat.leb_le. lia.
Qed.

(** X8. The restore tool reads back what the scheduler stores. The object
    stored under the key of an Incremental taken at [t], in any folder,
    passes the filter of [listBackups] and becomes an Incremental record
    named by the key, dated [t] cut to the second and moved by the offset of
    the host; the one stored under the key of a Full becomes a Full record
    dated at midnight UTC of the day, on every host. The Full record always
    is the record the chain resolver counts on, the Incremental one on a host
    on UTC. *)
Theorem stored_keys_are_read_back tz folder t size lm :
  fourDigitYear t ->
  (folder = "" \/ exists d, folder = d ++ "/") ->
  (Js.endsWith (folder ++ incKey t) ".tar.gz" = true
   /\ toBackup tz (mkObject (folder ++ incKey t) size lm)
      = mkBackup (folder ++ incKey t) (incKey t) size
                 (Some (t - t mod 1000 - tz * 60000)) true lm
   /\ (tz = 0 -> canonical (toBackup tz (mkObject (folder ++ incKey t) size lm))))
  /\ (Js.endsWith (folder ++ fullKey t) ".tar.gz" = true
      /\ toBackup tz (mkObject (folder ++ fullKey t) size lm)
         = mkBackup (folder ++ fullKey t) (fullKey t) size
                    (Some (t / msPerDay * msPerDay)) false lm
      /\ canonical (toBackup tz (mkObject (folder ++ fullKey t) size lm))).
Proof.
  intros Hy Hfolder.
  assert (Einc : toBackup tz (mkObject (folder ++ incKey t) size lm)
                 = mkBackup (folder ++ incKey t) (incKey t) size
                            (Some (t - t mod 1000 - tz * 60000)) true lm).
  { unfold toBackup. cbn [Key Size LastModified].
    rewrite (basename_in_folder folder (incKey t) Hfolder (incKey_noSlash t Hy)).
    assert (Hs : startsWith (incKey t) "inc_backup_" = true)
      by apply prefix_app.
    rewrite Hs, (decodeDate_incKey tz t Hy). reflexivity. }
  assert (Efull : toBackup tz (mkObject (folder ++ fullKey t) size lm)
                  = mkBackup (folder ++ fullKey t) (fullKey t) size
                             (Some (t / msPerDay * msPerDay)) false lm).
  { unfold toBackup. cbn [Key Size LastModified].
    rewrite (basename_in_folder folder (fullKey t) Hfolder (fullKey_noSlash t Hy)).
    assert (Hs : startsWith (fullKey t) "inc_backup_" = false) by reflexivity.
    rewrite Hs, (decodeDate_fullKey tz t Hy). reflexivity. }
  split; split.
  - unfold incKey. rewrite <- !app_assoc_s. apply endsWith_app.
  - split; [exact Einc|]. intros ->. rewrite Einc.
    exists (t - t mod 1000). cbn [date isIncremental filename].
    assert (Hsec : t / 1000 = (t - t mod 1000) / 1000)
      by (Z.div_mod_to_equations; lia).
    destruct (formatDateTime_second t _ Hy Hsec) as [Hy' E].
    split; [f_equal; lia|]. split; [exact Hy'|]. unfold incKey. now rewrite E.
  - unfold fullKey. rewrite <- !app_assoc_s. apply endsWith_app.
  - split; [exact Efull|]. rewrite Efull.
    exists (t / msPerDay * msPerDay). cbn [date isIncremental filename].
    assert (Hday : t / msPerDay = (t / msPerDay * msPerDay) / msPerDay)
      by (unfold msPerDay; Z.div_mod_to_equations; lia).
    destruct (formatDate_day t _ Hy Hday) as [Hy' E].
    split; [reflexivity|]. split; [exact Hy'|]. split.
    + unfold fullKey. now rewrite E.
    + unfold msPerDay. Z.div_mod_to_equations. lia.
Qed.

End KeyFacts.

(** *** Failures that end a run, and programs that leave the store alone *)

Module FailureFacts.
Import Eff Trace EffFacts Failure.

Section Stops.
Variable bad : Event -> option JsError.

Lemma stopsAt_quiet {A} S (m : M A) :
  emits (fun ev => bad ev = None) m -> stopsAt bad S m.
Proof.
  intros H w ev e Hin Hb. specialize (H w). rewrite Forall_forall in H.
  rewrite (H ev Hin) in Hb. discriminate.
Qed.

Lemma stopsAt_bind {A B} S (m : M A) (f : A -> M B) :
  stopsAt bad S m -> (forall a, stopsAt bad S (f a)) -> stopsAt bad S (bind m f).
Proof.
  intros Hm Hf w ev e. specialize (Hm w ev e). unfold bind.
  destruct (m w) as [[[a|e'|c] w1] t1]; cbn in *.
  - specialize (Hf a w1 ev e). destruct (f a w1) as [[r w2] t2]. cbn in *.
    intros Hin Hb. apply in_app_or in Hin as [Hin|Hin].
    + destruct (Hm Hin Hb) as [E _]. discriminate.
    + destruct (Hf Hin Hb) as (E & t0 & suf & HS & Et). split; [exact E|].
      exists (t1 ++ t0)%list, suf. split; [exact HS|]. rewrite Et.
      now rewrite app_assoc.
  - intros Hin Hb. destruct (Hm Hin Hb) as ([= ->] & H). now split.
  - intros Hin Hb. destruct (Hm Hin Hb) as [E _]. discriminate.
Qed.

Lemma stopsAt_weaken {A} (S S' : JsError -> list Event -> Prop) (m : M A) :
  (forall e suffix, S e suffix -> S' e suffix) -> stopsAt bad S m -> stopsAt bad S' m.
Proof.
  intros HS Hm w ev e Hin Hb. destruct (Hm w ev e Hin Hb) as (E & t0 & suf & H1 & H2).
  split; [exact E|]. exists t0, suf. split; [now apply HS | exact H2].
Qed.

(** [try { body } catch (error) { report(error); throw error }] *)
Lemma stopsAt_rethrow {A} (body : M A) (h : JsError -> M A) line :
  (forall l, bad (EvStderr l) = None) ->
  (forall e w, h e w = (Throw e, w, [EvStderr (line e)])) ->
  stopsAt bad last_ body ->
  stopsAt bad (fun e suffix => suffix = [EvStderr (line e)]) (try body h).
Proof.
  intros Hq Hh Hb w ev e. specialize (Hb w ev e). unfold try.
  destruct (body w) as [[[a|e'|c] w1] t1]; rewrite ?Hh;
    cbn [outcome world events fst snd] in *.
  - intros Hin Hf. destruct (Hb Hin Hf) as [E _]. discriminate.
  - intros Hin Hf. apply in_app_or in Hin as [Hin|Hin].
    + destruct (Hb Hin Hf) as (E & t0 & suf & -> & Et).
      injection E as ->.
      split; [reflexivity|]. exists t0. eexists. split; [reflexivity|].
      rewrite Et. rewrite <- app_assoc. reflexivity.
    + destruct Hin as [Hin|[]]. subst ev. rewrite Hq in Hf. discriminate.
  - intros Hin Hf. destruct (Hb Hin Hf) as [E _]. discriminate.
Qed.

Lemma stopsAt_forEach {A} S (body : A -> M unit) l :
  (forall x, stopsAt bad S (body x)) -> stopsAt bad S (forEach body l).
Proof.
  intros H. induction l as [|x l IH]; cbn [forEach].
  - intros w ev e [].
  - apply stopsAt_bind; [apply H|intros _; exact IH].
Qed.

End Stops.
Section Tools.
Variable env : Env.

Lemma stopsAt_runCommand command args :
  stopsAt (failedTool env) last_ (Index.runCommand env command args).
Proof.
  intros w ev e Hin Hb. unfold Index.runCommand, bind, spawn in *.
  destruct (ending env command args) as [code| |e0|e0] eqn:E; cbn [isZero] in *.
  - destruct (code =? 0) eqn:Ez; cbn in Hin; destruct Hin as [<-|[]];
      cbn in Hb; unfold exitCode in Hb; rewrite E, Ez in Hb; [discriminate|].
    injection Hb as <-. cbn.
    split; [reflexivity|]. now exists [], [].
  - cbn in Hin. destruct Hin as [<-|[]].
    cbn in Hb. unfold exitCode in Hb. rewrite E in Hb. discriminate.
  - cbn in Hin. destruct Hin as [<-|[<-|[]]]; [|discriminate Hb].
    cbn in Hb. unfold exitCode in Hb. rewrite E in Hb. discriminate.
  - cbn in Hin. destruct Hin as [<-|[]].
    cbn in Hb. unfold exitCode in Hb. rewrite E in Hb. discriminate.
Qed.

Lemma stopsAt_restore_runCommand command args :
  stopsAt (failedTool env) last_ (Restore.runCommand env command args).
Proof. exact (stopsAt_runCommand command args). Qed.

End Tools.
Section Keeps.

Lemma keepsStore_ret {A} (a : A) : keepsStore (ret a).
Proof. intros w. reflexivity. Qed.

Lemma keepsStore_throw {A} e : keepsStore (@throw A e).
Proof. intros w. reflexivity. Qed.

Lemma keepsStore_exit {A} c : keepsStore (@exit A c).
Proof. intros w. reflexivity. Qed.

Lemma keepsStore_bind {A B} (m : M A) (f : A -> M B) :
  keepsStore m -> (forall a, keepsStore (f a)) -> keepsStore (bind m f).
Proof.
  intros Hm Hf w. specialize (Hm w). unfold bind.
  destruct (m w) as [[[a|e|c] w1] t1]; cbn in *; try assumption.
  specialize (Hf a w1). destruct (f a w1) as [[r w2] t2]. cbn in *. congruence.
Qed.

Lemma keepsStore_try {A} (m : M A) h :
  keepsStore m -> (forall e, keepsStore (h e)) -> keepsStore (try m h).
Proof.
  intros Hm Hh w. specialize (Hm w). unfold try.
  destruct (m w) as [[[a|e|c] w1] t1]; cbn in *; try assumption.
  specialize (Hh e w1). destruct (h e w1) as [[r w2] t2]. cbn in *. congruence.
Qed.

Lemma keepsStore_forEach {A} (body : A -> M unit) l :
  (forall x, keepsStore (body x)) -> keepsStore (forEach body l).
Proof.
  intros H. induction l as [|x l IH]; cbn [forEach].
  - apply keepsStore_ret.
  - apply keepsStore_bind; [apply H|intros _; exact IH].
Qed.

Lemma keepsStore_io {A} env ev (act : World -> Res A * World) :
  (forall w, objects (snd (act w)) = objects w) -> keepsStore (io env ev act).
Proof.
  intros H w. unfold io. destruct (fault env ev); [reflexivity|].
  specialize (H w). now destruct (act w).
Qed.

Lemma keepsStore_spawn env command args : keepsStore (spawn env command args).
Proof. intros w. unfold spawn. now destruct (ending env command args). Qed.

Lemma keepsStore_question q : keepsStore (question q).
Proof. intros w. unfold question. now destruct (answers w). Qed.

Lemma keepsStore_stdout l : keepsStore (stdout l).
Proof. intros w. reflexivity. Qed.

Lemma keepsStore_stderr l : keepsStore (stderr l).
Proof. intros w. reflexivity. Qed.

Lemma emits_question P q : P (EvPrompt q) -> emits P (question q).
Proof.
  intros H w. unfold question. destruct (answers w); cbn; repeat constructor; exact H.
Qed.

End Keeps.
End FailureFacts.

(** *** The restore tool *)

Module RestoreFacts.
Import Eff Trace EffFacts Failure FailureFacts Restore Pipeline IndexFacts.

Ltac rq :=
  repeat first
    [ progress unfold Restore.logError, Restore.downloadFromS3, Restore.listBackups,
        Restore.runCommand, lift, getObject, writeFile, mkdir, unlink, rm, listObjects
    | apply emits_question
    | emits_step ].

Ltac ks :=
  repeat first
    [ progress unfold Restore.logError, Restore.downloadFromS3, Restore.listBackups,
        Restore.runCommand, lift, getObject, writeFile, mkdir, unlink, rm, listObjects
    | apply keepsStore_ret | apply keepsStore_throw | apply keepsStore_exit
    | apply keepsStore_spawn | apply keepsStore_question
    | apply keepsStore_stdout | apply keepsStore_stderr
    | apply keepsStore_bind; [|intros ?]
    | apply keepsStore_try; [|intros ?]
    | apply keepsStore_io; intros ?
    | match goal with
      | |- keepsStore (if ?c then _ else _) => destruct c
      | |- keepsStore (match ?x with _ => _ end) => destruct x
      | |- objects _ = _ => progress cbn [snd fst objects setFiles]
      | |- objects (if ?c then _ else _) = _ => destruct c
      | |- objects (snd (if ?c then _ else _)) = _ => destruct c
      | |- objects (snd (match ?x with _ => _ end)) = _ => destruct x
      end
    | reflexivity ].

Ltac st :=
  repeat first
    [ apply stopsAt_restore_runCommand
    | apply stopsAt_quiet; solve [rq]
    | match goal with
      | |- stopsAt _ _ (if ?c then _ else _) => destruct c
      end
    | apply stopsAt_bind; [|intros ?] ].

Section Facts.
Variable env : Env.
Variable config : Config.

Lemma applyIncrementals_reads baseDir incs : forall i,
  emits (fun ev => writesStore ev = false)
        (applyIncrementals env config baseDir i incs).
Proof.
  induction incs as [|inc incs IH]; intros i; cbn [applyIncrementals].
  - apply emits_ret.
  - rq. apply IH.
Qed.

Lemma restoreBackups_reads chain :
  emits (fun ev => writesStore ev = false) (restoreBackups env config chain).
Proof.
  unfold restoreBackups. destruct chain as [|fullBackup incs].
  - rq.
  - rq; apply applyIncrementals_reads.
Qed.

Lemma main_reads : emits (fun ev => writesStore ev = false) (main env config).
Proof.
  unfold main. rq;
    first [apply restoreBackups_reads | apply applyIncrementals_reads].
Qed.

Lemma applyIncrementals_keepsStore baseDir incs : forall i,
  keepsStore (applyIncrementals env config baseDir i incs).
Proof.
  induction incs as [|inc incs IH]; intros i; cbn [applyIncrementals].
  - apply keepsStore_ret.
  - ks. apply IH.
Qed.

Lemma restoreBackups_keepsStore chain : keepsStore (restoreBackups env config chain).
Proof.
  unfold restoreBackups. destruct chain as [|fullBackup incs].
  - ks.
  - ks; apply applyIncrementals_keepsStore.
Qed.

(** X9. The restore tool only reads the archive store: whatever the
    operator types and whatever fails, a run uploads and deletes nothing, and
    the store is the same after it. *)
Theorem restore_never_writes_store w :
  objects (world (main env config w)) = objects w
  /\ Forall (fun ev => writesStore ev = false) (events (main env config w)).
Proof.
  split; [|apply main_reads].
  revert w. change (keepsStore (main env config)).
  unfold main. ks;
    first [apply restoreBackups_keepsStore | apply applyIncrementals_keepsStore].
Qed.

Lemma applyIncrementals_stops baseDir incs : forall i,
  stopsAt (failedTool env) last_ (applyIncrementals env config baseDir i incs).
Proof.
  induction incs as [|inc incs IH]; intros i; cbn [applyIncrementals].
  - apply stopsAt_quiet. rq.
  - st. apply IH.
Qed.

Lemma restoreBackups_stops chain :
  stopsAt (failedTool env) last_ (restoreBackups env config chain).
Proof.
  unfold restoreBackups. destruct chain as [|fullBackup incs].
  - apply stopsAt_quiet. rq.
  - st; apply applyIncrementals_stops.
Qed.

Lemma main_body_stops :
  stopsAt (failedTool env) last_
    (backups <- listBackups env config ;;
     if Z.of_nat (List.length backups) =? 0 then ret tt
     else if undated backups then
       throw (mkError "RangeError" "Invalid time value")
     else
       selection <- question (newline ++ "Enter backup number to restore (or 'q' to quit): ") ;;
       if String.eqb (Js.toLowerCase selection) "q" then ret tt
       else
         match parseInt selection with
         | None => logError env [Index.Str "Invalid selection."]
         | Some n =>
             let selectedIndex := n - 1 in
             if (selectedIndex <? 0)
                || (Z.of_nat (List.length backups) <=? selectedIndex)
             then logError env [Index.Str "Invalid selection."]
             else
               match nth_error backups (Z.to_nat selectedIndex) with
               | None =>
                   throw (mkError "TypeError"
                     "Cannot read properties of undefined (reading 'filename')")
               | Some selectedBackup =>
                   backupsToRestore <-
                     lift (findRelatedBackups backups selectedBackup) ;;
                   proceed <- question (newline ++ "Proceed with restore? (yes/no): ") ;;
                   if negb (String.eqb (Js.toLowerCase proceed) "yes") then ret tt
                   else
                     mkdir env (restoreRoot config) ;;
                     restoreBackups env config backupsToRestore
               end
         end).
Proof.
  apply stopsAt_bind; [apply stopsAt_quiet; rq|intros backups].
  destruct (Z.of_nat (List.length backups) =? 0); [apply stopsAt_quiet; rq|].
  destruct (undated backups); [apply stopsAt_quiet; rq|].
  apply stopsAt_bind; [apply stopsAt_quiet; rq|intros selection].
  destruct (String.eqb (Js.toLowerCase selection) "q"); [apply stopsAt_quiet; rq|].
  destruct (parseInt selection) as [n|]; [|apply stopsAt_quiet; rq].
  cbv zeta.
  destruct ((n - 1 <? 0) || (Z.of_nat (List.length backups) <=? n - 1));
    [apply stopsAt_quiet; rq|].
  destruct (nth_error backups (Z.to_nat (n - 1))) as [selectedBackup|];
    [|apply stopsAt_quiet; rq].
  apply stopsAt_bind; [apply stopsAt_quiet; rq|intros chain].
  apply stopsAt_bind; [apply stopsAt_quiet; rq|intros proceed].
  destruct (negb (String.eqb (Js.toLowerCase proceed) "yes"));
    [apply stopsAt_quiet; rq|].
  apply stopsAt_bind; [apply stopsAt_quiet; rq|intros _].
  apply restoreBackups_stops.
Qed.

(** X10. A tool that fails ends the restore. When [tar] or the engine exits
    with a code other than 0, that run is the last thing the restore does:
    no later archive is fetched, unpacked or merged; the tool reports
    "Restore failed:" with the command line, password arguments masked, and
    exits with code 1. *)
Theorem restore_stops_at_failed_tool w command args :
  In (EvSpawn command args) (events (main env config w)) ->
  exitCode env command args <> 0 ->
  outcome (main env config w) = Halt 1
  /\ exists t0,
       events (main env config w)
       = (t0 ++ [EvSpawn command args;
                 EvStderr (consoleLine env
                             ["Restore failed:";
                              Index.sanitizeError
                                (toolError command args
                                           (exitCode env command args))])])%list.
Proof.
  intros Hin Hcode.
  assert (Hbad : failedTool env (EvSpawn command args)
                 = Some (toolError command args (exitCode env command args))).
  { cbn. apply Z.eqb_neq in Hcode. now rewrite Hcode. }
  pose proof main_body_stops as Hbody. unfold main in *.
  match goal with
  | |- context [try ?m ?h w] =>
      specialize (Hbody w (EvSpawn command args)
                        (toolError command args (exitCode env command args)));
      destruct (m w) as [[[u|e|c] w1] t1] eqn:Em
  end; cbn [outcome events fst snd] in Hbody.
  - rewrite (try_Ok _ _ _ _ _ _ Em) in Hin. cbn [events snd] in Hin.
    destruct (Hbody Hin Hbad) as [E _]. discriminate.
  - rewrite (try_Throw _ _ _ _ _ _ Em) in *. unfold after in *.
    cbn [outcome world events fst snd] in *.
    apply in_app_or in Hin as [Hin|Hin].
    + destruct (Hbody Hin Hbad) as (E & t0 & suf & -> & Et). injection E as ->.
      split; [reflexivity|]. exists t0. rewrite Et, <- app_assoc. reflexivity.
    + destruct Hin as [Hin|[]]. discriminate Hin.
  - rewrite (try_Halt _ _ _ _ _ _ Em) in Hin. cbn [events snd] in Hin.
    destruct (Hbody Hin Hbad) as [E _]. discriminate.
Qed.

Lemma idle_bind {A B} (m : M A) (f : A -> M B) w :
  files (world (m w)) = files w ->
  Forall (fun ev => acts ev = false) (events (m w)) ->
  (forall a, outcome (m w) = Ok a ->
             files (world (f a (world (m w)))) = files w
             /\ Forall (fun ev => acts ev = false) (events (f a (world (m w))))) ->
  files (world (bind m f w)) = files w
  /\ Forall (fun ev => acts ev = false) (events (bind m f w)).
Proof.
  unfold bind. destruct (m w) as [[[a|e|c] w1] t1]; cbn [outcome world events fst snd];
    intros Hf Ht Hk; try (now split).
  specialize (Hk a eq_refl). destruct (f a w1) as [[r w2] t2].
  cbn [world events fst snd] in *. destruct Hk as [Hk1 Hk2].
  split; [exact Hk1|]. apply Forall_app. now split.
Qed.

Lemma idle_after {A} t (r : Res A * World * list Event) fs :
  Forall (fun ev => acts ev = false) t ->
  files (world r) = fs /\ Forall (fun ev => acts ev = false) (events r) ->
  files (world (after t r)) = fs
  /\ Forall (fun ev => acts ev = false) (events (after t r)).
Proof.
  intros Ht [Hf Hr]. unfold after. cbn [world events fst snd].
  split; [exact Hf|]. apply Forall_app. now split.
Qed.

Lemma listBackups_world w : world (listBackups env config w) = w.
Proof.
  unfold listBackups, try, bind, listObjects, io.
  destruct (fault env _); [reflexivity|].
  destruct (firstn 1000 _); reflexivity.
Qed.

Lemma listBackups_idle : emits (fun ev => acts ev = false) (listBackups env config).
Proof. rq. Qed.

(** X11. The restore tool touches nothing before the operator agrees.
    Unless the second line typed is "yes" (in any case of letters), a run
    creates, changes and removes no local file, runs no tool and fetches no
    archive, whatever else happens. *)
Theorem restore_needs_consent w :
  (forall selection proceed rest,
      answers w = selection :: proceed :: rest ->
      Js.toLowerCase proceed <> "yes") ->
  files (world (main env config w)) = files w
  /\ Forall (fun ev => acts ev = false) (events (main env config w)).
Proof.
  intros Hno. unfold main.
  match goal with
  | |- context [try ?m ?h w] =>
      assert (Hbody : files (world (m w)) = files w
                      /\ Forall (fun ev => acts ev = false) (events (m w)))
  end.
  { apply idle_bind.
    - now rewrite listBackups_world.
    - apply listBackups_idle.
    - intros backups _. rewrite listBackups_world.
      destruct (Z.of_nat (List.length backups) =? 0); [split; [reflexivity|constructor]|].
      destruct (undated backups); [split; [reflexivity|constructor]|].
      destruct (answers w) as [|selection rest1] eqn:Ea.
      { assert (Hq : question (newline ++ "Enter backup number to restore (or 'q' to quit): ") w
                     = (Halt 0, w,
                        [EvPrompt (newline ++ "Enter backup number to restore (or 'q' to quit): ")]))
          by (unfold question; rewrite Ea; reflexivity).
        rewrite (bind_Halt _ _ _ _ _ _ Hq). split; [reflexivity|repeat constructor]. }
      assert (Hq : question (newline ++ "Enter backup number to restore (or 'q' to quit): ") w
                   = (Ok selection, mkWorld (files w) (objects w) rest1,
                      [EvPrompt (newline ++ "Enter backup number to restore (or 'q' to quit): ")]))
        by (unfold question; rewrite Ea; reflexivity).
      rewrite (bind_Ok _ _ _ _ _ _ Hq). apply idle_after; [repeat constructor|].
      cbv beta.
      destruct (String.eqb (Js.toLowerCase selection) "q");
        [split; [reflexivity|constructor]|].
      destruct (parseInt selection) as [n|];
        [|split; [reflexivity|repeat constructor]].
      cbv zeta.
      destruct ((n - 1 <? 0) || (Z.of_nat (List.length backups) <=? n - 1));
        [split; [reflexivity|repeat constructor]|].
      destruct (nth_error backups (Z.to_nat (n - 1))) as [selectedBackup|];
        [|split; [reflexivity|constructor]].
      destruct (findRelatedBackups backups selectedBackup) as [e|chain];
        [split; [reflexivity|constructor]|].
      cbn [lift].
      assert (Hr : @ret (list Backup) chain (mkWorld (files w) (objects w) rest1)
                   = (Ok chain, mkWorld (files w) (objects w) rest1, []))
        by reflexivity.
      rewrite (bind_Ok _ _ _ _ _ _ Hr).
      apply idle_after; [constructor|]. cbv beta.
      destruct rest1 as [|proceed rest2].
      { assert (Hp : question (newline ++ "Proceed with restore? (yes/no): ")
                                (mkWorld (files w) (objects w) [])
                       = (Halt 0, mkWorld (files w) (objects w) [],
                          [EvPrompt (newline ++ "Proceed with restore? (yes/no): ")]))
          by reflexivity.
        rewrite (bind_Halt _ _ _ _ _ _ Hp).
        split; [reflexivity|repeat constructor]. }
      assert (Hp : question (newline ++ "Proceed with restore? (yes/no): ")
                              (mkWorld (files w) (objects w) (proceed :: rest2))
                   = (Ok proceed, mkWorld (files w) (objects w) rest2,
                      [EvPrompt (newline ++ "Proceed with restore? (yes/no): ")]))
        by reflexivity.
      rewrite (bind_Ok _ _ _ _ _ _ Hp).
      apply idle_after; [repeat constructor|]. cbv beta.
      specialize (Hno selection proceed rest2 eq_refl).
      apply String.eqb_neq in Hno. rewrite Hno. cbn [negb].
      split; [reflexivity|constructor]. }
  destruct Hbody as [Hf Ht]. unfold try.
  match goal with
  | |- context [match ?m w with _ => _ end] =>
      destruct (m w) as [[[u|e|c] w1] t1]
  end; cbn [world events fst snd] in *; try (now split).
  split; [exact Hf|]. apply Forall_app. split; [exact Ht|repeat constructor].
Qed.

(** X12. A selection that names no record ends the run quietly. When the
    first line typed is not "q" and [parseInt] reads no number from it, or a
    number below 1 or above the number of records shown, the tool prints
    "Invalid selection." and ends normally, with exit status 0: it asks
    nothing more and restores nothing. *)
Theorem invalid_selection_ends_run w selection rest :
  fault env (EvList (listingPrefix config)) = None ->
  recent (tzOffset env) (page config w) <> [] ->
  undated (recent (tzOffset env) (page config w)) = false ->
  answers w = selection :: rest ->
  Js.toLowerCase selection <> "q" ->
  match parseInt selection with
  | None => True
  | Some n => n < 1 \/ Z.of_nat (List.length (recent (tzOffset env) (page config w))) < n
  end ->
  main env config w
  = (Ok tt, mkWorld (files w) (objects w) rest,
     [EvList (listingPrefix config);
      EvPrompt (newline ++ "Enter backup number to restore (or 'q' to quit): ");
      EvStderr (consoleLine env ["Invalid selection."])]).
Proof.
  intros Hf Hne Hund Hans Hq Hsel. unfold main. apply try_Ok.
  rewrite (bind_Ok _ _ _ _ _ _ (ToolFacts.listBackups_ok env config w Hf)).
  cbv beta. rewrite Hund.
  replace (Z.of_nat (List.length (recent (tzOffset env) (page config w))) =? 0)
    with false
    by (symmetry; apply Z.eqb_neq;
        destruct (recent (tzOffset env) (page config w)); [congruence|cbn; lia]).
  assert (Hp : question (newline ++ "Enter backup number to restore (or 'q' to quit): ") w
               = (Ok selection, mkWorld (files w) (objects w) rest,
                  [EvPrompt (newline ++ "Enter backup number to restore (or 'q' to quit): ")]))
    by (unfold question; rewrite Hans; reflexivity).
  rewrite (bind_Ok _ _ _ _ _ _ Hp). cbv beta.
  apply String.eqb_neq in Hq. rewrite Hq.
  destruct (parseInt selection) as [n|]; [|reflexivity].
  cbv zeta.
  replace ((n - 1 <? 0)
           || (Z.of_nat (List.length (recent (tzOffset env) (page config w))) <=? n - 1))
    with true; [reflexivity|].
  symmetry. apply orb_true_iff. destruct Hsel as [H|H];
    [left; apply Z.ltb_lt | right; apply Z.leb_le]; lia.
Qed.

(** X14. The restore of a Full on its own. The chain resolved for a Full is
    the Full alone, and a restore of it that runs to its end fetches that one
    archive, unpacks it into the base directory and runs the finalizing merge
    once: no log-only merge, no other archive. *)
Theorem restore_full_alone backups fullBackup w :
  isIncremental fullBackup = false ->
  outcome (restoreBackups env config [fullBackup] w) = Ok tt ->
  findRelatedBackups backups fullBackup = inr [fullBackup]
  /\ events (restoreBackups env config [fullBackup] w)
     = [EvMkdir (baseDir config);
        EvGet (key fullBackup);
        EvWriteFile (Js.pathJoin (restoreRoot config) (filename fullBackup));
        EvSpawn "tar" ["xzf"; Js.pathJoin (restoreRoot config) (filename fullBackup);
                       "-C"; baseDir config];
        EvUnlink (Js.pathJoin (restoreRoot config) (filename fullBackup));
        EvSpawn "xtrabackup" ["--prepare"; "--target-dir=" ++ baseDir config]]
  /\ merges (events (restoreBackups env config [fullBackup] w))
     = [mkMerge false (Some (baseDir config)) None].
Proof.
  intros Hfull Hok. split; [unfold findRelatedBackups; now rewrite Hfull|].
  assert (Hev : events (restoreBackups env config [fullBackup] w)
                = [EvMkdir (baseDir config);
                   EvGet (key fullBackup);
                   EvWriteFile (Js.pathJoin (restoreRoot config) (filename fullBackup));
                   EvSpawn "tar" ["xzf"; Js.pathJoin (restoreRoot config) (filename fullBackup);
                                  "-C"; baseDir config];
                   EvUnlink (Js.pathJoin (restoreRoot config) (filename fullBackup));
                   EvSpawn "xtrabackup" ["--prepare"; "--target-dir=" ++ baseDir config]]).
  { destruct (restoreBackups env config [fullBackup] w) as [[r w'] t] eqn:E.
    cbn [outcome events fst snd] in *. subst r.
    unfold restoreBackups in E. cbn [List.length Z.of_nat Z.ltb Z.compare Pos.compare
                                      Pos.of_succ_nat] in E.
    apply bind_ok in E as (a1 & w1 & t1 & r1 & H1 & E & ->).
    apply bind_ok in E as (a2 & w2 & t2 & r2 & H2 & E & ->).
    apply bind_ok in E as (a3 & w3 & t3 & r3 & H3 & E & ->).
    apply bind_ok in E as (a4 & w4 & t4 & r4 & H4 & E & ->).
    apply bind_ok in E as (a5 & w5 & t5 & r5 & H5 & E & ->).
    apply bind_ok in E as (a6 & w6 & t6 & t7 & H6 & E & ->).
    destruct a2, a3, a5, a6.
    apply io_ok in H1. apply PipelineFacts.downloadFromS3_ok in H2.
    apply PipelineFacts.runCommand_ok in H3. apply io_ok in H4.
    apply ret_ok in H5 as [H5 _]. apply ret_ok in H6 as [H6 _].
    apply PipelineFacts.runCommand_ok in E. subst. reflexivity. }
  split; [exact Hev|]. rewrite Hev. unfold merges, pick. cbn [flat_map].
  rewrite (PipelineFacts.merge_final config).
  cbn [mergeOf String.eqb Ascii.eqb Bool.eqb andb app]. reflexivity.
Qed.

(** X13. The runs of the restore tool that end before a selection. When
    the store rejects the listing, the error is logged twice ("Error listing
    backups:", then "Restore failed:") and the tool exits with code 1 without
    a prompt. When the listing holds no key that ends in [.tar.gz], the tool
    ends normally without a prompt. When the operator types "q" or "Q", it
    ends normally after the prompt. *)
Theorem restore_ends_before_selection w :
  (forall e,
      fault env (EvList (listingPrefix config)) = Some e ->
      main env config w
      = (Halt 1, w,
         [EvList (listingPrefix config);
          EvStderr (consoleLine env ["Error listing backups:"; Index.sanitizeError e]);
          EvStderr (consoleLine env ["Restore failed:"; Index.sanitizeError e])]))
  /\ (fault env (EvList (listingPrefix config)) = None ->
      (forall obj, In obj (page config w) -> Js.endsWith (Key obj) ".tar.gz" = false) ->
      main env config w = (Ok tt, w, [EvList (listingPrefix config)]))
  /\ (forall selection rest,
        fault env (EvList (listingPrefix config)) = None ->
        recent (tzOffset env) (page config w) <> [] ->
        undated (recent (tzOffset env) (page config w)) = false ->
        answers w = selection :: rest ->
        Js.toLowerCase selection = "q" ->
        main env config w
        = (Ok tt, mkWorld (files w) (objects w) rest,
           [EvList (listingPrefix config);
            EvPrompt (newline ++ "Enter backup number to restore (or 'q' to quit): ")])).
Proof.
  split; [|split].
  - intros e He. unfold main.
    match goal with
    | |- try ?m ?h w = _ =>
        assert (Hbody : m w
                        = (Throw e, w,
                           [EvList (listingPrefix config);
                            EvStderr (consoleLine env
                                        ["Error listing backups:";
                                         Index.sanitizeError e])]))
    end.
    { apply bind_Throw. unfold listBackups. fold (listingPrefix config).
      match goal with
      | |- try ?m ?h w = _ =>
          assert (Hl : m w = (Throw e, w, [EvList (listingPrefix config)]))
            by (apply bind_Throw; unfold listObjects, io; now rewrite He)
      end.
      rewrite (try_Throw _ _ _ _ _ _ Hl). reflexivity. }
    rewrite (try_Throw _ _ _ _ _ _ Hbody). reflexivity.
  - intros Hf Hnone. unfold main. apply try_Ok.
    rewrite (bind_Ok _ _ _ _ _ _ (ToolFacts.listBackups_ok env config w Hf)).
    assert (Hcat : catalog (tzOffset env) (page config w) = []).
    { unfold catalog.
      replace (filter (fun obj => Js.endsWith (Key obj) ".tar.gz") (page config w))
        with (@nil S3Object); [reflexivity|].
      symmetry. induction (page config w) as [|o l IH]; [reflexivity|].
      cbn [filter]. rewrite (Hnone o (or_introl eq_refl)).
      apply IH. intros obj Hobj. apply Hnone. now right. }
    unfold recent. rewrite Hcat. reflexivity.
  - intros selection rest Hf Hne Hund Hans Hq. unfold main. apply try_Ok.
    rewrite (bind_Ok _ _ _ _ _ _ (ToolFacts.listBackups_ok env config w Hf)).
    cbv beta. rewrite Hund.
    replace (Z.of_nat (List.length (recent (tzOffset env) (page config w))) =? 0)
      with false
      by (symmetry; apply Z.eqb_neq;
          destruct (recent (tzOffset env) (page config w)); [congruence|cbn; lia]).
    assert (Hp : question (newline ++ "Enter backup number to restore (or 'q' to quit): ") w
                 = (Ok selection, mkWorld (files w) (objects w) rest,
                    [EvPrompt (newline ++ "Enter backup number to restore (or 'q' to quit): ")]))
      by (unfold question; rewrite Hans; reflexivity).
    rewrite (bind_Ok _ _ _ _ _ _ Hp). cbv beta. rewrite Hq. reflexivity.
Qed.

End Facts.
End RestoreFacts.

(** *** The password *)

Module SecrecyFacts.
Import Eff Trace EffFacts Secrecy Index.

Lemma alike_refl {A} (m : M A) : alike m m.
Proof. intros w. repeat split. Qed.

Lemma alike_bind {A B} (m m' : M A) (f f' : A -> M B) :
  alike m m' -> (forall a, alike (f a) (f' a)) -> alike (bind m f) (bind m' f').
Proof.
  intros Hm Hf w. destruct (Hm w) as (Ho & Hw & He). unfold bind.
  destruct (m w) as [[r w1] t1], (m' w) as [[r' w1'] t1'].
  cbn [outcome world events fst snd] in *. subst r' w1'.
  destruct r as [a|e|c]; [|now repeat split..].
  destruct (Hf a w1) as (Ho' & Hw' & He').
  destruct (f a w1) as [[r2 w2] t2], (f' a w1) as [[r2' w2'] t2'].
  cbn [outcome world events fst snd] in *. subst.
  repeat split. rewrite !map_app. congruence.
Qed.

Lemma alike_try {A} (m m' : M A) h h' :
  alike m m' -> (forall e, alike (h e) (h' e)) -> alike (try m h) (try m' h').
Proof.
  intros Hm Hh w. destruct (Hm w) as (Ho & Hw & He). unfold try.
  destruct (m w) as [[r w1] t1], (m' w) as [[r' w1'] t1'].
  cbn [outcome world events fst snd] in *. subst r' w1'.
  destruct r as [a|e|c]; [now repeat split| |now repeat split].
  destruct (Hh e w1) as (Ho' & Hw' & He').
  destruct (h e w1) as [[r2 w2] t2], (h' e w1) as [[r2' w2'] t2'].
  cbn [outcome world events fst snd] in *. subst.
  repeat split. rewrite !map_app. congruence.
Qed.

Lemma maskArg_idem arg : maskArg (maskArg arg) = maskArg arg.
Proof.
  unfold maskArg. destruct (Js.startsWith arg "--password=") eqn:E;
    [reflexivity|now rewrite E].
Qed.

Lemma alike_engine env args args' :
  blind env -> starts env "xtrabackup" ->
  map maskArg args = map maskArg args' ->
  alike (runCommand env "xtrabackup" args) (runCommand env "xtrabackup" args').
Proof.
  intros Hb Hs Ha w. unfold runCommand, bind, spawn.
  destruct (Hb args) as [Hc Hf], (Hb args') as [Hc' Hf'].
  pose proof (Hs args') as Hstart.
  rewrite Hc, Hf, Hf', Ha, <- Hc'.
  destruct (ending env "xtrabackup" args') as [code| |e|e];
    [| | now destruct (Hstart e) |].
  - destruct (isZero (Some code));
      cbn [ret throw outcome world events fst snd map hideArgs app];
      rewrite ?Ha; repeat split.
  - cbn [isZero ret throw outcome world events fst snd map hideArgs app].
    rewrite ?Ha. repeat split.
  - cbn [outcome world events fst snd map hideArgs app].
    rewrite ?Ha. repeat split.
Qed.

Lemma logLines_hideArgs t : logLines (map hideArgs t) = logLines t.
Proof.
  unfold logLines. induction t as [|ev t IH]; [reflexivity|].
  cbn [map flat_map]. rewrite IH. now destruct ev.
Qed.

Ltac al Hb Hs :=
  repeat first
    [ apply alike_refl
    | apply (alike_engine _ _ _ Hb Hs);
      cbn [map]; rewrite ?MaskFacts.maskArg_password; reflexivity
    | apply alike_bind; [|intros ?]
    | apply alike_try; [|intros ?]
    | match goal with
      | |- alike (match ?x with _ => _ end) (match ?x with _ => _ end) => destruct x
      end ].

(** The tick on a valid base when the engine cannot be started. *)
Lemma engine_missing env config w e :
  Tick.baseExists env config w = true ->
  fault env (EvMkdir (Js.pathJoin (backupRoot config)
                        ("inc_backup_" ++ formatDateTime (now env)))) = None ->
  ending env "xtrabackup" (incrementalArgs env config) = NoStart e ->
  outcome (runBackup env config w) = Halt 1
  /\ events (runBackup env config w)
     = (Tick.probeEvents env config w
        ++ [EvStdout (consoleLine env
              ["Found today's full backup. Performing incremental backup."]);
            EvStdout (consoleLine env ["Performing incremental backup..."]);
            EvMkdir (Js.pathJoin (backupRoot config)
                       ("inc_backup_" ++ formatDateTime (now env)));
            EvSpawn "xtrabackup" (incrementalArgs env config);
            EvUncaught e (incrementalArgs env config)])%list.
Proof.
  intros Hbase Hf He.
  pose proof (TickFacts.runBackup_cases env config w) as Hc. cbv zeta in Hc.
  rewrite Hbase in Hc.
  set (incrementalDir := Js.pathJoin (backupRoot config)
                           ("inc_backup_" ++ formatDateTime (now env))) in *.
  assert (Hpr : exists w1,
             Tick.procedure env config (Some (Tick.todayDir env config)) w
             = (Halt 1, w1,
                [EvStdout (consoleLine env
                   ["Found today's full backup. Performing incremental backup."]);
                 EvStdout (consoleLine env ["Performing incremental backup..."]);
                 EvMkdir incrementalDir;
                 EvSpawn "xtrabackup" (incrementalArgs env config);
                 EvUncaught e (incrementalArgs env config)])).
  { unfold Tick.procedure, performIncrementalBackup.
    fold incrementalDir.
    assert (Hm : exists w1, mkdir env incrementalDir w
                            = (Ok tt, w1, [EvMkdir incrementalDir]))
      by (unfold mkdir, io; rewrite Hf; eexists; reflexivity).
    destruct Hm as [w1 Hm]. exists w1.
    rewrite (bind_Ok _ _ w tt w _ eq_refl).
    rewrite (bind_Ok _ _ w tt w _ eq_refl).
    match goal with
    | |- after _ (after _ (try ?m ?h w)) = _ =>
        assert (Hbody : m w
                        = (Halt 1, w1,
                           [EvMkdir incrementalDir;
                            EvSpawn "xtrabackup" (incrementalArgs env config);
                            EvUncaught e (incrementalArgs env config)]))
    end.
    { rewrite (bind_Ok _ _ _ _ _ _ Hm).
      match goal with
      | |- after _ (bind ?r ?k w1) = _ =>
          assert (Hrun : r w1
                         = (Halt 1, w1,
                            [EvSpawn "xtrabackup" (incrementalArgs env config);
                             EvUncaught e (incrementalArgs env config)]))
      end.
      { unfold runCommand. apply bind_Halt. unfold spawn.
        match goal with
        | |- context [ending env ?c ?a] =>
            change (ending env c a)
              with (ending env "xtrabackup" (incrementalArgs env config))
        end.
        now rewrite He. }
      rewrite (bind_Halt _ _ _ _ _ _ Hrun). reflexivity. }
    rewrite (try_Halt _ _ _ _ _ _ Hbody). reflexivity. }
  destruct Hpr as [w1 Hpr]. rewrite Hpr in Hc.
  cbn [outcome world events fst snd] in Hc. destruct Hc as [Hc _].
  rewrite Hc. split; reflexivity.
Qed.

(** X15. What a tick shows of the password. Two ticks that differ only in
    the database password, with an engine that can be started and that ends
    the same way and leaves the same files whatever the password is, end the
    same way, leave the same files and the same store, and write the same
    lines to the log: the password reaches the command line of the engine
    and nothing else. When the engine cannot be started this fails: the
    process ends on the report of the uncaught exception, which carries the
    arguments as they were passed, the password among them. *)
Theorem tick_hides_password env config pw pw' w :
  blind env ->
  (starts env "xtrabackup" ->
   outcome (runBackup env (withPassword config pw) w)
   = outcome (runBackup env (withPassword config pw') w)
   /\ world (runBackup env (withPassword config pw) w)
      = world (runBackup env (withPassword config pw') w)
   /\ logLines (events (runBackup env (withPassword config pw) w))
      = logLines (events (runBackup env (withPassword config pw') w))
   /\ map hideArgs (events (runBackup env (withPassword config pw) w))
      = map hideArgs (events (runBackup env (withPassword config pw') w)))
  /\ (forall e,
        Tick.baseExists env config w = true ->
        fault env (EvMkdir (Js.pathJoin (backupRoot config)
                              ("inc_backup_" ++ formatDateTime (now env)))) = None ->
        ending env "xtrabackup" (incrementalArgs env (withPassword config pw))
        = NoStart e ->
        outcome (runBackup env (withPassword config pw) w) = Halt 1
        /\ In (EvUncaught e (incrementalArgs env (withPassword config pw)))
              (events (runBackup env (withPassword config pw) w))
        /\ In ("--password=" ++ pw)
              (incrementalArgs env (withPassword config pw))).
Proof.
  intros Hb. split.
  - intros Hs.
    assert (H : alike (runBackup env (withPassword config pw))
                      (runBackup env (withPassword config pw'))).
    { unfold runBackup, performFullBackup, performIncrementalBackup,
        getCurrentFullBackupDir, cleanupOldBackups, cleanupOldDirectories,
        pingHealthcheck, uploadToB2.
      cbn [withPassword dbUser dbPassword dbHost dbPort s3Bucket s3BackupDir
           healthCheckUrl retentionDays backupRoot].
      al Hb Hs. }
    destruct (H w) as (Ho & Hw & He). repeat split; try assumption.
    rewrite <- (logLines_hideArgs (events (runBackup env (withPassword config pw) w))).
    rewrite He. apply logLines_hideArgs.
  - intros e Hbase Hf He.
    destruct (engine_missing env (withPassword config pw) w e Hbase Hf He)
      as [Ho Hev].
    split; [exact Ho|]. split.
    + rewrite Hev. apply in_or_app. right. do 4 right. now left.
    + unfold incrementalArgs. cbn [withPassword dbPassword]. right. right. now left.
Qed.

End SecrecyFacts.

(** *** The store after the sweep and after an upload *)

Module StoreFacts.
Import Eff Trace EffFacts Failure FailureFacts Tick Index IndexFacts Pipeline.

Section Facts.
Variable env : Env.
Variable config : Config.

Lemma swept_nil o : swept env config [] o = false.
Proof. reflexivity. Qed.

Lemma swept_mono done page o :
  incl done page -> swept env config page o = false ->
  swept env config done o = false.
Proof.
  unfold swept. intros Hi H. destruct (existsb _ done) eqn:E; [|reflexivity].
  apply existsb_exists in E as (p & Hp & Hb).
  assert (existsb (fun p => isOld (cutoffDate env config) p
                            && String.eqb (Key o) (Key p)) page = true)
    by (apply existsb_exists; exists p; split; [now apply Hi|exact Hb]).
  congruence.
Qed.

(** The loop of the sweep, whatever the store answers: it ends normally or
    throws, and what it has removed by then are objects whose key is the key
    of an old object among the ones it went through. *)
Lemma sweep_loop_safe page : forall w,
  exists done,
    incl done page
    /\ files (world (forEach (fun object =>
                 if isOld (cutoffDate env config) object then
                   deleteObject env (Key object) ;;
                   log env ("Deleted old backup: " ++ Key object)
                 else ret tt) page w)) = files w
    /\ objects (world (forEach (fun object =>
                 if isOld (cutoffDate env config) object then
                   deleteObject env (Key object) ;;
                   log env ("Deleted old backup: " ++ Key object)
                 else ret tt) page w))
       = filter (fun o => negb (swept env config done o)) (objects w)
    /\ forall c, outcome (forEach (fun object =>
                 if isOld (cutoffDate env config) object then
                   deleteObject env (Key object) ;;
                   log env ("Deleted old backup: " ++ Key object)
                 else ret tt) page w) <> Halt c.
Proof.
  induction page as [|p page IH]; intros w.
  - exists []. split; [apply incl_refl|]. split; [reflexivity|]. split.
    + cbn. now rewrite CleanupFacts.filter_all.
    + discriminate.
  - cbn [forEach]. destruct (isOld (cutoffDate env config) p) eqn:Hold.
    + destruct (fault env (EvDelete (Key p))) as [e|] eqn:Hf.
      * (* the deletion is rejected *)
        assert (Hbody : (deleteObject env (Key p) ;;
                         log env ("Deleted old backup: " ++ Key p)) w
                        = (Throw e, w, [EvDelete (Key p)]))
          by (unfold bind, deleteObject, io; rewrite Hf; reflexivity).
        rewrite (bind_Throw _ _ _ _ _ _ Hbody). exists [].
        split; [intros x []|]. split; [reflexivity|]. split.
        -- cbn. now rewrite CleanupFacts.filter_all.
        -- discriminate.
      * assert (Hbody : (deleteObject env (Key p) ;;
                         log env ("Deleted old backup: " ++ Key p)) w
                        = (Ok tt,
                           setObjects (filter (fun o => negb (String.eqb (Key o) (Key p)))
                                              (objects w)) w,
                           [EvDelete (Key p);
                            EvStdout (consoleLine env ["Deleted old backup: " ++ Key p])]))
          by (unfold bind, deleteObject, io; rewrite Hf; reflexivity).
        rewrite (bind_Ok _ _ _ _ _ _ Hbody).
        destruct (IH (setObjects (filter (fun o => negb (String.eqb (Key o) (Key p)))
                                         (objects w)) w))
          as (done & Hi & Hfs & Hos & Hh).
        exists (p :: done). unfold after. cbn [outcome world events fst snd].
        split; [now apply incl_cons_cons || (intros x [<-|Hx]; [now left|right; now apply Hi])|].
        split; [rewrite Hfs; reflexivity|]. split; [|exact Hh].
        rewrite Hos. unfold setObjects. cbn [objects].
        rewrite CleanupFacts.filter_both. apply filter_ext. intros o.
        unfold swept. cbn [existsb]. rewrite Hold. cbn [andb].
        now rewrite negb_orb.
    + rewrite (bind_Ok _ _ w tt w [] eq_refl).
      destruct (IH w) as (done & Hi & Hfs & Hos & Hh).
      exists done. unfold after. cbn [outcome world events fst snd].
      split; [intros x Hx; right; now apply Hi|]. now repeat split.
Qed.

(** What the sweep leaves of the store, whatever the store answers. *)
Lemma sweep_shape w :
  exists done,
    incl done (sweepPage config w)
    /\ files (world (cleanupOldBackups env config w)) = files w
    /\ objects (world (cleanupOldBackups env config w))
       = filter (fun o => negb (swept env config done o)) (objects w).
Proof.
  unfold cleanupOldBackups.
  fold (cutoffDate env config). fold (sweepPrefix config).
  destruct (fault env (EvList (sweepPrefix config))) as [e|] eqn:Hl.
  - exists []. split; [intros x []|].
    unfold try, bind, listObjects, io. rewrite Hl. cbn.
    split; [reflexivity|]. now rewrite CleanupFacts.filter_all.
  - assert (Hlist : listObjects env (sweepPrefix config) w
                    = (Ok (match sweepPage config w with
                           | [] => None
                           | page => Some page
                           end), w, [EvList (sweepPrefix config)])).
    { unfold listObjects, io. rewrite Hl. fold (sweepPage config w).
      now destruct (sweepPage config w). }
    destruct (sweepPage config w) as [|p page] eqn:Ep.
    + exists []. split; [intros x []|].
      unfold try. rewrite (bind_Ok _ _ _ _ _ _ Hlist). cbn.
      split; [reflexivity|]. now rewrite CleanupFacts.filter_all.
    + destruct (sweep_loop_safe (p :: page) w) as (done & Hi & Hfs & Hos & Hh).
      exists done. split; [exact Hi|].
      unfold try. rewrite (bind_Ok _ _ _ _ _ _ Hlist). unfold after.
      destruct (forEach _ (p :: page) w) as [[[u|e|c] w1] t1];
        cbn [outcome world events fst snd] in *; now split.
Qed.

(** The store and the files after an upload that succeeds. *)
Lemma upload_result filePath key w :
  outcome (uploadToB2 env config filePath key w) = Ok tt ->
  files (world (uploadToB2 env config filePath key w)) = files w
  /\ objects (world (uploadToB2 env config filePath key w))
     = (filter (fun o => negb (String.eqb (Key o) (sweepPrefix config ++ key)))
               (objects w)
        ++ [archive env config key filePath])%list.
Proof.
  intros Hok.
  assert (Hkey : (if String.eqb (s3BackupDir config) "" then key
                  else Js.trimSlashes (s3BackupDir config) ++ "/" ++ key)
                 = sweepPrefix config ++ key).
  { unfold sweepPrefix. destruct (String.eqb (s3BackupDir config) "");
      [reflexivity|]. now rewrite JsFacts.app_assoc_s. }
  destruct (uploadToB2 env config filePath key w) as [[r w'] t] eqn:E.
  cbn [outcome world fst snd] in *. subst r. unfold uploadToB2 in E.
  rewrite Hkey in E.
  apply bind_ok in E as (a1 & w1 & t1 & r1 & H1 & E & ->).
  apply bind_ok in E as (a2 & w2 & t2 & r2 & H2 & E & ->).
  apply bind_ok in E as (a3 & w3 & t3 & r3 & H3 & E & ->).
  injection H1 as _ <- _. injection E as <- _.
  unfold readFile, io in H2. destruct (fault env _); [discriminate|].
  destruct (exists_ filePath (files w)); [|discriminate].
  injection H2 as _ <- _.
  unfold putObject, io in H3. destruct (fault env _); [discriminate|].
  injection H3 as _ <- _. split; reflexivity.
Qed.

(** X16. The Retention Sweep is safe, whatever the store answers. It never
    makes the tick fail; it leaves the local files alone; it adds and changes
    no object; and every object that is gone after it had the key of an
    object of the listed page that was last modified before the cutoff.
    Objects outside the page, objects without a date and objects modified at
    or after the cutoff stay, unless they share their key with such an old
    one. *)
Theorem sweep_is_safe w :
  outcome (cleanupOldBackups env config w) = Ok tt
  /\ files (world (cleanupOldBackups env config w)) = files w
  /\ (forall o, In o (objects (world (cleanupOldBackups env config w))) ->
                In o (objects w))
  /\ (forall o, In o (objects w) ->
                swept env config (sweepPage config w) o = false ->
                In o (objects (world (cleanupOldBackups env config w)))).
Proof.
  destruct (sweep_shape w) as (done & Hi & Hfs & Hos).
  split; [|split; [exact Hfs|split]].
  - destruct (total_cleanupOldBackups env config w) as [[] H]. exact H.
  - intros o Ho. rewrite Hos in Ho. now apply filter_In in Ho.
  - intros o Ho Hs. rewrite Hos. apply filter_In. split; [exact Ho|].
    now rewrite (swept_mono done _ o Hi Hs).
Qed.

(** X18. What an upload leaves in the store. An upload that succeeds puts
    the archive under the key of the backup inside the configured folder
    (the folder without the slashes around it, then a slash), with the
    instant of the upload as its modification time, in place of any object
    of that key; the other objects and the local files stay. The key lies
    under the prefix that the sweep lists, and under the one the restore
    tool lists when it is given the same folder. *)
Theorem upload_is_listed filePath key w :
  outcome (uploadToB2 env config filePath key w) = Ok tt ->
  files (world (uploadToB2 env config filePath key w)) = files w
  /\ objects (world (uploadToB2 env config filePath key w))
     = (filter (fun o => negb (String.eqb (Key o) (sweepPrefix config ++ key)))
               (objects w)
        ++ [archive env config key filePath])%list
  /\ In (archive env config key filePath)
        (filter (fun o => Js.startsWith (Key o) (sweepPrefix config))
                (objects (world (uploadToB2 env config filePath key w))))
  /\ (forall tool, Restore.s3BackupDir tool = s3BackupDir config ->
                   listingPrefix tool = sweepPrefix config).
Proof.
  intros Hok. destruct (upload_result filePath key w Hok) as [Hfs Hos].
  split; [exact Hfs|]. split; [exact Hos|]. split.
  - rewrite Hos. apply filter_In. split.
    + apply in_or_app. right. now left.
    + cbn [archive Key]. unfold Js.startsWith. apply JsFacts.prefix_app.
  - intros tool Hd. unfold listingPrefix, sweepPrefix. now rewrite Hd.
Qed.

End Facts.
End StoreFacts.

(** *** A tool that fails during a tick *)

Module ToolFailureFacts.
Import Eff Trace EffFacts Failure FailureFacts Tick Index IndexFacts TickFacts.

Lemma toolsFirst_noSpawn t : Forall (quiet isSpawn) t -> toolsFirst t.
Proof.
  intros H t0 ev rest -> Hs. rewrite Forall_forall in H.
  specialize (H ev (in_elt ev t0 rest)). unfold quiet in H. congruence.
Qed.

Lemma toolsFirst_app t1 t2 :
  Forall (quiet isPut) t1 -> toolsFirst t2 -> toolsFirst (t1 ++ t2).
Proof.
  intros H1 H2 t0 ev rest E Hs.
  apply app_eq_app in E as [l [[E1 E2]|[E1 E2]]].
  - (* the tool is in t1 *)
    subst t1. apply Forall_app in H1 as [H1 _]. exact H1.
  - (* the tool is in t2 *)
    subst t0. destruct l as [|x l].
    + rewrite app_nil_r. cbn in E2. exact H1.
    + apply Forall_app. split; [exact H1|].
      apply (H2 (x :: l) ev rest); [now rewrite E2|exact Hs].
Qed.

Lemma toolsFirst_then t1 t2 :
  toolsFirst t1 -> Forall (quiet isSpawn) t2 -> toolsFirst (t1 ++ t2).
Proof.
  intros H1 H2 t0 ev rest E Hs.
  assert (Hno : ~ In ev t2).
  { intros Hin. rewrite Forall_forall in H2. specialize (H2 ev Hin).
    unfold quiet in H2. congruence. }
  apply app_eq_app in E as [l [[E1 E2]|[E1 E2]]].
  - destruct l as [|x l].
    + cbn in E2. subst t2. exfalso. apply Hno. now left.
    + cbn in E2. injection E2 as <- E2. apply (H1 t0 ev l E1 Hs).
  - exfalso. apply Hno. rewrite E2. apply in_elt.
Qed.

Lemma ordered_then {A B} (m : M A) (f : A -> M B) :
  ordered m -> (forall a, emits (quiet isSpawn) (f a)) -> ordered (bind m f).
Proof.
  intros Hm Hf w. specialize (Hm w). unfold bind.
  destruct (m w) as [[[a|e|c] w1] t1]; cbn [events snd] in *; try exact Hm.
  specialize (Hf a w1). destruct (f a w1) as [[r w2] t2]. cbn [events snd] in *.
  now apply toolsFirst_then.
Qed.

Lemma ordered_bind {A B} (m : M A) (f : A -> M B) :
  emits (quiet isPut) m -> (forall a, ordered (f a)) -> ordered (bind m f).
Proof.
  intros Hm Hf w. specialize (Hm w). unfold bind.
  destruct (m w) as [[[a|e|c] w1] t1]; cbn [events snd] in *.
  - specialize (Hf a w1). destruct (f a w1) as [[r w2] t2]. cbn [events snd] in *.
    now apply toolsFirst_app.
  - intros t0 ev rest -> _. now apply Forall_app in Hm as [Hm _].
  - intros t0 ev rest -> _. now apply Forall_app in Hm as [Hm _].
Qed.

Lemma ordered_noSpawn {A} (m : M A) : emits (quiet isSpawn) m -> ordered m.
Proof. intros H w. apply toolsFirst_noSpawn, H. Qed.

Lemma ordered_rethrow {A} (body : M A) (h : JsError -> M A) :
  ordered body -> (forall e, emits (quiet isSpawn) (h e)) -> ordered (try body h).
Proof.
  intros Hb Hh w. specialize (Hb w). unfold try.
  destruct (body w) as [[[a|e|c] w1] t1]; cbn [events snd] in *; try exact Hb.
  specialize (Hh e w1). destruct (h e w1) as [[r w2] t2]. cbn [events snd] in *.
  now apply toolsFirst_then.
Qed.

Ltac qt :=
  repeat first
    [ progress unfold log, logError, uploadToB2, cleanupOldDirectories,
        cleanupOldBackups, pingHealthcheck, readdir, rm, mkdir, unlink, readFile,
        putObject, listObjects, deleteObject, httpGet
    | emits_step ].

Ltac stp :=
  repeat first
    [ apply stopsAt_runCommand
    | apply stopsAt_quiet; solve [qt]
    | apply stopsAt_bind; [|intros ?] ].

Ltac ord :=
  repeat first
    [ apply ordered_noSpawn; solve [qt]
    | apply ordered_bind; [solve [qt | apply runCommand_quiet; reflexivity]|intros ?] ].

Section Facts.
Variable env : Env.
Variable config : Config.

Lemma procedure_stops b :
  stopsAt (failedTool env) (procedureLogged env) (procedure env config b).
Proof.
  destruct b as [dir|]; unfold procedure, performFullBackup, performIncrementalBackup.
  - apply stopsAt_bind; [apply stopsAt_quiet; qt|intros _].
    apply stopsAt_bind; [apply stopsAt_quiet; qt|intros _].
    eapply stopsAt_weaken; [|apply stopsAt_rethrow with
        (line := fun e => consoleLine env ["Error during incremental backup:";
                                           sanitizeError e])];
      [intros e suf ->; now eexists | reflexivity | reflexivity |].
    stp.
  - apply stopsAt_bind; [apply stopsAt_quiet; qt|intros _].
    apply stopsAt_bind; [|intros ?; apply stopsAt_quiet; qt].
    apply stopsAt_bind; [apply stopsAt_quiet; qt|intros _].
    eapply stopsAt_weaken; [|apply stopsAt_rethrow with
        (line := fun e => consoleLine env ["Error during full backup:";
                                           sanitizeError e])];
      [intros e suf ->; now eexists | reflexivity | reflexivity |].
    stp.
Qed.

Lemma procedure_ordered b : ordered (procedure env config b).
Proof.
  destruct b as [dir|]; unfold procedure, performFullBackup, performIncrementalBackup.
  - apply ordered_bind; [qt|intros _].
    apply ordered_bind; [qt|intros _].
    apply ordered_rethrow; [|intros e; qt].
    ord.
  - apply ordered_bind; [qt|intros _].
    apply ordered_then; [|intros ?; qt].
    apply ordered_bind; [qt|intros _].
    apply ordered_rethrow; [|intros e; qt].
    ord.
Qed.

(** X19. A tool that fails ends the tick. When the engine or [tar] exits
    with a code other than 0, the procedure logs the error and rethrows it,
    the tick reports "Backup failed:" and the process exits with code 1;
    that run is the last effect of the tick, and nothing was uploaded before
    it: no archive of a failed run reaches the store, and neither the sweep
    nor the ping follows. *)
Theorem tick_stops_at_failed_tool w command args :
  In (EvSpawn command args) (events (runBackup env config w)) ->
  exitCode env command args <> 0 ->
  outcome (runBackup env config w) = Halt 1
  /\ exists t0 label,
       events (runBackup env config w)
       = (t0 ++ [EvSpawn command args;
                 EvStderr (consoleLine env
                             [label;
                              sanitizeError (toolError command args
                                               (exitCode env command args))]);
                 failedLine env (toolError command args
                                           (exitCode env command args))])%list
       /\ Forall (quiet isPut) t0.
Proof.
  intros Hin Hcode.
  assert (Hbad : failedTool env (EvSpawn command args)
                 = Some (toolError command args (exitCode env command args))).
  { cbn. apply Z.eqb_neq in Hcode. now rewrite Hcode. }
  pose proof (runBackup_cases env config w) as Hc. cbv zeta in Hc.
  set (b := if baseExists env config w then Some (todayDir env config) else None) in *.
  pose proof (procedure_stops b w (EvSpawn command args)
                (toolError command args (exitCode env command args))) as Hstop.
  pose proof (procedure_ordered b w) as Hord.
  assert (Hprobe : Forall (fun ev => isPut ev || isSpawn ev = false)
                          (probeEvents env config w)).
  { unfold probeEvents. destruct (exists_ _ _); repeat constructor. }
  destruct (procedure env config b w) as [[[u|e|c] w1] t1] eqn:Epr;
    cbn [outcome world events fst snd] in *;
    [| |exfalso; destruct Hc as [Hc _]; rewrite Hc in Hin;
        cbn [events snd] in Hin; apply in_app_or in Hin as [Hin|Hin];
        [rewrite Forall_forall in Hprobe; specialize (Hprobe _ Hin); discriminate
        |destruct (Hstop Hin Hbad) as [E _]; discriminate]].
  - (* the procedure ended normally: no tool failed *)
    exfalso. rewrite Hc in Hin. unfold after in Hin. cbn [events snd] in Hin.
    apply in_app_or in Hin as [Hin|Hin].
    + apply in_app_or in Hin as [Hin|Hin].
      * rewrite Forall_forall in Hprobe. specialize (Hprobe _ Hin). discriminate.
      * destruct (Hstop Hin Hbad) as [E _]. discriminate.
    + assert (Hq : emits (quiet isSpawn) (afterBackup env config))
        by (unfold afterBackup; qt).
      specialize (Hq w1). rewrite Forall_forall in Hq. specialize (Hq _ Hin).
      discriminate.
  - rewrite Hc in Hin |- *. cbn [outcome events fst snd] in Hin |- *.
    split; [reflexivity|].
    assert (Hin1 : In (EvSpawn command args) t1).
    { apply in_app_or in Hin as [Hin|Hin].
      - rewrite Forall_forall in Hprobe. specialize (Hprobe _ Hin). discriminate.
      - apply in_app_or in Hin as [Hin|[Hin|[]]]; [exact Hin|discriminate Hin]. }
    destruct (Hstop Hin1 Hbad) as (E & t0 & suf & (label & ->) & Et).
    injection E as ->. exists (probeEvents env config w ++ t0)%list, label.
    split.
    + rewrite Et, <- !app_assoc. reflexivity.
    + apply Forall_app. split.
      * eapply Forall_impl; [|exact Hprobe]. intros ev H.
        apply orb_false_iff in H as [H _]. exact H.
      * apply (Hord t0 (EvSpawn command args) _ Et eq_refl).
Qed.

End Facts.
End ToolFailureFacts.

(** *** The choice of the procedure *)

Module ChoiceFacts.
Import Eff Trace EffFacts Failure FailureFacts Tick Index IndexFacts TickFacts
       ProcedureFacts ToolFailureFacts.

Section Facts.
Variable env : Env.
Variable config : Config.

Lemma full_branch_runs_no_incremental :
  emits (quiet isIncrementalRun) (procedure env config None).
Proof.
  unfold procedure, performFullBackup, runCommand. qt;
    unfold quiet, isIncrementalRun, Js.startsWith;
    cbn [existsb append String.eqb];
    rewrite ?JsFacts.prefix_cons; cbn [Ascii.eqb Bool.eqb andb orb]; reflexivity.
Qed.

(** X20. How a tick of [index.js] chooses. It probes today's full-backup
    directory and the completion marker in it, and says what it found. With
    both in place it runs the Incremental Backup Procedure, and the engine
    is given that directory as the base; otherwise it runs the Full Backup
    Procedure, and no run of the engine in that tick takes an
    Incremental. *)
Theorem tick_choice w :
  (exists rest,
      events (runBackup env config w)
      = (probeEvents env config w
         ++ EvStdout (consoleLine env
              [if baseExists env config w
               then "Found today's full backup. Performing incremental backup."
               else "No full backup for today found. Starting a new full backup."])
         :: EvStdout (consoleLine env
              [if baseExists env config w then "Performing incremental backup..."
               else "Performing full backup..."])
         :: rest)%list)
  /\ (baseExists env config w = true ->
      fault env (EvMkdir (Js.pathJoin (backupRoot config)
                            ("inc_backup_" ++ formatDateTime (now env)))) = None ->
      In (EvSpawn "xtrabackup"
            ["--backup";
             "--user=" ++ dbUser config;
             "--password=" ++ dbPassword config;
             "--host=" ++ dbHost config;
             "--port=" ++ dbPort config;
             "--target-dir=" ++ Js.pathJoin (backupRoot config)
                                  ("inc_backup_" ++ formatDateTime (now env));
             "--incremental-basedir=" ++ todayDir env config;
             "--no-lock"])
         (events (runBackup env config w)))
  /\ (baseExists env config w = false ->
      Forall (quiet isIncrementalRun) (events (runBackup env config w))).
Proof.
  destruct (tick_runs_selected_procedure env config w) as [rest Hev].
  split; [|split].
  - rewrite Hev. destruct (baseExists env config w).
    + unfold procedure. rewrite (bind_Ok _ _ w tt w _ eq_refl).
      unfold after. cbn [events snd app].
      unfold performIncrementalBackup. rewrite (bind_Ok _ _ w tt w _ eq_refl).
      unfold after. cbn [events snd app]. eexists. reflexivity.
    + unfold procedure. rewrite (bind_Ok _ _ w tt w _ eq_refl).
      unfold after. cbn [events snd app].
      match goal with
      | |- context [bind ?m ?k w] => destruct (events_bind m k w) as [r1 ->]
      end.
      unfold performFullBackup. rewrite (bind_Ok _ _ w tt w _ eq_refl).
      unfold after. cbn [events snd app]. eexists. reflexivity.
  - intros Hb Hf. rewrite Hev, Hb. apply in_or_app. right. apply in_or_app. left.
    unfold procedure. rewrite (bind_Ok _ _ w tt w _ eq_refl).
    unfold after. cbn [events snd app]. right.
    destruct (incremental_relative_to env config (todayDir env config) w Hf)
      as [r Hr].
    rewrite Hr. right. right. now left.
  - intros Hb.
    pose proof (runBackup_cases env config w) as Hc. cbv zeta in Hc.
    rewrite Hb in Hc.
    pose proof (full_branch_runs_no_incremental w) as Hp.
    assert (Hprobe : Forall (quiet isIncrementalRun) (probeEvents env config w)).
    { unfold probeEvents. destruct (exists_ _ _); repeat constructor. }
    destruct (procedure env config None w) as [[[u|e|c] w1] t1];
      cbn [outcome world events fst snd] in *.
    + rewrite Hc. unfold after. cbn [events snd].
      apply Forall_app. split; [apply Forall_app; now split|].
      assert (Hq : emits (quiet isIncrementalRun) (afterBackup env config))
        by (unfold afterBackup; qt).
      apply Hq.
    + rewrite Hc. cbn [events snd].
      apply Forall_app. split; [exact Hprobe|].
      apply Forall_app. split; [exact Hp|repeat constructor].
    + destruct Hc as [Hc _]. rewrite Hc. cbn [events snd].
      apply Forall_app. now split.
Qed.

End Facts.
End ChoiceFacts.

(** *** The archive a tick leaves *)

Module ArchiveFacts.
Import Eff Trace EffFacts Failure FailureFacts Tick Index IndexFacts TickFacts
       Naming KeyFacts StoreFacts.

Ltac ksi :=
  repeat first
    [ progress unfold log, logError, runCommand, cleanupOldDirectories,
        pingHealthcheck, readdir, rm, mkdir, unlink, readFile, httpGet
    | apply keepsStore_ret | apply keepsStore_throw | apply keepsStore_exit
    | apply keepsStore_spawn
    | apply keepsStore_stdout | apply keepsStore_stderr
    | apply keepsStore_bind; [|intros ?]
    | apply keepsStore_try; [|intros ?]
    | apply keepsStore_forEach; intros ?
    | apply keepsStore_io; intros ?
    | match goal with
      | |- keepsStore (if ?c then _ else _) => destruct c
      | |- keepsStore (match ?x with _ => _ end) => destruct x
      | |- objects _ = _ => progress cbn [snd fst objects setFiles]
      | |- objects (if ?c then _ else _) = _ => destruct c
      | |- objects (snd (if ?c then _ else _)) = _ => destruct c
      end
    | reflexivity ].

Section Facts.
Variable env : Env.
Variable config : Config.

Lemma kept {A} (m : M A) w a w' t :
  keepsStore m -> m w = (Ok a, w', t) -> objects w' = objects w.
Proof. intros H E. specialize (H w). now rewrite E in H. Qed.

Lemma upload_ok filePath key w w' t :
  uploadToB2 env config filePath key w = (Ok tt, w', t) ->
  objects w'
  = (filter (fun o => negb (String.eqb (Key o) (sweepPrefix config ++ key)))
            (objects w) ++ [archive env config key filePath])%list.
Proof.
  intros E. pose proof (upload_result env config filePath key w) as H.
  rewrite E in H. cbn [outcome world fst snd] in H.
  now destruct (H eq_refl) as (_ & H2).
Qed.

Lemma incremental_ok dir w :
  fourDigitYear (now env) ->
  outcome (performIncrementalBackup env config dir w) = Ok tt ->
  objects (world (performIncrementalBackup env config dir w))
  = (filter (fun o => negb (String.eqb (Key o) (sweepPrefix config ++ incKey (now env))))
            (objects w)
     ++ [archive env config (incKey (now env))
                 (Js.pathJoin (backupRoot config) (incKey (now env)))])%list.
Proof.
  intros Hy Hok.
  destruct (performIncrementalBackup env config dir w) as [[r w'] t] eqn:E.
  cbn [outcome world fst snd] in *. subst r.
  unfold performIncrementalBackup in E.
  change ("inc_backup_" ++ formatDateTime (now env) ++ ".tar.gz")
    with (incKey (now env)) in E.
  assert (Hbase : Js.basename (Js.pathJoin (backupRoot config) (incKey (now env)))
                  = incKey (now env)).
  { unfold Js.pathJoin. rewrite <- JsFacts.app_assoc_s.
    apply basename_in_folder; [right; now eexists|now apply incKey_noSlash]. }
  rewrite Hbase in E.
  apply bind_ok in E as (a0 & w0 & t0 & r0 & H0 & E & ->).
  injection H0 as _ <- _.
  apply try_ok in E as [E|(e & w1 & t1 & t2 & _ & E & _)];
    [|apply bind_ok in E as (? & ? & ? & ? & _ & E & _); discriminate].
  apply bind_ok in E as (a1 & w1 & t1 & r1 & H1 & E & ->).
  apply bind_ok in E as (a2 & w2 & t2 & r2 & H2 & E & ->).
  apply bind_ok in E as (a3 & w3 & t3 & r3 & H3 & E & ->).
  apply bind_ok in E as (a4 & w4 & t4 & r4 & H4 & E & ->).
  apply bind_ok in E as (a5 & w5 & t5 & r5 & H5 & E & ->).
  apply bind_ok in E as (a6 & w6 & t6 & r6 & H6 & E & ->).
  apply bind_ok in E as (a7 & w7 & t7 & r7 & H7 & E & ->).
  apply bind_ok in E as (a8 & w8 & t8 & r8 & H8 & E & ->).
  apply bind_ok in E as (a9 & w9 & t9 & r9 & H9 & E & ->).
  destruct a6.
  apply kept in H1; [|ksi]. apply kept in H2; [|ksi]. apply kept in H3; [|ksi].
  apply kept in H4; [|ksi]. apply kept in H5; [|ksi].
  apply upload_ok in H6.
  apply kept in H7; [|ksi]. apply kept in H8; [|ksi]. apply kept in H9; [|ksi].
  apply kept in E; [|ksi].
  rewrite E, H9, H8, H7, H6, H5, H4, H3, H2, H1. reflexivity.
Qed.

Lemma full_ok w :
  fourDigitYear (now env) ->
  (exists dir, outcome (performFullBackup env config w) = Ok dir) ->
  objects (world (performFullBackup env config w))
  = (filter (fun o => negb (String.eqb (Key o) (sweepPrefix config ++ fullKey (now env))))
            (objects w)
     ++ [archive env config (fullKey (now env))
                 (Js.pathJoin (backupRoot config) (fullKey (now env)))])%list.
Proof.
  intros Hy [dir Hok].
  destruct (performFullBackup env config w) as [[r w'] t] eqn:E.
  cbn [outcome world fst snd] in *. subst r.
  unfold performFullBackup in E.
  change ("full_backup_" ++ formatDate (now env) ++ ".tar.gz")
    with (fullKey (now env)) in E.
  assert (Hbase : Js.basename (Js.pathJoin (backupRoot config) (fullKey (now env)))
                  = fullKey (now env)).
  { unfold Js.pathJoin. rewrite <- JsFacts.app_assoc_s.
    apply basename_in_folder; [right; now eexists|now apply fullKey_noSlash]. }
  rewrite Hbase in E.
  apply bind_ok in E as (a0 & w0 & t0 & r0 & H0 & E & ->).
  injection H0 as _ <- _.
  apply try_ok in E as [E|(e & w1 & t1 & t2 & _ & E & _)];
    [|apply bind_ok in E as (? & ? & ? & ? & _ & E & _); discriminate].
  apply bind_ok in E as (a1 & w1 & t1 & r1 & H1 & E & ->).
  apply bind_ok in E as (a2 & w2 & t2 & r2 & H2 & E & ->).
  apply bind_ok in E as (a3 & w3 & t3 & r3 & H3 & E & ->).
  apply bind_ok in E as (a4 & w4 & t4 & r4 & H4 & E & ->).
  apply bind_ok in E as (a5 & w5 & t5 & r5 & H5 & E & ->).
  apply bind_ok in E as (a6 & w6 & t6 & r6 & H6 & E & ->).
  apply bind_ok in E as (a7 & w7 & t7 & r7 & H7 & E & ->).
  apply bind_ok in E as (a8 & w8 & t8 & r8 & H8 & E & ->).
  apply bind_ok in E as (a9 & w9 & t9 & r9 & H9 & E & ->).
  apply bind_ok in E as (a10 & w10 & t10 & r10 & H10 & E & ->).
  destruct a7.
  apply kept in H1; [|ksi]. apply kept in H2; [|ksi]. apply kept in H3; [|ksi].
  apply kept in H4; [|ksi]. apply kept in H5; [|ksi]. apply kept in H6; [|ksi].
  apply upload_ok in H7.
  apply kept in H8; [|ksi]. apply kept in H9; [|ksi]. apply kept in H10; [|ksi].
  apply kept in E; [|ksi].
  rewrite E, H10, H9, H8, H7, H6, H5, H4, H3, H2, H1. reflexivity.
Qed.

(** X21. A tick that ends normally leaves its archive in the store. After
    it the store holds, in the configured folder, an object named by the key
    of the backup (of the Incremental taken at this instant when a valid base
    was there, of today's Full otherwise), last modified at this instant; it
    is the only object of that key, and the sweep of the same tick has not
    removed it. *)
Theorem tick_leaves_archive w :
  fourDigitYear (now env) -> 0 <= retentionDays config ->
  outcome (runBackup env config w) = Ok tt ->
  exists key filePath,
    key = (if baseExists env config w then incKey (now env) else fullKey (now env))
    /\ In (archive env config key filePath)
          (objects (world (runBackup env config w)))
    /\ forall o, In o (objects (world (runBackup env config w))) ->
                 Key o = sweepPrefix config ++ key ->
                 o = archive env config key filePath.
Proof.
  intros Hy Hret Hok.
  pose proof (runBackup_cases env config w) as Hc. cbv zeta in Hc.
  set (key := if baseExists env config w then incKey (now env) else fullKey (now env)).
  set (filePath := Js.pathJoin (backupRoot config) key).
  exists key, filePath. split; [reflexivity|].
  (* the store after the procedure *)
  assert (Hpr : outcome (procedure env config
                           (if baseExists env config w then Some (todayDir env config)
                            else None) w) = Ok tt ->
                objects (world (procedure env config
                                  (if baseExists env config w then Some (todayDir env config)
                                   else None) w))
                = (filter (fun o => negb (String.eqb (Key o) (sweepPrefix config ++ key)))
                          (objects w)
                   ++ [archive env config key filePath])%list).
  { unfold key, filePath. destruct (baseExists env config w); unfold procedure.
    - intros H.
      rewrite (bind_Ok _ _ w tt w _ eq_refl) in H |- *. unfold after in *.
      cbn [outcome world fst snd] in *. now apply incremental_ok.
    - intros H.
      rewrite (bind_Ok _ _ w tt w _ eq_refl) in H |- *. unfold after in *.
      cbn [outcome world fst snd] in *.
      destruct (performFullBackup env config w) as [[r1 w1] t1] eqn:E1.
      unfold bind in H |- *. rewrite E1 in H |- *.
      destruct r1 as [dir|e|c]; try discriminate.
      cbn [world fst snd].
      pose proof (full_ok w Hy) as Hfull. rewrite E1 in Hfull.
      cbn [outcome world fst snd] in Hfull. apply Hfull. now exists dir. }
  destruct (procedure env config _ w) as [[[u|e|c] w1] t1];
    cbn [outcome world events fst snd] in *;
    [| |destruct Hc as [Hc _]; rewrite Hc in Hok; discriminate].
  2:{ rewrite Hc in Hok. discriminate. }
  destruct u. specialize (Hpr eq_refl).
  destruct (afterBackup_result env config w1) as (w2 & t2 & w3 & t3 & E2 & E3 & Eab).
  rewrite Hc, Eab. unfold after. cbn [world fst snd].
  assert (H3 : objects w3 = objects w2)
    by (refine (kept (pingHealthcheck env config) w2 tt w3 t3 _ E3); ksi).
  rewrite H3.
  destruct (sweep_shape env config w1) as (done & Hi & _ & Hos).
  rewrite E2 in Hos. cbn [world fst snd] in Hos.
  assert (Hsub : forall o, In o (objects w2) -> In o (objects w1))
    by (intros o Ho; rewrite Hos in Ho; now apply filter_In in Ho).
  assert (Hkeep : forall o, In o (objects w1) ->
                            swept env config (sweepPage config w1) o = false ->
                            In o (objects w2)).
  { intros o Ho Hs. rewrite Hos. apply filter_In. split; [exact Ho|].
    now rewrite (swept_mono env config done _ o Hi Hs). }
  assert (Huniq : forall o, In o (objects w1) -> Key o = sweepPrefix config ++ key ->
                            o = archive env config key filePath).
  { intros o Ho Hk. rewrite Hpr in Ho. apply in_app_or in Ho as [Ho|[Ho|[]]].
    - apply filter_In in Ho as [_ Ho]. rewrite Hk, String.eqb_refl in Ho. discriminate.
    - now symmetry. }
  split.
  - apply Hkeep.
    + rewrite Hpr. apply in_or_app. right. now left.
    + unfold swept. destruct (existsb _ _) eqn:Ex; [|reflexivity].
      apply existsb_exists in Ex as (p & Hp & Hb).
      apply andb_true_iff in Hb as [Hold Hk]. apply String.eqb_eq in Hk.
      assert (Hp1 : In p (objects w1)).
      { unfold sweepPage in Hp.
        assert (Hp2 : In p (filter (fun o => Js.startsWith (Key o) (sweepPrefix config))
                                   (objects w1)))
          by (rewrite <- (firstn_skipn 1000); apply in_or_app; now left).
        now apply filter_In in Hp2. }
      cbn [archive Key] in Hk. symmetry in Hk.
      rewrite (Huniq p Hp1 Hk) in Hold.
      unfold isOld, archive, cutoffDate in Hold. cbn [LastModified] in Hold.
      apply Z.ltb_lt in Hold. nia.
  - intros o Ho Hk. apply Huniq; [now apply Hsub|exact Hk].
Qed.

End Facts.
End ArchiveFacts.

(** ** The properties on concrete inputs *)

Module PipelineCases.

Import Eff Trace Naming Chain Pipeline Tick Scenario.

(** ** The merge pipeline *)

(** The restore of the Full of 2024-01-01 and its two Incrementals. *)
Lemma restore_merges_witness :
  [inc0600; inc1200] <> []
  /\ outcome (Restore.restoreBackups (calm noon) restorer
                [full0101; inc0600; inc1200] (mkWorld [] store3 [])) = Ok tt
  /\ (merges (events (Restore.restoreBackups (calm noon) restorer
                        [full0101; inc0600; inc1200] (mkWorld [] store3 [])))
      = [mkMerge true (Some "/restore/base") None;
         mkMerge true (Some "/restore/base") (Some "/restore/inc_1");
         mkMerge true (Some "/restore/base") (Some "/restore/inc_2");
         mkMerge false (Some "/restore/base") None]
      /\ extractions (events (Restore.restoreBackups (calm noon) restorer
                                [full0101; inc0600; inc1200]
                                (mkWorld [] store3 [])))
         = [("/restore/full_backup_20240101.tar.gz", "/restore/base");
            ("/restore/inc_backup_20240101060000.tar.gz", "/restore/inc_1");
            ("/restore/inc_backup_20240101120000.tar.gz", "/restore/inc_2")]).
Proof.
  split; [discriminate|]. split; [vm_compute; reflexivity|].
  apply (PipelineFacts.restore_merges (calm noon) restorer full0101
           [inc0600; inc1200] (mkWorld [] store3 []));
    [discriminate | vm_compute; reflexivity].
Defined.

(** C1, as stated, fails on a chain of length 3: the last incremental is
    merged log-only like the others, and the finalizing merge that follows
    names no incremental. *)
Lemma restore_last_incremental_is_log_only :
  outcome (Restore.restoreBackups (calm noon) restorer
             [full0101; inc0600; inc1200] (mkWorld [] store3 [])) = Ok tt
  /\ merges (events (Restore.restoreBackups (calm noon) restorer
                       [full0101; inc0600; inc1200] (mkWorld [] store3 [])))
     = [mkMerge true (Some "/restore/base") None;
        mkMerge true (Some "/restore/base") (Some "/restore/inc_1");
        mkMerge true (Some "/restore/base") (Some "/restore/inc_2");
        mkMerge false (Some "/restore/base") None]
  /\ merges (events (Restore.restoreBackups (calm noon) restorer
                       [full0101; inc0600; inc1200] (mkWorld [] store3 [])))
     <> [mkMerge true (Some "/restore/base") None;
         mkMerge true (Some "/restore/base") (Some "/restore/inc_1");
         mkMerge false (Some "/restore/base") (Some "/restore/inc_2")].
Proof.
  split; [vm_compute; reflexivity|]. split; [vm_compute; reflexivity|].
  vm_compute. discriminate.
Qed.

End PipelineCases.

Module ChainCases.
Import Eff Restore Naming Chain Scenario.

Lemma canonicalb_spec b : canonicalb b = true -> canonical b.
Proof.
  unfold canonicalb, canonical. destruct (date b) as [t|]; [|discriminate].
  intros H. exists t. split; [reflexivity|].
  apply andb_true_iff in H as [Hy Hn]. apply andb_true_iff in Hy as [Hlo Hhi].
  split; [unfold fourDigitYear; lia|].
  destruct (isIncremental b).
  - now apply String.eqb_eq.
  - apply andb_true_iff in Hn as [Hn Hm]. split; [now apply String.eqb_eq | lia].
Qed.

Lemma canonicalb_all l : forallb canonicalb l = true -> Forall canonical l.
Proof.
  intros H. apply Forall_forall. intros b Hb. apply canonicalb_spec.
  rewrite forallb_forall in H. now apply H.
Qed.

Lemma recent_store3 : recent 0 store3 = [inc1200; inc0600; full0101].
Proof. vm_compute. reflexivity. Qed.

Lemma recent_storeTwice : recent 0 storeTwice = [archived0600; inc0600; full0101].
Proof. vm_compute. reflexivity. Qed.

(** The chain of the 12:00 Incremental in the catalog of 2024-01-01. *)
Lemma chain_of_incremental_witness :
  Forall canonical (recent 0 store3)
  /\ In inc1200 (recent 0 store3)
  /\ isIncremental inc1200 = true
  /\ (exists f, In f (recent 0 store3) /\ isIncremental f = false
                /\ sameDay f inc1200 = true)
  /\ exists fullBackup incrementals,
       findRelatedBackups (recent 0 store3) inc1200 = inr (fullBackup :: incrementals)
       /\ (In fullBackup (recent 0 store3) /\ isIncremental fullBackup = false
           /\ sameDay fullBackup inc1200 = true)
       /\ Permutation incrementals
                      (filter (inWindow fullBackup inc1200) (recent 0 store3))
       /\ StronglySorted notLater incrementals
       /\ In inc1200 incrementals
       /\ date (last incrementals inc1200) = date inc1200
       /\ ((forall b, In b (recent 0 store3) -> isIncremental b = true ->
                      date b = date inc1200 -> b = inc1200) ->
           last incrementals inc1200 = inc1200).
Proof.
  assert (Hcan : Forall canonical (recent 0 store3))
    by (apply canonicalb_all; vm_compute; reflexivity).
  assert (Hin : In inc1200 (recent 0 store3))
    by (rewrite recent_store3; left; reflexivity).
  assert (Hfull : exists f, In f (recent 0 store3) /\ isIncremental f = false
                            /\ sameDay f inc1200 = true).
  { exists full0101. rewrite recent_store3. split; [right; right; left; reflexivity|].
    split; [reflexivity | vm_compute; reflexivity]. }
  split; [exact Hcan|]. split; [exact Hin|]. split; [reflexivity|].
  split; [exact Hfull|].
  exact (ChainFacts.chain_of_incremental (recent 0 store3) inc1200
           Hcan Hin eq_refl Hfull).
Defined.

(** C2, as stated, fails where two Incrementals of the catalog carry one
    timestamp: the chain resolved for the one stored under [archive/] ends
    with the other. *)
Lemma chain_last_is_not_the_target :
  In archived0600 (recent 0 storeTwice)
  /\ isIncremental archived0600 = true
  /\ In full0101 (recent 0 storeTwice)
  /\ isIncremental full0101 = false
  /\ sameDay full0101 archived0600 = true
  /\ findRelatedBackups (recent 0 storeTwice) archived0600
     = inr [full0101; archived0600; inc0600]
  /\ last [full0101; archived0600; inc0600] full0101 <> archived0600.
Proof.
  rewrite recent_storeTwice.
  split; [left; reflexivity|]. split; [reflexivity|].
  split; [right; right; left; reflexivity|]. split; [reflexivity|].
  split; [vm_compute; reflexivity|]. split; [vm_compute; reflexivity|].
  cbn. discriminate.
Qed.

End ChainCases.

Module ToolCases.
Import Eff Restore Naming Chain Pipeline Scenario.

(** The operator selects the only record of a store that holds one
    Incremental of 2024-01-02 and no Full. *)
Lemma missing_base_stops_restore_witness :
  let env := calm noon in
  let w := mkWorld [] storeOrphan ["1"] in
  fault env (EvList (listingPrefix restorer)) = None
  /\ answers w = ["1"]
  /\ parseInt "1" = Some 1
  /\ nth_error (recent (tzOffset env) (page restorer w)) (Z.to_nat (1 - 1)) = Some orphan
  /\ 1 <= 1
  /\ isIncremental orphan = true
  /\ date orphan = Some 1704164400000
  /\ (forall b, In b (recent (tzOffset env) (page restorer w)) ->
                isFullOf (Index.formatDate 1704164400000) b = false)
  /\ findRelatedBackups (recent (tzOffset env) (page restorer w)) orphan
     = inl (missingBase "20240102")
  /\ outcome (main env restorer w) = Halt 1
  /\ events (main env restorer w)
     = [EvList "";
        EvPrompt (newline ++ "Enter backup number to restore (or 'q' to quit): ");
        EvStderr "2024-01-01T12:00:00.000Z Restore failed: Cannot find full backup for date 20240102. Incremental backups cannot be restored without their base full backup."]
  /\ files (world (main env restorer w)) = files w
  /\ objects (world (main env restorer w)) = objects w.
Proof.
  cbv zeta.
  assert (Hnone : forall b,
             In b (recent (tzOffset (calm noon))
                          (page restorer (mkWorld [] storeOrphan ["1"]))) ->
             isFullOf (Index.formatDate 1704164400000) b = false).
  { intros b Hb. vm_compute in Hb. destruct Hb as [<-|[]]. vm_compute. reflexivity. }
  assert (Hnth : nth_error (recent (tzOffset (calm noon))
                              (page restorer (mkWorld [] storeOrphan ["1"])))
                           (Z.to_nat (1 - 1)) = Some orphan)
    by (vm_compute; reflexivity).
  assert (Hp : parseInt "1" = Some 1) by (vm_compute; reflexivity).
  split; [reflexivity|]. split; [reflexivity|]. split; [exact Hp|].
  split; [exact Hnth|]. split; [lia|]. split; [reflexivity|].
  split; [reflexivity|]. split; [exact Hnone|].
  exact (ToolFacts.missing_base_stops_restore (calm noon) restorer
           (mkWorld [] storeOrphan ["1"]) "1" [] 1 orphan 1704164400000
           eq_refl eq_refl Hp Hnth (Z.le_refl 1) eq_refl eq_refl Hnone).
Defined.

End ToolCases.

Module TickCases.
Import Eff Trace Naming Chain Pipeline Tick Scenario.

(** C4. The older variant of the scheduler takes a full-backup directory
    without the completion marker for a valid base: on a working root where
    the directory of today holds no [xtrabackup_checkpoints], it runs the
    Incremental Backup Procedure against that directory, where the current
    variant runs the Full Backup Procedure. *)
Theorem older_variant_uses_unfinished_base :
  baseExists (calm noon) scheduler unfinished = false
  /\ Legacy.getCurrentFullBackupDir (calm noon) olderScheduler unfinished
     = (Ok (Some "/tmp/mysql-backup-1/full_backup_20240101"), unfinished,
        [EvAccess "/tmp/mysql-backup-1/full_backup_20240101"])
  /\ firstn 2 (logLines (events (Legacy.runBackup (calm noon) olderScheduler
                                   unfinished)))
     = ["2024-01-01T12:00:00.000Z Found today's full backup. Performing incremental backup.";
        "2024-01-01T12:00:00.000Z Performing incremental backup..."]
  /\ nth_error (events (Legacy.runBackup (calm noon) olderScheduler unfinished)) 4
     = Some (EvSpawn "xtrabackup"
               ["--backup"; "--user=root"; "--password=s3cret"; "--host=mysql";
                "--target-dir=/tmp/mysql-backup-1/inc_backup_20240101120000";
                "--incremental-basedir=/tmp/mysql-backup-1/full_backup_20240101";
                "--no-lock"])
  /\ firstn 2 (logLines (events (Index.runBackup (calm noon) scheduler unfinished)))
     = ["2024-01-01T12:00:00.000Z No full backup for today found. Starting a new full backup.";
        "2024-01-01T12:00:00.000Z Performing full backup..."].
Proof. repeat split; vm_compute; reflexivity. Qed.

(** C8. The older variant of the scheduler writes the database password to
    the log: when the engine fails, both lines that report the failure carry
    the argument [--password=s3cret] as it was passed; the current variant
    writes [--password=***] in its place. *)
Theorem older_variant_logs_password :
  Legacy.dbPassword olderScheduler = "s3cret"
  /\ logLines (events (Legacy.runBackup (engineFails noon) olderScheduler finished))
     = ["2024-01-01T12:00:00.000Z Found today's full backup. Performing incremental backup.";
        "2024-01-01T12:00:00.000Z Performing incremental backup...";
        "2024-01-01T12:00:00.000Z Error during incremental backup: Error: xtrabackup --backup --user=root --password=s3cret --host=mysql --target-dir=/tmp/mysql-backup-1/inc_backup_20240101120000 --incremental-basedir=/tmp/mysql-backup-1/full_backup_20240101 --no-lock failed with exit code 1";
        "2024-01-01T12:00:00.000Z Backup failed: Error: xtrabackup --backup --user=root --password=s3cret --host=mysql --target-dir=/tmp/mysql-backup-1/inc_backup_20240101120000 --incremental-basedir=/tmp/mysql-backup-1/full_backup_20240101 --no-lock failed with exit code 1"]
  /\ existsb (contains (Legacy.dbPassword olderScheduler))
             (logLines (events (Legacy.runBackup (engineFails noon)
                                  olderScheduler finished))) = true
  /\ existsb (contains (Index.dbPassword scheduler))
             (logLines (events (Index.runBackup (engineFails noon)
                                  scheduler finished))) = false.
Proof. repeat split; vm_compute; reflexivity. Qed.

(** A tick on a finished full backup, once with a store that rejects the
    upload and once with a store that rejects the listing of the sweep. *)
Lemma tick_store_failures_witness :
  let run := Index.runBackup (uploadFails noon) scheduler finished in
  let swept := Index.runBackup (listingFails noon) scheduler finished in
  (In (EvPut "inc_backup_20240101120000.tar.gz") (events run)
   /\ fault (uploadFails noon) (EvPut "inc_backup_20240101120000.tar.gz")
      = Some (mkError "Error" "connect ETIMEDOUT")
   /\ outcome run = Halt 1
   /\ exists t0 label,
        events run
        = (t0 ++ [EvPut "inc_backup_20240101120000.tar.gz";
                  EvStderr (consoleLine (uploadFails noon)
                              [label; Index.sanitizeError
                                        (mkError "Error" "connect ETIMEDOUT")]);
                  failedLine (uploadFails noon)
                             (mkError "Error" "connect ETIMEDOUT")])%list
        /\ Forall (quiet isPut) t0)
  /\ (isSweep (EvList "") = true
      /\ In (EvList "") (events swept)
      /\ Index.healthCheckUrl scheduler <> ""
      /\ fault (listingFails noon) (EvList "")
         = Some (mkError "Error" "connect ETIMEDOUT")
      /\ outcome swept = Ok tt
      /\ In (EvHttpGet (Index.healthCheckUrl scheduler)) (events swept)
      /\ exists t0 t1,
           events swept
           = (t0 ++ EvList ""
                 :: EvStderr (consoleLine (listingFails noon)
                                ["Error cleaning up old backups:";
                                 Index.sanitizeError
                                   (mkError "Error" "connect ETIMEDOUT")])
                 :: t1)%list
           /\ Forall (quiet isSweep) t1
           /\ In (EvHttpGet (Index.healthCheckUrl scheduler)) t1).
Proof.
  cbv zeta.
  assert (Hput : In (EvPut "inc_backup_20240101120000.tar.gz")
                    (events (Index.runBackup (uploadFails noon) scheduler finished))).
  { apply (nth_error_In _ 11). vm_compute. reflexivity. }
  assert (Hlist : In (EvList "")
                     (events (Index.runBackup (listingFails noon) scheduler finished))).
  { apply (nth_error_In _ 18). vm_compute. reflexivity. }
  assert (Hurl : Index.healthCheckUrl scheduler <> "") by discriminate.
  split.
  - split; [exact Hput|]. split; [reflexivity|].
    exact (proj1 (TickFacts.tick_store_failures (uploadFails noon) scheduler finished)
             "inc_backup_20240101120000.tar.gz"
             (mkError "Error" "connect ETIMEDOUT") Hput eq_refl).
  - split; [reflexivity|]. split; [exact Hlist|]. split; [exact Hurl|].
    split; [reflexivity|].
    destruct (proj2 (TickFacts.tick_store_failures (listingFails noon) scheduler
                       finished) (EvList "") eq_refl Hlist)
      as (Hok & Hping & Hlog).
    split; [exact Hok|]. split; [exact (Hping Hurl)|].
    destruct (Hlog (mkError "Error" "connect ETIMEDOUT") eq_refl)
      as (t0 & t1 & Hev & Hq & Hp).
    exists t0, t1. split; [exact Hev|]. split; [exact Hq|exact (Hp Hurl)].
Defined.

(** C9, as stated, fails for the Retention Sweep: when the store rejects the
    listing of the sweep, the tick logs the error, goes on to the liveness
    ping and ends normally. *)
Lemma sweep_failure_is_not_fatal :
  fault (listingFails noon) (EvList "") = Some (mkError "Error" "connect ETIMEDOUT")
  /\ outcome (Index.runBackup (listingFails noon) scheduler finished) = Ok tt
  /\ skipn 18 (events (Index.runBackup (listingFails noon) scheduler finished))
     = [EvList "";
        EvStderr "2024-01-01T12:00:00.000Z Error cleaning up old backups: connect ETIMEDOUT";
        EvHttpGet "https://hc-ping.com/uuid";
        EvStdout "2024-01-01T12:00:00.000Z Successfully pinged healthcheck"]
  /\ outcome (Index.runBackup (listingFails noon) scheduler finished) <> Halt 1.
Proof.
  split; [reflexivity|]. split; [vm_compute; reflexivity|].
  split; [vm_compute; reflexivity|]. vm_compute. discriminate.
Qed.

(** C7. The Retention Sweep deletes an object that is no Catalog entry: in a
    store that holds a recent Full and an old [notes.txt], the sweep deletes
    [notes.txt], whose key lacks the archive extension. *)
Theorem sweep_deletes_foreign_object :
  Js.endsWith "notes.txt" ".tar.gz" = false
  /\ map Restore.key (Restore.catalog 0 storeMixed) = ["full_backup_20240101.tar.gz"]
  /\ Index.cleanupOldBackups (calm noon) scheduler (mkWorld [] storeMixed [])
     = (Ok tt,
        mkWorld [] [mkObject "full_backup_20240101.tar.gz" 2097152 (Some noon)] [],
        [EvList ""; EvDelete "notes.txt";
         EvStdout "2024-01-01T12:00:00.000Z Deleted old backup: notes.txt"]).
Proof. repeat split; vm_compute; reflexivity. Qed.

End TickCases.

Module CatalogCases.
Import Eff Restore Naming Chain Scenario.

(** C5. The key of an Incremental is decoded in the local time of the host
    of the restore tool: on a host eight hours east of UTC the key written at
    2024-01-01T06:00:00Z is read as 2023-12-31T22:00:00Z, a timestamp of the
    day before, and the resolver then looks for the Full of the wrong day. *)
Theorem incremental_key_read_in_local_time :
  incKey morning = "inc_backup_20240101060000.tar.gz"
  /\ decodeDate 0 (incKey morning) true = Some morning
  /\ decodeDate utcPlus8 (incKey morning) true = Some 1704060000000
  /\ decodeDate utcPlus8 (incKey morning) true <> Some (morning - morning mod 1000)
  /\ Index.formatDate 1704060000000 = "20231231"
  /\ In inc0600plus8 (recent utcPlus8 store3)
  /\ findRelatedBackups (recent utcPlus8 store3) inc0600plus8
     = inl (missingBase "20231231").
Proof.
  split; [vm_compute; reflexivity|]. split; [vm_compute; reflexivity|].
  split; [vm_compute; reflexivity|]. split; [vm_compute; discriminate|].
  split; [vm_compute; reflexivity|].
  split; [apply (nth_error_In _ 2); vm_compute; reflexivity|].
  vm_compute. reflexivity.
Qed.

(** C6. Chain resolution sees the capped list only: with a Full and twenty
    later Incrementals of one day in the store, the twenty most recent
    records hold no Full, so the restore of the latest Incremental stops with
    the missing-base error, although the whole catalog resolves it to the
    chain of twenty-one. *)
Theorem cap_hides_the_base :
  length (catalog 0 storeDay) = 21%nat
  /\ length (recent 0 storeDay) = 20%nat
  /\ existsb (fun b => negb (isIncremental b)) (recent 0 storeDay) = false
  /\ nth_error (recent 0 storeDay) 0 = Some inc2000
  /\ findRelatedBackups (recent 0 storeDay) inc2000 = inl (missingBase "20240101")
  /\ (exists chain, findRelatedBackups (catalog 0 storeDay) inc2000 = inr chain
                    /\ length chain = 21%nat
                    /\ hd_error chain = Some full0101
                    /\ last chain full0101 = inc2000)
  /\ outcome (main (calm noon) restorer (mkWorld [] storeDay ["1"; "yes"])) = Halt 1
  /\ events (main (calm noon) restorer (mkWorld [] storeDay ["1"; "yes"]))
     = [EvList "";
        EvPrompt (newline ++ "Enter backup number to restore (or 'q' to quit): ");
        EvStderr "2024-01-01T12:00:00.000Z Restore failed: Cannot find full backup for date 20240101. Incremental backups cannot be restored without their base full backup."].
Proof.
  split; [vm_compute; reflexivity|]. split; [vm_compute; reflexivity|].
  split; [vm_compute; reflexivity|]. split; [vm_compute; reflexivity|].
  split; [vm_compute; reflexivity|].
  split.
  - destruct (findRelatedBackups (catalog 0 storeDay) inc2000) as [e|chain] eqn:E;
      [vm_compute in E; discriminate|].
    exists chain. split; [reflexivity|].
    vm_compute in E. injection E as <-. repeat split; vm_compute; reflexivity.
  - split; vm_compute; reflexivity.
Qed.

End CatalogCases.

Module CleanupCases.
Import Eff Trace Tick Scenario Samples.

(** The cleanup of 2024-01-01 on a working root that holds the directories
    of yesterday and of today. *)
Lemma cleanup_removes_old_directories_witness :
  let w' := world (Index.cleanupOldDirectories (calm noon) scheduler "20240101"
                     twoDays) in
  files w'
  = ["/tmp/mysql-backup-1";
     "/tmp/mysql-backup-1/full_backup_20240101";
     "/tmp/mysql-backup-1/full_backup_20240101/xtrabackup_checkpoints";
     "/tmp/mysql-backup-1/inc_backup_20231231230000";
     "/var/lib/mysql/ibdata1"]
  /\ In "/tmp/mysql-backup-1/full_backup_20240101/xtrabackup_checkpoints" (files w')
  /\ In "/tmp/mysql-backup-1/inc_backup_20231231230000" (files w')
  /\ In "/var/lib/mysql/ibdata1" (files w')
  /\ objects w' = objects twoDays
  /\ stale "20240101" "full_backup_20231231"
  /\ ~ In "/tmp/mysql-backup-1/full_backup_20231231/xtrabackup_checkpoints" (files w').
Proof.
  cbv zeta.
  destruct (CleanupFacts.cleanup_removes_old_directories (calm noon) scheduler
              "20240101" twoDays)
    as (_ & _ & Hkeep & Hout & Hobj & Htoday & Hinc & _ & Hst & Hgone).
  split; [vm_compute; reflexivity|].
  split.
  { apply (Hkeep "full_backup_20240101");
      [reflexivity | exact Htoday | vm_compute; reflexivity |].
    apply (nth_error_In _ 4). reflexivity. }
  split.
  { apply (Hkeep "inc_backup_20231231230000");
      [reflexivity | apply Hinc; reflexivity | vm_compute; reflexivity |].
    apply (nth_error_In _ 5). reflexivity. }
  split.
  { apply Hout; [vm_compute; reflexivity|]. apply (nth_error_In _ 6). reflexivity. }
  split; [exact Hobj|].
  assert (Hold : stale "20240101" "full_backup_20231231")
    by (apply (Hst "20231231"); discriminate).
  split; [exact Hold|].
  apply (Hgone eq_refl eq_refl (fun _ => eq_refl) "full_backup_20231231").
  - apply (nth_error_In _ 1). reflexivity.
  - discriminate.
  - reflexivity.
  - exact Hold.
  - vm_compute. reflexivity.
Defined.

(** C10, as stated, fails for an entry that is no directory: the cleanup of
    2024-01-01 removes the archive [full_backup_20231231.tar.gz], a file that
    a failed upload has left in the working root; [fs.rm] is called on every
    entry that passes the test of the name. *)
Lemma cleanup_removes_leftover_archive :
  Js.endsWith "full_backup_20231231.tar.gz" ".tar.gz" = true
  /\ In "/tmp/mysql-backup-1/full_backup_20231231.tar.gz" (files leftover)
  /\ Index.cleanupOldDirectories (calm noon) scheduler "20240101" leftover
     = (Ok tt,
        mkWorld ["/tmp/mysql-backup-1";
                 "/tmp/mysql-backup-1/full_backup_20240101";
                 "/tmp/mysql-backup-1/full_backup_20240101/xtrabackup_checkpoints"]
                [] [],
        [EvReaddir "/tmp/mysql-backup-1";
         EvRm "/tmp/mysql-backup-1/full_backup_20231231.tar.gz";
         EvStdout "2024-01-01T12:00:00.000Z Removed old backup directory: /tmp/mysql-backup-1/full_backup_20231231.tar.gz"]).
Proof.
  split; [reflexivity|]. split; [right; left; reflexivity|].
  vm_compute. reflexivity.
Qed.

End CleanupCases.

Module StartupCases.
Import Eff Trace Index Startup Scenario Samples.

(** The message of a failed run of the engine with the password in it. *)
Lemma sanitizeError_masks_word_witness :
  solid "s3cret" = true
  /\ solid ("abc" ++ String (ascii_of_nat 160) "def") = false
  /\ sanitizeError
       (mkError "Error"
          ("xtrabackup --backup " ++ "--password=" ++ "s3cret"
           ++ " --host=mysql failed with exit code 1"))
     = "xtrabackup --backup --password=*** --host=mysql failed with exit code 1".
Proof.
  split; [reflexivity|]. split; [reflexivity|].
  refine (proj1 (SanitizeFacts.sanitizeError_masks_word
                   "Error" "xtrabackup --backup " "s3cret"
                   " --host=mysql failed with exit code 1" _ _ eq_refl _)).
  - right. exists "xtrabackup --backup", " "%char. split; reflexivity.
  - discriminate.
  - right. exists " "%char, "--host=mysql failed with exit code 1".
    split; reflexivity.
Defined.

(** A proxy over http with a user and a password. *)
Lemma useProxy_lines_witness :
  includes ":" "http" = false
  /\ includes "@" "user:pass" = false
  /\ logLines (events (useProxy (calm noon) anyAgent
                         ("http" ++ "://" ++ "user:pass" ++ "@" ++ "proxy.local:8080")
                         finished))
     = ["2024-01-01T12:00:00.000Z Using proxy: http://***@proxy.local:8080"].
Proof.
  split; [reflexivity|]. split; [reflexivity|].
  refine (StartupRuns.useProxy_lines (calm noon) anyAgent "http" "user:pass"
            "proxy.local:8080" finished eq_refl _ eq_refl _).
  - discriminate.
  - reflexivity.
Defined.

End StartupCases.

Module KeyCases.
Import Eff Restore Naming Chain Scenario Samples.

(** Two instants half a second apart, and two instants of the same day. *)
Lemma keys_identify_witness :
  fourDigitYear noon /\ fourDigitYear (noon + 500) /\ fourDigitYear morning
  /\ incKey noon = incKey (noon + 500)
  /\ incKey noon <> incKey morning
  /\ fullKey noon = fullKey morning.
Proof.
  assert (H1 : fourDigitYear noon) by (vm_compute; split; discriminate).
  assert (H2 : fourDigitYear (noon + 500)) by (vm_compute; split; discriminate).
  assert (H3 : fourDigitYear morning) by (vm_compute; split; discriminate).
  split; [exact H1|]. split; [exact H2|]. split; [exact H3|].
  split; [|split].
  - apply (proj1 (KeyFacts.keys_identify noon (noon + 500) H1 H2)). reflexivity.
  - intros Heq.
    apply (proj1 (KeyFacts.keys_identify noon morning H1 H3)) in Heq.
    vm_compute in Heq. discriminate.
  - apply (proj2 (KeyFacts.keys_identify noon morning H1 H3)). reflexivity.
Defined.

(** The Incremental of 06:00 UTC stored in the folder [backups/] and read on
    a host eight hours east of UTC. *)
Lemma stored_keys_are_read_back_witness :
  fourDigitYear morning
  /\ toBackup utcPlus8 (mkObject ("backups/" ++ incKey morning) 204800 (Some noon))
     = mkBackup "backups/inc_backup_20240101060000.tar.gz"
                "inc_backup_20240101060000.tar.gz" 204800
                (Some 1704060000000) true (Some noon)
  /\ toBackup utcPlus8 (mkObject ("backups/" ++ fullKey morning) 2097152 (Some noon))
     = mkBackup "backups/full_backup_20240101.tar.gz"
                "full_backup_20240101.tar.gz" 2097152
                (Some 1704067200000) false (Some noon).
Proof.
  assert (H : fourDigitYear morning) by (vm_compute; split; discriminate).
  split; [exact H|].
  assert (Hf : "backups/" = "" \/ exists d, "backups/" = d ++ "/")
    by (right; exists "backups"; reflexivity).
  split.
  - exact (proj1 (proj2 (proj1 (KeyFacts.stored_keys_are_read_back
                                  utcPlus8 "backups/" morning 204800 (Some noon) H Hf)))).
  - exact (proj1 (proj2 (proj2 (KeyFacts.stored_keys_are_read_back
                                  utcPlus8 "backups/" morning 2097152 (Some noon) H Hf)))).
Defined.

End KeyCases.
Module RestoreCases.
Import Eff Trace Failure Restore Catalog Pipeline Scenario Samples.

(** The listing of a store that holds one Full and two Incrementals. *)
Lemma listBackups_result_witness :
  fault (calm noon) (EvList (listingPrefix restorer)) = None
  /\ exists backups,
       listBackups (calm noon) restorer (mkWorld [] store3 [])
       = (Ok backups, mkWorld [] store3 [], [EvList ""])
       /\ (List.length backups <= 20)%nat
       /\ StronglySorted notEarlier backups.
Proof.
  split; [reflexivity|].
  destruct (CatalogFacts.listBackups_result (calm noon) restorer
              (mkWorld [] store3 []) eq_refl)
    as (backups & Hl & Hn & _ & _ & Hs).
  exists backups. split; [exact Hl|]. split; [exact Hn|].
  refine (proj1 (Hs _)). vm_compute.
  repeat (constructor; [eexists; reflexivity|]). constructor.
Defined.

(** The engine fails at the finalizing merge of a Full. *)
Lemma restore_stops_at_failed_tool_witness :
  In (EvSpawn "xtrabackup" ["--prepare"; "--target-dir=/restore/base"])
     (events (main (engineFails noon) restorer picksFull))
  /\ exitCode (engineFails noon) "xtrabackup"
              ["--prepare"; "--target-dir=/restore/base"] <> 0
  /\ outcome (main (engineFails noon) restorer picksFull) = Halt 1
  /\ exists t0,
       events (main (engineFails noon) restorer picksFull)
       = (t0 ++ [EvSpawn "xtrabackup" ["--prepare"; "--target-dir=/restore/base"];
                 EvStderr "2024-01-01T12:00:00.000Z Restore failed: xtrabackup --prepare --target-dir=/restore/base failed with exit code 1"])%list.
Proof.
  assert (Hin : In (EvSpawn "xtrabackup" ["--prepare"; "--target-dir=/restore/base"])
                   (events (main (engineFails noon) restorer picksFull)))
    by (vm_compute; do 9 right; left; reflexivity).
  assert (Hcode : exitCode (engineFails noon) "xtrabackup"
                           ["--prepare"; "--target-dir=/restore/base"] <> 0)
    by (vm_compute; discriminate).
  split; [exact Hin|]. split; [exact Hcode|].
  exact (RestoreFacts.restore_stops_at_failed_tool (engineFails noon) restorer
           picksFull "xtrabackup" ["--prepare"; "--target-dir=/restore/base"]
           Hin Hcode).
Defined.

(** The operator picks the newest Incremental and then answers "no". *)
Lemma restore_needs_consent_witness :
  answers declines = ["1"; "no"]
  /\ files (world (main (calm noon) restorer declines)) = files declines
  /\ Forall (fun ev => acts ev = false)
            (events (main (calm noon) restorer declines)).
Proof.
  split; [reflexivity|].
  apply (RestoreFacts.restore_needs_consent (calm noon) restorer declines).
  intros selection proceed rest H. injection H as _ <- _. discriminate.
Defined.

(** Three records are shown and the operator types 7. *)
Lemma invalid_selection_ends_run_witness :
  parseInt "7" = Some 7
  /\ List.length (recent 0 (page restorer picksSeven)) = 3%nat
  /\ main (calm noon) restorer picksSeven
     = (Ok tt, mkWorld [] store3 [],
        [EvList "";
         EvPrompt (newline ++ "Enter backup number to restore (or 'q' to quit): ");
         EvStderr "2024-01-01T12:00:00.000Z Invalid selection."]).
Proof.
  split; [reflexivity|]. split; [reflexivity|].
  refine (RestoreFacts.invalid_selection_ends_run (calm noon) restorer picksSeven
            "7" [] eq_refl _ eq_refl eq_refl _ _).
  - vm_compute. discriminate.
  - vm_compute. discriminate.
  - vm_compute. right. reflexivity.
Defined.

(** The restore of the Full of 2024-01-01. *)
Lemma restore_full_alone_witness :
  isIncremental full0101 = false
  /\ outcome (restoreBackups (calm noon) restorer [full0101]
                             (mkWorld ["/restore"] store3 [])) = Ok tt
  /\ findRelatedBackups [inc1200; inc0600; full0101] full0101 = inr [full0101]
  /\ merges (events (restoreBackups (calm noon) restorer [full0101]
                                    (mkWorld ["/restore"] store3 [])))
     = [mkMerge false (Some "/restore/base") None].
Proof.
  assert (Hok : outcome (restoreBackups (calm noon) restorer [full0101]
                           (mkWorld ["/restore"] store3 [])) = Ok tt)
    by (vm_compute; reflexivity).
  split; [reflexivity|]. split; [exact Hok|].
  destruct (RestoreFacts.restore_full_alone (calm noon) restorer
              [inc1200; inc0600; full0101] full0101
              (mkWorld ["/restore"] store3 []) eq_refl Hok) as (H1 & _ & H3).
  split; [exact H1|exact H3].
Defined.

End RestoreCases.

Module SchedulerCases.
Import Eff Trace Failure Secrecy Index Tick Naming Scenario Samples.

(** A tick on a finished full backup of today, with two passwords: with an
    engine that runs, and with an engine that is not installed. *)
Lemma tick_hides_password_witness :
  blind (calm noon) /\ starts (calm noon) "xtrabackup"
  /\ logLines (events (runBackup (calm noon) (withPassword scheduler "s3cret") finished))
     = logLines (events (runBackup (calm noon) (withPassword scheduler "hunter2") finished))
  /\ blind (engineMissing noon)
  /\ outcome (runBackup (engineMissing noon) (withPassword scheduler "s3cret") finished)
     = Halt 1
  /\ In (EvUncaught (mkError "Error" "spawn xtrabackup ENOENT")
           ["--backup"; "--user=root"; "--password=s3cret"; "--host=mysql";
            "--port=3306";
            "--target-dir=/tmp/mysql-backup-1/inc_backup_20240101120000";
            "--incremental-basedir=/tmp/mysql-backup-1/full_backup_20240101";
            "--no-lock"])
        (events (runBackup (engineMissing noon) (withPassword scheduler "s3cret")
                           finished)).
Proof.
  assert (Hb : blind (calm noon)).
  { intros args. split; [reflexivity|].
    destruct args as [|mode [|file args]]; reflexivity. }
  assert (Hs : starts (calm noon) "xtrabackup") by (intros args e; discriminate).
  assert (Hm : blind (engineMissing noon)).
  { intros args. split; [reflexivity|].
    destruct args as [|mode [|file args]]; reflexivity. }
  split; [exact Hb|]. split; [exact Hs|]. split.
  - exact (proj1 (proj2 (proj2 (proj1 (SecrecyFacts.tick_hides_password
                                         (calm noon) scheduler "s3cret" "hunter2"
                                         finished Hb) Hs)))).
  - split; [exact Hm|].
    destruct (proj2 (SecrecyFacts.tick_hides_password
                       (engineMissing noon) scheduler "s3cret" "hunter2"
                       finished Hm)
                (mkError "Error" "spawn xtrabackup ENOENT")
                eq_refl eq_refl eq_refl) as (Ho & Hin & _).
    split; [exact Ho|exact Hin].
Defined.

(** An engine that a signal ends: the procedure fails on the exit code
    [null], the failure is logged with the password masked, and the process
    ends with code 1. *)
Example tick_with_killed_engine :
  runBackup (engineKilled noon) (withPassword scheduler "s3cret") finished
  = (Halt 1,
     world (runBackup (engineKilled noon) (withPassword scheduler "s3cret") finished),
     events (runBackup (engineKilled noon) (withPassword scheduler "s3cret") finished))
  /\ In (EvStderr
           ("2024-01-01T12:00:00.000Z Backup failed: "
            ++ "xtrabackup --backup --user=root --password=*** "
            ++ "--host=mysql --port=3306 "
            ++ "--target-dir=/tmp/mysql-backup-1/inc_backup_20240101120000 "
            ++ "--incremental-basedir=/tmp/mysql-backup-1/full_backup_20240101 "
            ++ "--no-lock failed with exit code null"))
        (events (runBackup (engineKilled noon) (withPassword scheduler "s3cret")
                           finished)).
Proof.
  split.
  - vm_compute. reflexivity.
  - vm_compute. tauto.
Qed.

(** The upload of the archive of today's Full into an empty store. *)
Lemma upload_is_listed_witness :
  outcome (uploadToB2 (calm noon) scheduler tarFile "full_backup_20240101.tar.gz"
                      packed) = Ok tt
  /\ objects (world (uploadToB2 (calm noon) scheduler tarFile
                                "full_backup_20240101.tar.gz" packed))
     = [mkObject "full_backup_20240101.tar.gz" 0 (Some noon)].
Proof.
  assert (Hok : outcome (uploadToB2 (calm noon) scheduler tarFile
                           "full_backup_20240101.tar.gz" packed) = Ok tt)
    by (vm_compute; reflexivity).
  split; [exact Hok|].
  exact (proj1 (proj2 (StoreFacts.upload_is_listed (calm noon) scheduler tarFile
                         "full_backup_20240101.tar.gz" packed Hok))).
Defined.

(** The engine fails while it takes an Incremental. *)
Lemma tick_stops_at_failed_tool_witness :
  let args := ["--backup"; "--user=root"; "--password=s3cret"; "--host=mysql";
               "--port=3306";
               "--target-dir=/tmp/mysql-backup-1/inc_backup_20240101120000";
               "--incremental-basedir=/tmp/mysql-backup-1/full_backup_20240101";
               "--no-lock"] in
  In (EvSpawn "xtrabackup" args)
     (events (runBackup (engineFails noon) scheduler finished))
  /\ exitCode (engineFails noon) "xtrabackup" args <> 0
  /\ outcome (runBackup (engineFails noon) scheduler finished) = Halt 1.
Proof.
  cbv zeta.
  assert (Hin : In (EvSpawn "xtrabackup"
                      ["--backup"; "--user=root"; "--password=s3cret"; "--host=mysql";
                       "--port=3306";
                       "--target-dir=/tmp/mysql-backup-1/inc_backup_20240101120000";
                       "--incremental-basedir=/tmp/mysql-backup-1/full_backup_20240101";
                       "--no-lock"])
                   (events (runBackup (engineFails noon) scheduler finished)))
    by (vm_compute; do 5 right; left; reflexivity).
  assert (Hcode : exitCode (engineFails noon) "xtrabackup"
                    ["--backup"; "--user=root"; "--password=s3cret"; "--host=mysql";
                     "--port=3306";
                     "--target-dir=/tmp/mysql-backup-1/inc_backup_20240101120000";
                     "--incremental-basedir=/tmp/mysql-backup-1/full_backup_20240101";
                     "--no-lock"] <> 0)
    by (vm_compute; discriminate).
  split; [exact Hin|]. split; [exact Hcode|].
  exact (proj1 (ToolFailureFacts.tick_stops_at_failed_tool
                  (engineFails noon) scheduler finished "xtrabackup" _ Hin Hcode)).
Defined.

(** A tick on a finished full backup of today leaves the Incremental of
    12:00. *)
Lemma tick_leaves_archive_witness :
  fourDigitYear noon /\ 0 <= retentionDays scheduler
  /\ outcome (runBackup (calm noon) scheduler finished) = Ok tt
  /\ exists key filePath,
       key = "inc_backup_20240101120000.tar.gz"
       /\ In (archive (calm noon) scheduler key filePath)
             (objects (world (runBackup (calm noon) scheduler finished))).
Proof.
  assert (Hy : fourDigitYear noon) by (vm_compute; split; discriminate).
  assert (Hr : 0 <= retentionDays scheduler) by (vm_compute; discriminate).
  assert (Hok : outcome (runBackup (calm noon) scheduler finished) = Ok tt)
    by (vm_compute; reflexivity).
  split; [exact Hy|]. split; [exact Hr|]. split; [exact Hok|].
  destruct (ArchiveFacts.tick_leaves_archive (calm noon) scheduler finished
              Hy Hr Hok) as (key & filePath & Hk & Hin & _).
  exists key, filePath. split; [|exact Hin].
  rewrite Hk. vm_compute. reflexivity.
Defined.

(** The sweep of a store that holds today's Full and a file of 1970. *)
Lemma sweep_deletes_old_listed_witness :
  (forall key, fault (calm noon) (EvDelete key) = None)
  /\ fault (calm noon) (EvList (sweepPrefix scheduler)) = None
  /\ events (cleanupOldBackups (calm noon) scheduler (mkWorld [] storeMixed []))
     = [EvList ""; EvDelete "notes.txt";
        EvStdout "2024-01-01T12:00:00.000Z Deleted old backup: notes.txt"]
  /\ objects (world (cleanupOldBackups (calm noon) scheduler (mkWorld [] storeMixed [])))
     = [mkObject "full_backup_20240101.tar.gz" 2097152 (Some noon)].
Proof.
  assert (Hd : forall key, fault (calm noon) (EvDelete key) = None)
    by reflexivity.
  split; [exact Hd|]. split; [reflexivity|].
  pose proof (SweepFacts.sweep_deletes_old_listed (calm noon) scheduler Hd
                (mkWorld [] storeMixed []) eq_refl) as H.
  split.
  - exact (f_equal events H).
  - exact (f_equal (fun r => objects (world r)) H).
Defined.

End SchedulerCases.
